(** * genchart.py: the RRD4J extraction and resampling core

    A shallow embedding of the data path of [src/genchart.py]
    ([parse_rrd4j_file], [parse_rrd4j_values_only], [process_data],
    [generate_x_labels] and the part of [main] that chains them), of
    [generate_chart_data] and of [deduce_unit] with the handling of the
    title in [main], followed by the properties of that code.

    Conventions of the embedding.
    - A file is the list of its bytes; offsets and counts are Python ints,
      hence [Z].
    - A double that is carried as data (a value read from the file, the
      tracked minimum and maximum, the bounds of the Y axis) is a primitive
      binary64 [float]: it may be NaN, infinite or a signed zero, and the
      kernel evaluates its operations as the hardware does.
    - A number that takes part in index or time arithmetic ([len / max_points],
      [i * step], [required_duration * 0.8], the clock) is a [pynum]: an int
      with its exact value, or a finite double denoted by the rational it is
      equal to.  Every float operation on them rounds its exact result to the
      nearest binary64 (ties to even) through [rnd64]; that function works
      with an unbounded exponent, so it is the IEEE result as long as no
      overflow or subnormal is involved, which is the case for the quantities
      above.  The last example of the file compares it with the primitive
      floats.
    - An exception that the source lets escape is a [Raise]; the two parsers
      catch everything and return [None], as their [Optional] result says.
    - [time.time()] is a parameter [now].
    - A [str] (a title, a unit) is the list of its code points. *)

From Stdlib Require Import ZArith QArith Qround Qabs Qpower Lia Lqa.
From Stdlib Require Import List Bool String Ascii Floats.
From Stdlib.Strings Require Import Byte.
From Stdlib Require Import Sorted Permutation.
Import ListNotations.

Set Warnings "-inexact-float".

Local Open Scope Z_scope.

(* ================================================================== *)
(** ** Python numbers *)

(** [ilog2 x] is within one of the binary logarithm of a positive [x]. *)
Definition ilog2 (x : Q) : Z := Z.log2 (Qnum x) - Z.log2 (Zpos (Qden x)).

(** The exponent [k] that brings a positive [x] into [2^52 <= x * 2^k < 2^53]. *)
Definition scale_exp (x : Q) : Z :=
  let k0 := 52 - ilog2 x in
  if Qlt_le_dec (x * 2 ^ k0) (2 ^ 52) then k0 + 1 else k0.

Definition round_half_even (y : Q) : Z :=
  let f := Qfloor y in
  match Qcompare (y - inject_Z f) (1 # 2) with
  | Lt => f
  | Gt => f + 1
  | Eq => if Z.even f then f else f + 1
  end.

Definition rnd_pos (x : Q) : Q :=
  let k := scale_exp x in
  Qred (inject_Z (round_half_even (x * 2 ^ k)) / 2 ^ k).

(** Round to the nearest double, ties to even (53 significant bits). *)
Definition rnd64 (x : Q) : Q :=
  match Qcompare x 0 with
  | Eq => 0%Q
  | Gt => rnd_pos x
  | Lt => Qopp (rnd_pos (Qopp x))
  end.

Inductive pynum : Type :=
| PyInt (z : Z)
| PyFloat (q : Q).

(** The exact value of a number (what Python's comparisons look at). *)
Definition num_val (a : pynum) : Q :=
  match a with
  | PyInt z => inject_Z z
  | PyFloat q => q
  end.

(** [float(a)]. *)
Definition as_float (a : pynum) : Q :=
  match a with
  | PyInt z => rnd64 (inject_Z z)
  | PyFloat q => q
  end.

Definition num_add (a b : pynum) : pynum :=
  match a, b with
  | PyInt x, PyInt y => PyInt (x + y)
  | _, _ => PyFloat (rnd64 (as_float a + as_float b))
  end.

Definition num_sub (a b : pynum) : pynum :=
  match a, b with
  | PyInt x, PyInt y => PyInt (x - y)
  | _, _ => PyFloat (rnd64 (as_float a - as_float b))
  end.

Definition num_mul (a b : pynum) : pynum :=
  match a, b with
  | PyInt x, PyInt y => PyInt (x * y)
  | _, _ => PyFloat (rnd64 (as_float a * as_float b))
  end.

Inductive exn : Type :=
| ZeroDivisionError
| ValueError
| OverflowError
| IndexError
| StructError.

Inductive result (A : Type) : Type :=
| Ret (a : A)
| Raise (e : exn).
Arguments Ret {A} a.
Arguments Raise {A} e.

Definition rbind {A B : Type} (m : result A) (k : A -> result B) : result B :=
  match m with
  | Ret a => k a
  | Raise e => Raise e
  end.

Definition obind {A B : Type} (m : option A) (k : A -> option B) : option B :=
  match m with
  | Some a => k a
  | None => None
  end.

Declare Scope py_scope.
Delimit Scope py_scope with py.
Notation "x <- m ;; k" := (obind m (fun x => k))
  (at level 61, m at next level, right associativity) : py_scope.
Notation "' p <- m ;; k" := (obind m (fun x => match x with p => k end))
  (at level 61, p pattern, m at next level, right associativity) : py_scope.
Notation "x <~ m ;; k" := (rbind m (fun x => k))
  (at level 61, m at next level, right associativity) : py_scope.

(** [a / b]: the quotient of two ints is rounded once; otherwise both
    operands are floats first. *)
Definition num_truediv (a b : pynum) : result pynum :=
  if Qeq_bool (num_val b) 0 then Raise ZeroDivisionError
  else match a, b with
       | PyInt x, PyInt y => Ret (PyFloat (rnd64 (inject_Z x / inject_Z y)))
       | _, _ => Ret (PyFloat (rnd64 (as_float a / as_float b)))
       end.

Definition num_le (a b : pynum) : bool := Qle_bool (num_val a) (num_val b).
Definition num_lt (a b : pynum) : bool := negb (Qle_bool (num_val b) (num_val a)).
Definition num_eq (a b : pynum) : bool := Qeq_bool (num_val a) (num_val b).

(** [int(x)] truncates towards zero. *)
Definition Qtrunc (x : Q) : Z := if Qle_bool 0 x then Qfloor x else Qceiling x.

Definition py_int (a : pynum) : Z :=
  match a with
  | PyInt z => z
  | PyFloat q => Qtrunc q
  end.

(** The literal [0.8]. *)
Definition lit_0_8 : pynum := PyFloat (rnd64 (8 # 10)).

(** *** Doubles carried as data *)

(** The int [z] as a double, correctly rounded. *)
Definition Z2F (z : Z) : float := SF2Prim (binary_normalize prec emax z 0 false).

(** The exact value of a finite double [(-1)^s * m * 2^e]. *)
Definition finite_val (s : bool) (m : positive) (e : Z) : Q :=
  let v := (inject_Z (Zpos m) * 2 ^ e)%Q in if s then Qopp v else v.

(** [math.floor] and [math.ceil] return an int; they raise on NaN and on
    the infinities. *)
Definition math_floor (x : float) : result Z :=
  match Prim2SF x with
  | S754_zero _ => Ret 0
  | S754_finite s m e => Ret (Qfloor (finite_val s m e))
  | S754_infinity _ => Raise OverflowError
  | S754_nan => Raise ValueError
  end.

Definition math_ceil (x : float) : result Z :=
  match Prim2SF x with
  | S754_zero _ => Ret 0
  | S754_finite s m e => Ret (Qceiling (finite_val s m e))
  | S754_infinity _ => Raise OverflowError
  | S754_nan => Raise ValueError
  end.

Fixpoint log10_up (fuel : nat) (k : Z) (x : Q) : Z :=
  match fuel with
  | O => k
  | S fuel' => if Qle_bool (10 ^ (k + 1)) x then log10_up fuel' (k + 1) x else k
  end.

Fixpoint log10_down (fuel : nat) (k : Z) (x : Q) : Z :=
  match fuel with
  | O => k
  | S fuel' => if Qle_bool (10 ^ k) x then k else log10_down fuel' (k - 1) x
  end.

(** [math.floor(math.log10(x))] for a positive finite [x], taken on the exact
    value of [x]: the [k] with [10^k <= x < 10^(k+1)].  The C library's
    [log10] is within an ulp of the logarithm, so the two agree except
    possibly when [x] is within rounding of a power of ten. *)
Definition floor_log10 (x : float) : result Z :=
  match Prim2SF x with
  | S754_finite false m e =>
      let q := finite_val false m e in
      Ret (if Qle_bool 1 q then log10_up 400 0 q else log10_down 400 (-1) q)
  | S754_infinity false => Raise OverflowError
  | _ => Raise ValueError
  end.

(** The double nearest to [10^j] (for [j < 0]: the rounded quotient
    [1 / 10^-j], which is that double as long as [10^-j] is a double,
    that is for [-22 <= j]). *)
Definition nearest_pow10 (j : Z) : float :=
  if 0 <=? j then Z2F (10 ^ j) else (1 / Z2F (10 ^ (- j)))%float.

(* ================================================================== *)
(** ** Sequences and [struct.unpack] *)

Section Slices.
Context {A : Type}.

Definition len (l : list A) : Z := Z.of_nat (List.length l).

(** [l[n:]] for [0 <= n]. *)
Fixpoint drop (n : Z) (l : list A) : list A :=
  match l with
  | [] => []
  | x :: t => if n <=? 0 then l else drop (n - 1) t
  end.

(** [l[:n]] for [0 <= n]. *)
Fixpoint take (n : Z) (l : list A) : list A :=
  match l with
  | [] => []
  | x :: t => if n <=? 0 then [] else x :: take (n - 1) t
  end.

(** [l[a:b]] for [0 <= a]. *)
Definition slice (l : list A) (a b : Z) : list A := take (b - a) (drop a l).

(** [l[i]]; a negative index counts from the end. *)
Definition item (l : list A) (i : Z) : result A :=
  let j := if i <? 0 then len l + i else i in
  if j <? 0 then Raise IndexError
  else match nth_error l (Z.to_nat j) with
       | Some x => Ret x
       | None => Raise IndexError
       end.

(** [l[-n:]] for [0 < n]. *)
Definition last_n (n : Z) (l : list A) : list A := drop (len l - n) l.
End Slices.

(** [range(start, stop, step)] for a positive [step]. *)
Definition py_range (start stop step : Z) : list Z :=
  map (fun k => start + step * Z.of_nat k)
      (seq 0 (Z.to_nat ((stop - start + step - 1) / step))).

(** [enumerate(l)], counting from [i]. *)
Definition enumerate_from {A : Type} (i : Z) (l : list A) : list (Z * A) :=
  combine (map (fun k => i + Z.of_nat k) (seq 0 (List.length l))) l.

Definition enumerate {A : Type} (l : list A) : list (Z * A) := enumerate_from 0 l.

(** [subseq s l]: [s] is [l] with some elements left out, order kept. *)
Inductive subseq {A : Type} : list A -> list A -> Prop :=
| subseq_nil : subseq [] []
| subseq_skip (x : A) (s l : list A) : subseq s l -> subseq s (x :: l)
| subseq_keep (x : A) (s l : list A) : subseq s l -> subseq (x :: s) (x :: l).

Definition byte_val (b : byte) : Z := Z.of_N (Byte.to_N b).

(** A big-endian unsigned integer. *)
Definition be_uint (bs : list byte) : Z :=
  fold_left (fun acc b => acc * 256 + byte_val b) bs 0.

(** The double whose IEEE-754 binary64 encoding is the 64-bit pattern [b]. *)
Definition double_of_bits (b : Z) : float :=
  let s := Z.testbit b 63 in
  let e := Z.land (Z.shiftr b 52) 2047 in
  let m := Z.land b (2 ^ 52 - 1) in
  if e =? 2047 then
    if m =? 0 then (if s then neg_infinity else infinity) else nan
  else if e =? 0 then
    match m with
    | Zpos p => SF2Prim (S754_finite s p (-1074))
    | _ => SF2Prim (S754_zero s)
    end
  else SF2Prim (S754_finite s (Z.to_pos (m + 2 ^ 52)) (e - 1075)).

(** [struct.unpack] raises [struct.error] unless the buffer has exactly the
    size of the format. *)
Definition unpack_QIIQ (bs : list byte) : option (Z * Z * Z * Z) :=
  if len bs =? 24
  then Some (be_uint (slice bs 0 8), be_uint (slice bs 8 12),
             be_uint (slice bs 12 16), be_uint (slice bs 16 24))
  else None.

Definition unpack_II (bs : list byte) : option (Z * Z) :=
  if len bs =? 8
  then Some (be_uint (slice bs 0 4), be_uint (slice bs 4 8))
  else None.

Definition unpack_I (bs : list byte) : option Z :=
  if len bs =? 4 then Some (be_uint bs) else None.

Definition unpack_d (bs : list byte) : option float :=
  if len bs =? 8 then Some (double_of_bits (be_uint bs)) else None.

Fixpoint doubles_of (n : nat) (bs : list byte) : list float :=
  match n with
  | O => []
  | S n' => double_of_bits (be_uint (take 8 bs)) :: doubles_of n' (drop 8 bs)
  end.

(** [struct.unpack(f'>{n}d', bs)]. *)
Definition unpack_doubles (n : Z) (bs : list byte) : option (list float) :=
  if len bs =? 8 * n then Some (doubles_of (Z.to_nat n) bs) else None.

(** A dict with string keys, as the list of its items. *)
Fixpoint dict_get {V : Type} (d : list (string * V)) (key : string) (default : V) : V :=
  match d with
  | [] => default
  | (k, v) :: rest => if String.eqb k key then v else dict_get rest key default
  end.

(** [max(l, key=key)]: the first of the greatest elements; [ValueError] on
    an empty sequence. *)
Fixpoint max_from {A : Type} (key : A -> Z) (best : A) (l : list A) : A :=
  match l with
  | [] => best
  | x :: t => if key best <? key x then max_from key x t else max_from key best t
  end.

Definition py_max {A : Type} (key : A -> Z) (l : list A) : result A :=
  match l with
  | [] => Raise ValueError
  | x :: t => Ret (max_from key x t)
  end.

(** [try: ... except Exception: return None]. *)
Definition catch {A : Type} (m : result A) : option A :=
  match m with
  | Ret a => Some a
  | Raise _ => None
  end.

Definition unpacked {A : Type} (o : option A) : result A :=
  match o with
  | Some a => Ret a
  | None => Raise StructError
  end.

(* ================================================================== *)
(** ** [parse_rrd4j_file] *)

(** A sample [(ts, val)].  The timestamps are the ints that
    [parse_rrd4j_file] builds, the only samples that [main] passes on. *)
Definition Sample : Type := Z * float.

(** An entry of [archive_data]. *)
Record archive : Type := mk_archive {
  steps : Z;
  rows : Z;
  pointer : Z;
  values : list float
}.

(** Lines 97-103: the circular buffer put in chronological order. *)
Definition reorder (pointer : Z) (values : list float) : list float :=
  if (0 <? pointer) && (pointer <? len values)
  then drop pointer values ++ take pointer values
  else values.

Local Open Scope py_scope.

(** One turn of the loop of lines 76-110; returns the archive and the
    offset after it. *)
Definition read_archive (data : list byte) (ds_count offset : Z)
  : result (archive * Z) :=
  sr <~ unpacked (unpack_II (slice data (offset + 48) (offset + 56))) ;;
  let '(arc_steps, arc_rows) := sr in
  let offset := offset + 56 in
  let offset := offset + ds_count * 16 in
  pointer <~ unpacked (unpack_I (slice data offset (offset + 4))) ;;
  let offset := offset + 4 in
  let values_size := arc_rows * 8 in
  values <~ unpacked (unpack_doubles arc_rows (slice data offset (offset + values_size))) ;;
  let offset := offset + values_size in
  let offset := offset + Z.max 0 (ds_count - 1) * (4 + arc_rows * 8) in
  Ret ({| steps := arc_steps; rows := arc_rows; pointer := pointer;
          values := reorder pointer values |}, offset).

Fixpoint read_archives (n : nat) (data : list byte) (ds_count offset : Z)
  : result (list archive) :=
  match n with
  | O => Ret []
  | S n' =>
      ao <~ read_archive data ds_count offset ;;
      rest <~ read_archives n' data ds_count (snd ao) ;;
      Ret (fst ao :: rest)
  end.

Definition period_duration : list (string * Z) :=
  [("h", 3600); ("D", 24 * 3600); ("W", 7 * 24 * 3600);
   ("M", 30 * 24 * 3600); ("Y", 365 * 24 * 3600)]%string.

(** The time that an archive covers, in seconds. *)
Definition coverage (step : Z) (a : archive) : Z := rows a * step * steps a.

(** The archive covers at least 80% of the requested period. *)
Definition covers (step : Z) (period : string) (a : archive) : Prop :=
  let required_duration := dict_get period_duration period (24 * 3600) in
  ((8 # 10) * inject_Z required_duration <= inject_Z (coverage step a))%Q.

(** Lines 122-129: the first archive that covers 80% of the period. *)
Fixpoint first_covering (step required_duration : Z) (archive_data : list archive)
  : option archive :=
  match archive_data with
  | [] => None
  | arc :: rest =>
      let arc_step := step * steps arc in
      let arc_duration := rows arc * arc_step in
      if num_le (num_mul (PyInt required_duration) lit_0_8) (PyInt arc_duration)
      then Some arc
      else first_covering step required_duration rest
  end.

(** Lines 122-133. *)
Definition select_archive (step : Z) (period : string) (archive_data : list archive)
  : result archive :=
  let required_duration := dict_get period_duration period (24 * 3600) in
  match first_covering step required_duration archive_data with
  | Some arc => Ret arc
  | None => py_max (fun a => rows a * step * steps a) archive_data
  end.

Definition finite (val : float) : bool := negb (is_nan val) && negb (is_infinity val).

(** Lines 141-145, from index [i] on; [n] is [len(values)]. *)
Fixpoint pairs_from (last_update arc_step n i : Z) (vals : list float) : list Sample :=
  match vals with
  | [] => []
  | val :: rest =>
      let tail := pairs_from last_update arc_step n (i + 1) rest in
      if finite val
      then (last_update - (n - i - 1) * arc_step, val) :: tail
      else tail
  end.

Definition build_pairs (last_update arc_step : Z) (vals : list float) : list Sample :=
  pairs_from last_update arc_step (len vals) 0 vals.

(** The header of lines 62-69, with the two resets applied. *)
Definition read_header (data : list byte) (now : Q) : result (Z * Z * Z * Z) :=
  h <~ unpacked (unpack_QIIQ (slice data 40 (40 + 24))) ;;
  let '(step, ds_count, arc_count, last_update) := h in
  let step := if (step <? 1) || (86400 <? step) then 60 else step in
  let last_update :=
    if (last_update <? 1577836800) || (2000000000 <? last_update)
    then Qtrunc now else last_update in
  Ret (step, ds_count, arc_count, last_update).

Definition parse_body (data : list byte) (period : string) (now : Q)
  : result (option (list Sample)) :=
  h <~ read_header data now ;;
  let '(step, ds_count, arc_count, last_update) := h in
  let offset := 40 + 24 in
  let offset := offset + ds_count * 128 in
  archive_data <~ read_archives (Z.to_nat arc_count) data ds_count offset ;;
  selected <~ select_archive step period archive_data ;;
  let arc_step := step * steps selected in
  let pairs := build_pairs last_update arc_step (values selected) in
  Ret (match pairs with [] => None | _ => Some pairs end).

Definition parse_rrd4j_file (data : list byte) (period : string) (now : Q)
  : option (list Sample) :=
  match catch (parse_body data period now) with
  | Some r => r
  | None => None
  end.

(* ================================================================== *)
(** ** [parse_rrd4j_values_only] *)

Definition is_valid_sensor_value (val : float) : bool :=
  if is_nan val || is_infinity val then false
  else ((0.0001 <? abs val) && (abs val <? 10000))%float.

Record scan_state : Type := mk_scan {
  blocks : list (list float);
  current_block : list float;
  current_start : option Z
}.

(** The body of the loop of lines 168-178 at offset [i]. *)
Definition scan_step (data : list byte) (st : scan_state) (i : Z) : result scan_state :=
  val <~ unpacked (unpack_d (slice data i (i + 8))) ;;
  if is_valid_sensor_value val
  then Ret {| blocks := blocks st;
              current_block := current_block st ++ [val];
              current_start := match current_start st with
                               | None => Some i
                               | Some j => Some j
                               end |}
  else Ret {| blocks := if 30 <=? len (current_block st)
                        then blocks st ++ [current_block st]
                        else blocks st;
              current_block := [];
              current_start := None |}.

(** The same step on the value alone, for the blocks and the block in
    progress. *)
Definition scan_pure (st : list (list float) * list float) (val : float)
  : list (list float) * list float :=
  if is_valid_sensor_value val
  then (fst st, snd st ++ [val])
  else ((if 30 <=? len (snd st) then fst st ++ [snd st] else fst st), []).

Fixpoint scan_loop (data : list byte) (st : scan_state) (offsets : list Z)
  : result scan_state :=
  match offsets with
  | [] => Ret st
  | i :: rest => st' <~ scan_step data st i ;; scan_loop data st' rest
  end.

(** The double that the loop reads at offset [i]. *)
Definition double_at (data : list byte) (i : Z) : float :=
  double_of_bits (be_uint (slice data i (i + 8))).

(** The doubles that the loop reads, in order. *)
Definition scanned_doubles (data : list byte) : list float :=
  map (double_at data) (py_range 200 (len data - 8) 8).

(** The runs of a sequence: its segments between the elements that fail
    [p] ([cur] is the run in progress). *)
Fixpoint runs_from {A : Type} (p : A -> bool) (cur : list A) (l : list A)
  : list (list A) :=
  match l with
  | [] => [cur]
  | x :: t => if p x then runs_from p (cur ++ [x]) t else cur :: runs_from p [] t
  end.

Definition runs {A : Type} (p : A -> bool) (l : list A) : list (list A) :=
  runs_from p [] l.

(** The blocks the heuristic keeps: the plausible runs of 30 values or more. *)
Definition kept_blocks (vals : list float) : list (list float) :=
  filter (fun b => 30 <=? len b) (runs is_valid_sensor_value vals).

(** Lines 164-181: the blocks kept by the scan. *)
Definition scan_blocks (data : list byte) : result (list (list float)) :=
  st <~ scan_loop data {| blocks := []; current_block := []; current_start := None |}
                  (py_range 200 (len data - 8) 8) ;;
  Ret (if 30 <=? len (current_block st)
       then blocks st ++ [current_block st]
       else blocks st).

(** Lines 183-187: the block with most values, [None] without a block. *)
Definition scan_values (data : list byte) : result (option (list float)) :=
  bl <~ scan_blocks data ;;
  match bl with
  | [] => Ret None
  | _ => vals <~ py_max len bl ;; Ret (Some vals)
  end.

(** Lines 190-194, from index [i] on. *)
Fixpoint synth_from (now : Q) (n i : Z) (vals : list float) : list (pynum * float) :=
  match vals with
  | [] => []
  | val :: rest =>
      (num_sub (PyFloat now) (PyInt ((n - i - 1) * 60)), val)
        :: synth_from now n (i + 1) rest
  end.

Definition parse_rrd4j_values_only (data : list byte) (now : Q)
  : option (list (pynum * float)) :=
  match catch (scan_values data) with
  | Some (Some vals) => Some (synth_from now (len vals) 0 vals)
  | Some None => None
  | None => None
  end.

(* ================================================================== *)
(** ** [process_data] *)

(** The two updates [if val < data_min] and [if val > data_max]. *)
Definition track (mm : float * float) (val : float) : float * float :=
  ((if (val <? fst mm)%float then val else fst mm),
   (if (snd mm <? val)%float then val else snd mm)).

Definition no_range : float * float := (infinity, neg_infinity).

(** Line 230: [ts >= cutoff]. *)
Definition in_window (cutoff : pynum) (s : Sample) : bool :=
  num_le cutoff (PyInt (fst s)).

(** Lines 229-235: one pass that filters and tracks. *)
Definition window_step (cutoff : pynum) (st : list Sample * (float * float)) (s : Sample)
  : list Sample * (float * float) :=
  if in_window cutoff s
  then (fst st ++ [s], track (snd st) (snd s))
  else st.

Definition window_pass (cutoff : pynum) (data : list Sample)
  : list Sample * (float * float) :=
  fold_left (window_step cutoff) data ([], no_range).

Definition period_seconds : list (string * Z) :=
  [("h", 3600); ("D", 24 * 3600); ("W", 7 * 24 * 3600);
   ("M", 30 * 24 * 3600); ("Y", 365 * 24 * 3600)]%string.

Definition fallback_points : list (string * Z) :=
  [("h", 60); ("D", 1440); ("W", 2016); ("M", 4320); ("Y", 8760)]%string.

(** Lines 224-251: the window filter and its fallback to the last [n]
    samples. *)
Definition select_window (data : list Sample) (period : string) (now : Q)
  : list Sample * (float * float) :=
  let duration := dict_get period_seconds period (24 * 3600) in
  let cutoff := num_sub (PyFloat now) (PyInt duration) in
  let st := window_pass cutoff data in
  match fst st, data with
  | [], _ :: _ =>
      let n := dict_get fallback_points period 1440 in
      let filtered := last_n n data in
      (filtered, fold_left track (map snd filtered) no_range)
  | _, _ => st
  end.

(** Python's [!=] on two [(ts, val)] tuples, the values compared as floats
    (the parsers emit no NaN, for which the comparison of tuples also looks
    at the identity of the objects). *)
Definition sample_neq (a b : Sample) : bool :=
  negb ((fst a =? fst b) && (snd a =? snd b)%float).

(** [int(i * step)] with [step = n / max_points]: the index that the loop
    of lines 260-268 reads for [i]. *)
Definition sample_index (n max_points i : Z) : Z :=
  Qtrunc (rnd64 (rnd64 (inject_Z i) * rnd64 (inject_Z n / inject_Z max_points))).

(** The body of the loop of lines 260-268 for one [i]. *)
Definition pick_step (filtered : list Sample) (step : pynum)
    (st : list Sample * (float * float)) (i : Z)
  : result (list Sample * (float * float)) :=
  let idx := py_int (num_mul (PyInt i) step) in
  if idx <? len filtered
  then s <~ item filtered idx ;; Ret (fst st ++ [s], track (snd st) (snd s))
  else Ret st.

Fixpoint pick_loop (filtered : list Sample) (step : pynum)
    (st : list Sample * (float * float)) (indices : list Z)
  : result (list Sample * (float * float)) :=
  match indices with
  | [] => Ret st
  | i :: rest => st' <~ pick_step filtered step st i ;; pick_loop filtered step st' rest
  end.

(** The samples that the loop of lines 260-268 picks for [indices]. *)
Definition picks (filtered : list Sample) (max_points : Z) (indices : list Z)
  : list Sample :=
  flat_map (fun i =>
              let idx := sample_index (len filtered) max_points i in
              if idx <? len filtered
              then match nth_error filtered (Z.to_nat idx) with
                   | Some s => [s]
                   | None => []
                   end
              else [])
           indices.

(** The sample that lines 271-277 append after [result], if any. *)
Definition forced_tail (result filtered : list Sample) : list Sample :=
  match rev result, rev filtered with
  | r_last :: _, f_last :: _ => if sample_neq r_last f_last then [f_last] else []
  | _, _ => []
  end.

(** Lines 254-279. *)
Definition downsample (filtered : list Sample) (max_points : Z)
  : result (list Sample * (float * float)) :=
  step <~ num_truediv (PyInt (len filtered)) (PyInt max_points) ;;
  st <~ pick_loop filtered step ([], no_range) (py_range 0 max_points 1) ;;
  match st with
  | ([], _) => Ret st
  | (result, mm) =>
      match filtered with
      | [] => Ret st
      | _ =>
          r_last <~ item result (-1) ;;
          f_last <~ item filtered (-1) ;;
          if sample_neq r_last f_last
          then Ret (result ++ [f_last], track mm (snd f_last))
          else Ret st
      end
  end.

(** Lines 281-303: the range of the Y axis from the tracked extremes (the
    default bounds, the ints 0 and 100, as floats). *)
Definition y_range (mm : float * float) : result (float * float) :=
  let data_min := fst mm in
  let data_max := snd mm in
  if (data_min =? infinity)%float then Ret (0, 100)%float
  else
    let data_range := (data_max - data_min)%float in
    let data_range :=
      if (data_range =? 0)%float
      then (if negb (data_max =? 0)%float then (abs data_max * 0.1)%float else 1%float)
      else data_range in
    let padding := (data_range * 0.15)%float in
    let y_min := (data_min - padding)%float in
    let y_max := (data_max + padding)%float in
    yy <~ (if (0 <? data_range)%float
           then
             k <~ floor_log10 data_range ;;
             let step := if 0 <=? k then nearest_pow10 (k - 1)
                         else (nearest_pow10 k / 10)%float in
             let step := if (step <? 0.01)%float then 0.01%float else step in
             lo <~ math_floor (y_min / step) ;;
             hi <~ math_ceil (y_max / step) ;;
             Ret ((Z2F lo * step)%float, (Z2F hi * step)%float)
           else Ret (y_min, y_max)) ;;
    if (fst yy =? snd yy)%float
    then Ret ((fst yy - 1)%float, (snd yy + 1)%float)
    else Ret yy.

(** Lines 224-279: the samples that will be returned, with their extremes. *)
Definition resampled (data : list Sample) (period : string) (max_points : Z) (now : Q)
  : result (list Sample * (float * float)) :=
  let st := select_window data period now in
  if max_points <? len (fst st)
  then downsample (fst st) max_points
  else Ret st.

Definition process_data (data : list Sample) (period : string) (max_points : Z) (now : Q)
  : result (list Sample * float * float) :=
  match data with
  | [] => Ret ([], 0%float, 100%float)
  | _ =>
      st <~ resampled data period max_points now ;;
      yy <~ y_range (snd st) ;;
      Ret (fst st, fst yy, snd yy)
  end.

(* ================================================================== *)
(** ** [generate_x_labels] *)

Record label : Type := mk_label {
  text : string;
  pos : pynum
}.

(** What the loop of lines 345-352 can come to: it ends with the labels, it
    raises, or it is still running when the fuel is spent. *)
Inductive run (A : Type) : Type :=
| Done (a : A)
| Raised (e : exn)
| Running.
Arguments Done {A} a.
Arguments Raised {A} e.
Arguments Running {A}.

Section Labels.
(** [datetime.fromtimestamp(ts).strftime(fmt)]: the text depends on the
    local time zone, and the call raises for a timestamp outside the range
    of the platform. *)
Variable strftime : string -> pynum -> result string.

(** Lines 319-341. *)
Definition label_interval (period : string) (duration : Z) : result (pynum * string) :=
  if String.eqb period "h" then
    Ret (PyInt (if duration <? 3600 then 600 else 900), "%H:%M"%string)
  else if String.eqb period "D" then Ret (PyInt (2 * 3600), "%H:%M"%string)
  else if String.eqb period "W" then Ret (PyInt (24 * 3600), "%a"%string)
  else if String.eqb period "M" then Ret (PyInt (5 * 24 * 3600), "%b %d"%string)
  else if String.eqb period "Y" then Ret (PyInt (30 * 24 * 3600), "%b"%string)
  else
    interval <~ num_truediv (PyInt duration) (PyInt 10) ;;
    Ret (interval, "%H:%M"%string).

(** Line 347. *)
Definition label_pos (start_ts duration : Z) (current : pynum) : result pynum :=
  if 0 <? duration
  then q <~ num_truediv (num_sub current (PyInt start_ts)) (PyInt duration) ;;
       Ret (num_mul q (PyInt 100))
  else Ret (PyInt 50).

(** Lines 345-352, at most [fuel] turns. *)
Fixpoint walk (fuel : nat) (fmt : string) (start_ts end_ts duration : Z)
    (interval current : pynum) (labels : list label) : run (list label) :=
  match fuel with
  | O => Running
  | S fuel' =>
      if num_le current (PyInt end_ts) then
        match strftime fmt current with
        | Raise e => Raised e
        | Ret txt =>
            match label_pos start_ts duration current with
            | Raise e => Raised e
            | Ret p =>
                walk fuel' fmt start_ts end_ts duration interval
                     (num_add current interval)
                     (labels ++ [{| text := txt; pos := p |}])
            end
        end
      else Done labels
  end.

(** Lines 355-360. *)
Definition end_label (fmt : string) (end_ts : Z) (labels : list label)
  : result (list label) :=
  match labels with
  | [] => Ret labels
  | _ =>
      l <~ item labels (-1) ;;
      if num_lt (pos l) (PyInt 95)
      then txt <~ strftime fmt (PyInt end_ts) ;;
           Ret (labels ++ [{| text := txt; pos := PyInt 100 |}])
      else Ret labels
  end.

Definition generate_x_labels (fuel : nat) (data : list Sample) (period : string)
  : run (list label) :=
  match data with
  | [] => Done []
  | _ =>
      match item data 0, item data (-1) with
      | Ret first, Ret final =>
          let start_ts := fst first in
          let end_ts := fst final in
          let duration := end_ts - start_ts in
          match label_interval period duration with
          | Raise e => Raised e
          | Ret (interval, fmt) =>
              match walk fuel fmt start_ts end_ts duration interval (PyInt start_ts) [] with
              | Done labels =>
                  match end_label fmt end_ts labels with
                  | Ret ls => Done ls
                  | Raise e => Raised e
                  end
              | Raised e => Raised e
              | Running => Running
              end
          end
      | Raise e, _ => Raised e
      | _, Raise e => Raised e
      end
  end.

(* ================================================================ *)
(** ** [main], from the parse to the labels *)

Inductive outcome : Type :=
| CouldNotParse      (* "Error: Could not parse rrd4j file", return 1 *)
| NoDataForPeriod    (* "Error: No data for period", return 1 *)
| Chart (data : list Sample) (y_min y_max : float) (x_labels : list label).

(** Lines 1041-1057 of [main]; [now] and [now'] are the clock as
    [parse_rrd4j_file] and [process_data] read it. *)
Definition main (fuel : nat) (rrd : list byte) (period : string) (now now' : Q)
  : run outcome :=
  match parse_rrd4j_file rrd period now with
  | None | Some [] => Done CouldNotParse
  | Some data =>
      match process_data data period 500 now' with
      | Raise e => Raised e
      | Ret ([], _, _) => Done NoDataForPeriod
      | Ret (data, y_min, y_max) =>
          match generate_x_labels fuel data period with
          | Done x_labels => Done (Chart data y_min y_max x_labels)
          | Raised e => Raised e
          | Running => Running
          end
      end
  end.
End Labels.

(* ================================================================== *)
(** ** [generate_chart_data] *)

(** [round(a, ndigits)] on a number of the index and time arithmetic, for
    [0 <= ndigits]: an int comes back as it is; a float is rounded on its
    exact value to the nearest multiple of [10^-ndigits], ties to even, and
    the result is the double nearest to that decimal. *)
Definition py_round (a : pynum) (ndigits : Z) : pynum :=
  match a with
  | PyInt z => PyInt z
  | PyFloat q =>
      PyFloat (rnd64 (inject_Z (round_half_even (q * 10 ^ ndigits)) / 10 ^ ndigits))
  end.

(** The double nearest to a rational that is neither zero, nor subnormal,
    nor beyond the range of the doubles. *)
Definition Q2F (q : Q) : float :=
  let r := Qred (rnd64 q) in
  SF2Prim (binary_normalize prec emax (Qnum r) (- Z.log2 (Zpos (Qden r))) false).

(** [round(x, ndigits)] on a double that is carried as data, for
    [0 <= ndigits]: zeros, infinities and NaN come back as they are; a
    finite value is rounded as in [py_round], and a result that is zero
    keeps the sign of [x]. *)
Definition round_float (x : float) (ndigits : Z) : float :=
  match Prim2SF x with
  | S754_finite s m e =>
      let M := round_half_even (finite_val s m e * 10 ^ ndigits) in
      if M =? 0 then (if s then (-0)%float else 0%float)
      else Q2F (inject_Z M / 10 ^ ndigits)
  | _ => x
  end.

(** The entries of the chart: [{'x': ..., 'y': ..., 'index': ...}]. *)
Module Point.
Record t : Type := mk { x : pynum; y : float; index : Z }.
End Point.

(** Line 377. *)
Definition chart_x (start_ts duration ts : Z) : result pynum :=
  if 0 <? duration
  then q <~ num_truediv (num_sub (PyInt ts) (PyInt start_ts)) (PyInt duration) ;;
       Ret (num_mul q (PyInt 100))
  else Ret (PyInt 50).

(** Lines 375-382, from index [i] on. *)
Fixpoint chart_points (start_ts duration i : Z) (data : list Sample)
  : result (list Point.t) :=
  match data with
  | [] => Ret []
  | (ts, val) :: rest =>
      x <~ chart_x start_ts duration ts ;;
      let p := {| Point.x := py_round x 2;
                  Point.y := round_float val 3;
                  Point.index := i |} in
      points <~ chart_points start_ts duration (i + 1) rest ;;
      Ret (p :: points)
  end.

Definition generate_chart_data (data : list Sample) : result (list Point.t) :=
  match data with
  | [] => Ret []
  | _ =>
      first <~ item data 0 ;;
      final <~ item data (-1) ;;
      let start_ts := fst first in
      let end_ts := fst final in
      let duration := end_ts - start_ts in
      chart_points start_ts duration 0 data
  end.

(* ================================================================== *)
(** ** [deduce_unit] and the title *)

(** A [str] is the list of its code points. *)
Definition str : Type := list Z.

(** The code points of an ASCII literal. *)
Definition codes (s : string) : str :=
  map (fun a => Z.of_N (N_of_ascii a)) (list_ascii_of_string s).

(** What [\s] matches in a [str] pattern, and what [str.rstrip()] strips:
    the characters for which [str.isspace] holds. *)
Definition is_space (c : Z) : bool :=
  ((9 <=? c) && (c <=? 13)) || ((28 <=? c) && (c <=? 32))
  || (c =? 0x85) || (c =? 0xA0) || (c =? 0x1680)
  || ((0x2000 <=? c) && (c <=? 0x200A))
  || (c =? 0x2028) || (c =? 0x2029) || (c =? 0x202F) || (c =? 0x205F)
  || (c =? 0x3000).

(** A literal [p] of a pattern against the character [c] under
    [re.IGNORECASE], for a literal that is an ASCII character or has no
    case (the patterns of [deduce_unit] have no other): a character without
    case matches itself; an ASCII letter matches its two cases and, for
    [i], [k] and [s], the non-ASCII letters that the [re] module treats as
    the same letter (U+0130 and U+0131; U+212A; U+017F). *)
Definition matches_ignorecase (p c : Z) : bool :=
  let q := if (65 <=? p) && (p <=? 90) then p + 32 else p in
  (c =? q)
  || ((97 <=? q) && (q <=? 122) && (c =? q - 32))
  || ((q =? 105) && ((c =? 0x130) || (c =? 0x131)))
  || ((q =? 107) && (c =? 0x212A))
  || ((q =? 115) && (c =? 0x17F)).

(** The literal [pat] at the head of [s]: what follows it. *)
Fixpoint match_literal (pat s : str) : option str :=
  match pat, s with
  | [], _ => Some s
  | _ :: _, [] => None
  | p :: pat', c :: s' =>
      if matches_ignorecase p c then match_literal pat' s' else None
  end.

(** [(\s|$)] at the head of [s]; [$] matches at the end and before a
    newline that ends the string. *)
Definition space_or_end (s : str) : bool :=
  match s with
  | [] => true
  | c :: rest => is_space c || ((c =? 10) && match rest with [] => true | _ => false end)
  end.

(** [re.search(r'\s' + pattern + r'(\s|$)', title, re.IGNORECASE)] for a
    pattern of literals: whether there is a match. *)
Fixpoint match_unit (pattern title : str) : bool :=
  match title with
  | [] => false
  | c :: rest =>
      (is_space c
       && match match_literal pattern rest with
          | Some after => space_or_end after
          | None => false
          end)
      || match_unit pattern rest
  end.

(** Lines 24-42: the first pattern that matches decides. *)
Definition deduce_unit (title : str) : str :=
  if match_unit (codes "kwh") title then codes "kWh"
  else if match_unit (codes "%") title then codes "%"
  else if match_unit [176; 99] title then [176; 67]
  else if match_unit (codes "mbar") title then codes "mbar"
  else if match_unit (codes "l/min") title then codes "l/min"
  else if match_unit (codes "m3") title then [109; 179]
  else if match_unit (codes "v") title then codes "V"
  else if match_unit (codes "w") title then codes "W"
  else if match_unit (codes "lm/m2") title then codes "lm/m" ++ [178]
  else codes "?".

(** [s.rstrip()]. *)
Definition rstrip (s : str) : str :=
  fold_right (fun c acc => match acc with
                           | [] => if is_space c then [] else [c]
                           | _ => c :: acc
                           end) [] s.

Fixpoint str_eqb (a b : str) : bool :=
  match a, b with
  | [], [] => true
  | x :: a', y :: b' => (x =? y) && str_eqb a' b'
  | _, _ => false
  end.

(** [s.endswith(suffix)]. *)
Definition endswith (s suffix : str) : bool :=
  (len suffix <=? len s) && str_eqb (drop (len s - len suffix) s) suffix.

(** [s[:stop]] for any int [stop]: a negative one counts from the end. *)
Definition slice_to (s : str) (stop : Z) : str :=
  take (if stop <? 0 then Z.max 0 (len s + stop) else stop) s.

(** Lines 1031-1036 of [main]: the unit and the title that go on the chart. *)
Definition title_and_unit (title unit : str) : str * str :=
  let unit := if str_eqb unit (codes "?") then deduce_unit title else unit in
  let title :=
    if negb (str_eqb unit (codes "?")) && endswith (rstrip title) unit
    then rstrip (slice_to (rstrip title) (- len unit))
    else title in
  (title, unit).

(** Two characters that are equal or differ only by the case of an ASCII
    letter; the properties of [deduce_unit] below compare titles with it. *)
Definition same_but_case (c c' : Z) : Prop :=
  c' = c \/ (97 <= c <= 122 /\ c' = c - 32) \/ (65 <= c <= 90 /\ c' = c + 32).

(* ================================================================== *)
(** ** Fabricated files, for the examples *)

Definition byte_of (z : Z) : byte :=
  match Byte.of_N (Z.to_N (z mod 256)) with
  | Some b => b
  | None => x00
  end.

(** The [width] bytes of [z], most significant first. *)
Fixpoint be_bytes (width : nat) (z : Z) : list byte :=
  match width with
  | O => []
  | S w => be_bytes w (z / 256) ++ [byte_of z]
  end.

Definition zeros (n : nat) : list byte := repeat x00 n.

(** Some binary64 bit patterns. *)
Definition bits_1_0 : Z := 0x3FF0000000000000.
Definition bits_2_0 : Z := 0x4000000000000000.
Definition bits_3_0 : Z := 0x4008000000000000.
Definition bits_4_0 : Z := 0x4010000000000000.
Definition bits_5_0 : Z := 0x4014000000000000.
Definition bits_nan : Z := 0x7FF8000000000000.

(** An archive of a file with one datasource: definition, state, robin. *)
Definition fab_archive (arc_steps ptr : Z) (bits : list Z) : list byte :=
  zeros 48 ++ be_bytes 4 arc_steps ++ be_bytes 4 (len bits)
    ++ zeros 16 ++ be_bytes 4 ptr ++ flat_map (be_bytes 8) bits.

(** A file with one datasource. *)
Definition fab_file (step last_update : Z) (archives : list (list byte)) : list byte :=
  zeros 40 ++ be_bytes 8 step ++ be_bytes 4 1 ++ be_bytes 4 (len archives)
    ++ be_bytes 8 last_update ++ zeros 128 ++ List.concat archives.

(** Three rows written at slots 1, 2, 0: the next write goes to slot 1. *)
Definition file_rotated : list byte :=
  fab_file 60 1700000000 [fab_archive 1 1 [bits_3_0; bits_1_0; bits_2_0]].

(** Five finite rows, stored last update 1000300. *)
Definition file_five_rows : list byte :=
  fab_file 60 1000300
    [fab_archive 1 0 [bits_1_0; bits_2_0; bits_3_0; bits_4_0; bits_5_0]].

(** Two rows, the newest one NaN. *)
Definition file_trailing_nan : list byte :=
  fab_file 60 1600000000 [fab_archive 1 0 [bits_1_0; bits_nan]].

(** A header that announces no archive, followed from offset 200 on by
    thirty doubles 1.0. *)
Definition file_no_archive : list byte :=
  zeros 200 ++ flat_map (be_bytes 8) (repeat bits_1_0 30) ++ zeros 16.

(** [count] samples one second apart, all 1.0. *)
Definition ramp (count : nat) : list Sample :=
  map (fun k => (Z.of_nat k, 1%float)) (seq 0 count).

(** The samples of a result of [process_data]. *)
Definition samples_of (r : result (list Sample * float * float)) : list Sample :=
  match r with
  | Ret (out, _, _) => out
  | Raise _ => []
  end.

(** [int(i * (n / max_points))] on primitive floats. *)
Definition sample_index_prim (n max_points i : Z) : result Z :=
  math_floor (Z2F i * (Z2F n / Z2F max_points))%float.



(** From offset 200 on: forty times 1.0, a NaN, forty times 2.0, a NaN. *)
Definition buffer_two_runs : list byte :=
  zeros 200
    ++ flat_map (be_bytes 8)
         (repeat bits_1_0 40 ++ [bits_nan] ++ repeat bits_2_0 40 ++ [bits_nan])
    ++ zeros 8.

(* ================================================================== *)
(** * Properties *)

(** ** Slices *)

Section SliceFacts.
Context {A : Type}.
Implicit Types l : list A.

Lemma len_nonneg l : 0 <= len l.
Proof. unfold len. lia. Qed.

Lemma len_app l1 l2 : len (l1 ++ l2) = len l1 + len l2.
Proof. unfold len. rewrite length_app. lia. Qed.

Lemma drop_skipn : forall l n, 0 <= n -> drop n l = skipn (Z.to_nat n) l.
Proof.
  induction l as [|x t IH]; intros n Hn; simpl.
  - now rewrite skipn_nil.
  - destruct (Z.leb_spec n 0).
    + replace n with 0 by lia. reflexivity.
    + rewrite IH by lia. replace (Z.to_nat n) with (S (Z.to_nat (n - 1))) by lia.
      reflexivity.
Qed.

Lemma take_firstn : forall l n, 0 <= n -> take n l = firstn (Z.to_nat n) l.
Proof.
  induction l as [|x t IH]; intros n Hn; simpl.
  - now rewrite firstn_nil.
  - destruct (Z.leb_spec n 0).
    + replace n with 0 by lia. reflexivity.
    + rewrite IH by lia. replace (Z.to_nat n) with (S (Z.to_nat (n - 1))) by lia.
      reflexivity.
Qed.

Lemma drop_nonpos l n : n <= 0 -> drop n l = l.
Proof. destruct l; simpl; auto. intros H. destruct (Z.leb_spec n 0); auto; lia. Qed.

Lemma take_nonpos l n : n <= 0 -> take n l = [].
Proof. destruct l; simpl; auto. intros H. destruct (Z.leb_spec n 0); auto; lia. Qed.

Lemma len_take l n : len (take n l) = Z.max 0 (Z.min n (len l)).
Proof.
  unfold len. destruct (Z.le_gt_cases 0 n).
  - rewrite take_firstn, length_firstn by lia. lia.
  - rewrite take_nonpos by lia. simpl. lia.
Qed.

Lemma len_drop l n : len (drop n l) = len l - Z.max 0 (Z.min n (len l)).
Proof.
  unfold len. destruct (Z.le_gt_cases 0 n).
  - rewrite drop_skipn, length_skipn by lia. lia.
  - rewrite drop_nonpos by lia. lia.
Qed.

End SliceFacts.

(** ** Rounding to the nearest double *)

Section Rounding.
Local Open Scope Q_scope.

Lemma inject_Z_pos (z : Z) : (0 < z)%Z -> 0 < inject_Z z.
Proof. intros H. unfold Qlt. simpl. lia. Qed.

Lemma pow2_pos (k : Z) : 0 < 2 ^ k.
Proof. apply Qpower_0_lt. reflexivity. Qed.

Lemma round_half_even_error (y : Q) :
  Qabs (inject_Z (round_half_even y) - y) <= 1 # 2.
Proof.
  unfold round_half_even.
  pose proof (Qfloor_le y) as Hlo.
  pose proof (Qlt_floor y) as Hhi.
  rewrite inject_Z_plus in Hhi. change (inject_Z 1) with 1 in Hhi.
  apply Qabs_Qle_condition.
  destruct (Qcompare (y - inject_Z (Qfloor y)) (1 # 2)) eqn:E.
  - apply Qeq_alt in E.
    destruct (Z.even (Qfloor y));
      [|rewrite inject_Z_plus; change (inject_Z 1) with 1]; split; lra.
  - apply Qlt_alt in E. split; lra.
  - apply Qgt_alt in E. rewrite inject_Z_plus. change (inject_Z 1) with 1.
    split; lra.
Qed.

Lemma ilog2_lower (x : Q) : 0 < x -> 2 ^ 51 < x * 2 ^ (52 - ilog2 x).
Proof.
  intros Hx. destruct x as [n d]. unfold ilog2. simpl Qnum. simpl Qden.
  assert (Hn : (0 < n)%Z) by (unfold Qlt in Hx; simpl in Hx; lia).
  set (a := Z.log2 n). set (b := Z.log2 (Z.pos d)).
  assert (Ha : (2 ^ a <= n)%Z) by (apply Z.log2_spec; lia).
  assert (Hb : (Z.pos d < 2 ^ (Z.succ b))%Z) by (apply Z.log2_spec; lia).
  assert (Ha0 : (0 <= a)%Z) by apply Z.log2_nonneg.
  assert (Hb0 : (0 <= b)%Z) by apply Z.log2_nonneg.
  replace (52 - (a - b))%Z with (51 + (Z.succ b - a))%Z by lia.
  rewrite Qpower_plus by (intro H; discriminate H).
  rewrite Qpower_minus by (intro H; discriminate H).
  rewrite <- (Zpower_Qpower 2 (Z.succ b)) by lia.
  rewrite <- (Zpower_Qpower 2 a) by lia.
  assert (HA : 0 < inject_Z (2 ^ a)) by (apply inject_Z_pos; lia).
  assert (HnQ : inject_Z (2 ^ a) <= inject_Z n) by (rewrite <- Zle_Qle; exact Ha).
  assert (HdQ : inject_Z (Z.pos d) < inject_Z (2 ^ Z.succ b))
    by (rewrite <- Zlt_Qlt; exact Hb).
  assert (Hd0 : 0 < inject_Z (Z.pos d)) by (apply inject_Z_pos; lia).
  assert (Hnd : n # d == inject_Z n / inject_Z (Z.pos d))
    by (rewrite Qmake_Qdiv; reflexivity).
  rewrite Hnd.
  set (N := inject_Z n) in *. set (D := inject_Z (Z.pos d)) in *.
  set (A := inject_Z (2 ^ a)) in *. set (B := inject_Z (2 ^ Z.succ b)) in *.
  set (P := 2 ^ 51).
  assert (HP : 0 < P) by apply pow2_pos.
  assert (E : N / D * (P * (B / A)) == P * ((N * B) / (D * A)))
    by (field; split; lra).
  rewrite E.
  assert (1 < (N * B) / (D * A)).
  { apply Qlt_shift_div_l; [nra|]. nra. }
  nra.
Qed.

Lemma scale_exp_lower (x : Q) : 0 < x -> 2 ^ 52 <= x * 2 ^ scale_exp x.
Proof.
  intros Hx. unfold scale_exp.
  destruct (Qlt_le_dec (x * 2 ^ (52 - ilog2 x)) (2 ^ 52)) as [Hlt|Hge]; [|exact Hge].
  pose proof (ilog2_lower x Hx) as H.
  rewrite Qpower_plus by (intro H0; discriminate H0).
  change (2 ^ 1) with 2.
  assert (E : 2 ^ 52 == 2 * 2 ^ 51) by reflexivity.
  rewrite E. set (P := 2 ^ 51) in *. set (K := 2 ^ (52 - ilog2 x)) in *. lra.
Qed.

(** The relative error of one rounding is at most [2^-53]. *)
Lemma rnd_pos_error (x : Q) :
  0 < x -> Qabs (rnd_pos x - x) <= x * (1 # 9007199254740992).
Proof.
  intros Hx. unfold rnd_pos. rewrite Qred_correct.
  pose proof (scale_exp_lower x Hx) as Hs.
  pose proof (pow2_pos (scale_exp x)) as HK.
  pose proof (round_half_even_error (x * 2 ^ scale_exp x)) as He.
  apply Qabs_Qle_condition in He.
  set (K := 2 ^ scale_exp x) in *.
  set (M := inject_Z (round_half_even (x * K))) in *.
  assert (E52 : 2 ^ 52 == 4503599627370496) by reflexivity.
  rewrite E52 in Hs.
  assert (E : M / K - x == (M - x * K) / K) by (field; lra).
  rewrite E. apply Qabs_Qle_condition. split.
  - apply Qle_shift_div_l; [exact HK|]. nra.
  - apply Qle_shift_div_r; [exact HK|]. nra.
Qed.

Lemma rnd64_zero (x : Q) : x == 0 -> rnd64 x = 0.
Proof. intros H. unfold rnd64. apply Qeq_alt in H. now rewrite H. Qed.

Lemma rnd64_pos (x : Q) : 0 < x -> rnd64 x = rnd_pos x.
Proof. intros H. unfold rnd64. apply Qgt_alt in H. now rewrite H. Qed.

Lemma rnd64_error (x : Q) :
  0 <= x -> Qabs (rnd64 x - x) <= x * (1 # 9007199254740992).
Proof.
  intros H. destruct (Qlt_le_dec 0 x) as [Hp|Hz].
  - rewrite rnd64_pos by exact Hp. now apply rnd_pos_error.
  - assert (E : x == 0) by lra. rewrite (rnd64_zero x E).
    apply Qabs_Qle_condition. split; lra.
Qed.

Lemma Qfloor_eq (z : Z) (x : Q) :
  inject_Z z <= x -> x < inject_Z (z + 1) -> Qfloor x = z.
Proof.
  intros H1 H2.
  pose proof (Qfloor_le x) as Hlo. pose proof (Qlt_floor x) as Hhi.
  assert (A : (z < Qfloor x + 1)%Z) by (rewrite Zlt_Qlt; lra).
  assert (B : (Qfloor x < z + 1)%Z) by (rewrite Zlt_Qlt; lra).
  lia.
Qed.

Lemma round_half_even_Z (y : Q) (z : Z) : y == inject_Z z -> round_half_even y = z.
Proof.
  intros E. unfold round_half_even.
  assert (F : Qfloor y = z) by (rewrite E; apply Qfloor_Z).
  rewrite F.
  destruct (Qcompare (y - inject_Z z) (1 # 2)) eqn:C.
  - apply Qeq_alt in C. lra.
  - reflexivity.
  - apply Qgt_alt in C. lra.
Qed.

Lemma pow2_neg_le_half (k : Z) : (k < 0)%Z -> 2 ^ k <= 1 # 2.
Proof.
  intros Hk. replace k with (- (- k))%Z by lia. rewrite Qpower_opp.
  assert (H : 2 ^ 1 <= 2 ^ (- k)) by (apply Qpower_le_compat_l; [lia|lra]).
  change (2 ^ 1) with 2 in H.
  apply Qle_shift_inv_r; lra.
Qed.

(** An int below [2^53] is a double. *)
Lemma rnd64_int (z : Z) :
  (0 <= z < 2 ^ 53)%Z -> rnd64 (inject_Z z) == inject_Z z.
Proof.
  intros [H0 H1]. destruct (Z.eq_dec z 0) as [->|Hz]; [reflexivity|].
  assert (Hp : 0 < inject_Z z) by (apply inject_Z_pos; lia).
  rewrite rnd64_pos by exact Hp. unfold rnd_pos. rewrite Qred_correct.
  pose proof (scale_exp_lower _ Hp) as Hs.
  set (k := scale_exp (inject_Z z)) in *.
  assert (Hk : (0 <= k)%Z).
  { destruct (Z.lt_ge_cases k 0) as [Hneg|]; [exfalso|assumption].
    pose proof (pow2_neg_le_half k Hneg) as Hh.
    pose proof (pow2_pos k) as HK.
    assert (E52 : 2 ^ 52 == 4503599627370496) by reflexivity.
    rewrite E52 in Hs.
    assert (Hz53 : inject_Z z < 9007199254740992).
    { change 9007199254740992 with (inject_Z (2 ^ 53)). rewrite <- Zlt_Qlt. exact H1. }
    set (K := 2 ^ k) in *. nra. }
  assert (Ey : inject_Z z * 2 ^ k == inject_Z (z * 2 ^ k)).
  { rewrite inject_Z_mult. rewrite (Zpower_Qpower 2 k) by exact Hk. reflexivity. }
  rewrite (round_half_even_Z _ _ Ey).
  rewrite inject_Z_mult, (Zpower_Qpower 2 k) by exact Hk.
  pose proof (pow2_pos k). change (inject_Z 2) with 2. field. lra.
Qed.
End Rounding.

Section IndexBound.
Local Open Scope Q_scope.

Variables n B i : Z.
Hypothesis HB : (0 < B < n)%Z.
Hypothesis Hi : (0 <= i < B)%Z.
Hypothesis Hsize : (3 * n * B < 2 ^ 53)%Z.

Let N := inject_Z n.
Let Bq := inject_Z B.
Let Iq := inject_Z i.
Let U := 1 # 9007199254740992.
Let p := rnd64 (rnd64 Iq * rnd64 (N / Bq)).

Lemma index_product_close : 0 <= p /\ Iq * N - 1 < Bq * p /\ Bq * p < Iq * N + 1.
Proof.
  unfold p. clear p.
  assert (HBq : 0 < Bq) by (apply inject_Z_pos; lia).
  assert (HNB : Bq < N) by (unfold Bq, N; rewrite <- Zlt_Qlt; lia).
  assert (HI0 : 0 <= Iq) by (unfold Iq; change 0 with (inject_Z 0); rewrite <- Zle_Qle; lia).
  assert (HIB : Iq + 1 <= Bq).
  { unfold Iq, Bq. change 1 with (inject_Z 1). rewrite <- inject_Z_plus, <- Zle_Qle. lia. }
  assert (HU : 3 * N * Bq * U < 1).
  { unfold U. change (3 : Q) with (inject_Z 3). unfold N, Bq.
    rewrite <- !inject_Z_mult.
    assert (H : inject_Z (3 * n * B) < 9007199254740992).
    { change 9007199254740992 with (inject_Z (2 ^ 53)). rewrite <- Zlt_Qlt. exact Hsize. }
    set (W := inject_Z (3 * n * B)) in *. lra. }
  assert (HU0 : 0 < U) by reflexivity.
  assert (HU1 : U <= 1) by (unfold U, Qle; simpl; lia).
  (* the step *)
  set (R := N / Bq).
  assert (HR : Bq * R == N) by (unfold R; field; lra).
  assert (HR0 : 0 <= R) by (apply Qle_shift_div_l; lra).
  pose proof (rnd64_error R HR0) as Hs. fold U in Hs.
  apply Qabs_Qle_condition in Hs. destruct Hs as [Hs1 Hs2].
  set (s := rnd64 R) in *.
  assert (Hs0 : 0 <= s) by nra.
  (* the index as a float *)
  assert (EI : rnd64 Iq == Iq).
  { apply rnd64_int. split; [lia|]. nia. }
  assert (HX0 : 0 <= rnd64 Iq * s) by (rewrite EI; nra).
  pose proof (rnd64_error _ HX0) as Hp. fold U in Hp.
  set (p := rnd64 (rnd64 Iq * s)) in *.
  apply Qabs_Qle_condition in Hp. rewrite EI in Hp. destruct Hp as [Hp1 Hp2].
  set (X := Iq * s) in *.
  assert (HX : 0 <= X) by (unfold X; nra).
  assert (HBs1 : N * (1 - U) <= Bq * s) by nra.
  assert (HBs2 : Bq * s <= N * (1 + U)) by nra.
  assert (HBX1 : Iq * N * (1 - U) <= Bq * X) by (unfold X; nra).
  assert (HBX2 : Bq * X <= Iq * N * (1 + U)) by (unfold X; nra).
  set (T := Iq * N) in *.
  assert (HT0 : 0 <= T) by (unfold T; nra).
  assert (HT : T + N <= Bq * N) by (unfold T; nra).
  assert (HBp1 : Bq * X * (1 - U) <= Bq * p) by nra.
  assert (HBp2 : Bq * p <= Bq * X * (1 + U)) by nra.
  assert (HTU : 3 * T * U < 1) by nra.
  assert (H1U : 0 <= 1 - U) by lra.
  assert (Hlo : T * (1 - U) * (1 - U) <= Bq * p) by nra.
  assert (Hhi : Bq * p <= T * (1 + U) * (1 + U)) by nra.
  assert (HTUU : T * U * U <= T * U) by nra.
  assert (HTU0 : 0 <= T * U) by nra.
  split; [|split].
  - assert (0 <= Bq * p) by nra. nra.
  - nra.
  - nra.
Qed.
End IndexBound.

Section IndexFloor.
Local Open Scope Q_scope.

Lemma Qtrunc_nonneg (x : Q) : 0 <= x -> Qtrunc x = Qfloor x.
Proof. intros H. unfold Qtrunc. apply Qle_bool_iff in H. now rewrite H. Qed.

(** The index that the downsampling loop computes is the exact quotient
    [floor(i * n / B)], or one less when that quotient is an integer and
    the rounded product falls just below it. *)
Lemma sample_index_floor (n B i : Z) :
  (0 < B < n)%Z -> (0 <= i < B)%Z -> (3 * n * B < 2 ^ 53)%Z ->
  sample_index n B i = (i * n / B)%Z \/
  (sample_index n B i = (i * n / B - 1)%Z /\ ((i * n) mod B = 0)%Z /\ (0 < i)%Z).
Proof.
  intros HB Hi Hsize.
  destruct (index_product_close n B i HB Hi Hsize) as (Hp0 & Hlo & Hhi).
  unfold sample_index. rewrite Qtrunc_nonneg by exact Hp0.
  set (p := rnd64 (rnd64 (inject_Z i) * rnd64 (inject_Z n / inject_Z B))) in *.
  set (F := (i * n / B)%Z). set (r := ((i * n) mod B)%Z).
  assert (Ha : (i * n = B * F + r)%Z) by (apply Z.div_mod; lia).
  assert (Hr : (0 <= r < B)%Z) by (apply Z.mod_pos_bound; lia).
  assert (HT : inject_Z i * inject_Z n == inject_Z B * inject_Z F + inject_Z r).
  { rewrite <- !inject_Z_mult, <- inject_Z_plus. now rewrite Ha. }
  rewrite HT in Hlo, Hhi.
  assert (HBq : 0 < inject_Z B) by (apply inject_Z_pos; lia).
  assert (Hr0 : 0 <= inject_Z r)
    by (change 0 with (inject_Z 0); rewrite <- Zle_Qle; lia).
  assert (HrB : inject_Z r + 1 <= inject_Z B).
  { change 1 with (inject_Z 1). rewrite <- inject_Z_plus, <- Zle_Qle. lia. }
  set (Bq := inject_Z B) in *. set (Fq := inject_Z F) in *. set (rq := inject_Z r) in *.
  assert (HF1 : inject_Z (F + 1) == Fq + 1) by (rewrite inject_Z_plus; reflexivity).
  destruct (Z.eq_dec r 0) as [Hz|Hnz].
  - assert (Erq : rq == 0) by (unfold rq; rewrite Hz; reflexivity).
    destruct (Qlt_le_dec p Fq) as [Hlt|Hge].
    + right. split; [|split]; [|exact Hz|].
      * apply Qfloor_eq.
        -- unfold Z.sub. rewrite inject_Z_plus, inject_Z_opp.
           change (inject_Z 1) with 1. fold Fq.
           assert (HB1 : 1 <= Bq) by lra. nra.
        -- replace (F - 1 + 1)%Z with F by lia. exact Hlt.
      * destruct (Z.eq_dec i 0) as [Ei|]; [|lia].
        exfalso. assert (F = 0%Z) by (unfold F; rewrite Ei; reflexivity).
        unfold Fq in Hlt. rewrite H in Hlt. change (inject_Z 0) with 0 in Hlt.
        exact (Qlt_not_le _ _ Hlt Hp0).
    + left. apply Qfloor_eq; [exact Hge|]. rewrite HF1. nra.
  - left.
    assert (Hr1 : 1 <= rq).
    { change 1 with (inject_Z 1). unfold rq. rewrite <- Zle_Qle. lia. }
    apply Qfloor_eq; [|rewrite HF1]; fold Fq; nra.
Qed.
End IndexFloor.

Section IndexSign.
Local Open Scope Q_scope.

Lemma rnd64_nonneg (x : Q) : 0 <= x -> 0 <= rnd64 x.
Proof.
  intros H. pose proof (rnd64_error x H) as He.
  apply Qabs_Qle_condition in He.
  assert (x * (1 # 9007199254740992) <= x) by nra. lra.
Qed.

Lemma Qtrunc_of_nonneg (x : Q) : 0 <= x -> (0 <= Qtrunc x)%Z.
Proof.
  intros H. rewrite Qtrunc_nonneg by exact H.
  change 0%Z with (Qfloor 0). now apply Qfloor_resp_le.
Qed.

Lemma sample_index_nonneg (n B i : Z) :
  (0 <= n)%Z -> (0 < B)%Z -> (0 <= i)%Z -> (0 <= sample_index n B i)%Z.
Proof.
  intros Hn HB Hi. unfold sample_index. apply Qtrunc_of_nonneg, rnd64_nonneg.
  apply Qmult_le_0_compat; apply rnd64_nonneg.
  - change 0 with (inject_Z 0). rewrite <- Zle_Qle. exact Hi.
  - apply Qle_shift_div_l; [apply inject_Z_pos; exact HB|].
    rewrite Qmult_0_l. change 0 with (inject_Z 0). rewrite <- Zle_Qle. exact Hn.
Qed.

Lemma sample_index_0 (n B : Z) : sample_index n B 0 = 0%Z.
Proof.
  unfold sample_index. change (rnd64 (inject_Z 0)) with 0.
  rewrite rnd64_zero by apply Qmult_0_l. reflexivity.
Qed.
End IndexSign.

(** ** The format parser *)

Lemma enumerate_from_cons {A : Type} (i : Z) (x : A) (l : list A) :
  enumerate_from i (x :: l) = (i, x) :: enumerate_from (i + 1) l.
Proof.
  unfold enumerate_from. simpl. rewrite Z.add_0_r. f_equal.
  rewrite <- seq_shift, map_map. f_equal. apply map_ext. intros k. lia.
Qed.

Lemma pairs_from_enumerate last_update arc_step n :
  forall vals i,
    pairs_from last_update arc_step n i vals =
    map (fun iv => (last_update - (n - fst iv - 1) * arc_step, snd iv))
        (filter (fun iv => finite (snd iv)) (enumerate_from i vals)).
Proof.
  induction vals as [|v t IH]; intros i; [reflexivity|].
  rewrite enumerate_from_cons. simpl. rewrite IH.
  destruct (finite v); reflexivity.
Qed.

Lemma pairs_from_none last_update arc_step n :
  forall vals i, (forall v, In v vals -> finite v = false) ->
    pairs_from last_update arc_step n i vals = [].
Proof.
  induction vals as [|v t IH]; intros i H; [reflexivity|].
  simpl. rewrite (H v) by (left; reflexivity). apply IH. intros; apply H; now right.
Qed.

Lemma pairs_from_app last_update arc_step n :
  forall l1 l2 i,
    pairs_from last_update arc_step n i (l1 ++ l2) =
    pairs_from last_update arc_step n i l1 ++ pairs_from last_update arc_step n (i + len l1) l2.
Proof.
  induction l1 as [|v t IH]; intros l2 i; simpl.
  - unfold len. simpl. now rewrite Z.add_0_r.
  - rewrite IH. replace (i + 1 + len t) with (i + len (v :: t)) by (unfold len; simpl List.length; lia).
    destruct (finite v); reflexivity.
Qed.

Lemma length_doubles_of : forall n bs, List.length (doubles_of n bs) = n.
Proof. induction n; intros; simpl; auto. Qed.

Lemma unpack_doubles_len n bs v : unpack_doubles n bs = Some v -> len v = n.
Proof.
  unfold unpack_doubles. destruct (Z.eqb_spec (len bs) (8 * n)) as [E|]; [|discriminate].
  intros H. injection H as <-. unfold len in *. rewrite length_doubles_of. lia.
Qed.

(** What one turn of the archive loop has read. *)
Lemma read_archive_inv data ds_count offset arc offset' :
  read_archive data ds_count offset = Ret (arc, offset') ->
  exists v,
    unpack_II (slice data (offset + 48) (offset + 56)) = Some (steps arc, rows arc) /\
    unpack_I (slice data (offset + 56 + ds_count * 16) (offset + 56 + ds_count * 16 + 4))
      = Some (pointer arc) /\
    unpack_doubles (rows arc)
      (slice data (offset + 56 + ds_count * 16 + 4)
                  (offset + 56 + ds_count * 16 + 4 + rows arc * 8)) = Some v /\
    values arc = reorder (pointer arc) v.
Proof.
  unfold read_archive.
  destruct (unpack_II _) as [[s r]|]; [|discriminate]. cbn [unpacked rbind].
  destruct (unpack_I _) as [p|]; [|discriminate]. cbn [unpacked rbind].
  destruct (unpack_doubles _ _) as [v|] eqn:Ev; [|discriminate]. cbn [unpacked rbind].
  intros H. injection H as <- <-. exists v. cbn. auto.
Qed.

Lemma read_archives_Forall (P : archive -> Prop) data ds_count :
  (forall offset arc offset', read_archive data ds_count offset = Ret (arc, offset') -> P arc) ->
  forall n offset l, read_archives n data ds_count offset = Ret l -> Forall P l.
Proof.
  intros HP. induction n as [|n IH]; intros offset l; simpl.
  - intros H. injection H as <-. constructor.
  - destruct (read_archive data ds_count offset) as [[arc o]|] eqn:E; [|discriminate].
    cbn [rbind snd fst].
    destruct (read_archives n data ds_count o) as [rest|] eqn:E'; [|discriminate].
    cbn [rbind]. intros H. injection H as <-. constructor; eauto.
Qed.

Lemma reorder_spec p (v : list float) :
  (0 < p < len v ->
   reorder p v = skipn (Z.to_nat p) v ++ firstn (Z.to_nat p) v) /\
  (~ 0 < p < len v -> reorder p v = v).
Proof.
  unfold reorder. split.
  - intros [H1 H2]. apply Z.ltb_lt in H1 as E1. apply Z.ltb_lt in H2 as E2.
    rewrite E1, E2. simpl. now rewrite drop_skipn, take_firstn by lia.
  - intros H. destruct (Z.ltb_spec 0 p); destruct (Z.ltb_spec p (len v)); simpl;
      try reflexivity. lia.
Qed.

(** ** The archive selector *)

Lemma max_from_first {A : Type} (key : A -> Z) :
  forall l b,
  exists pre post,
    b :: l = pre ++ max_from key b l :: post /\
    (forall x, In x pre -> key x < key (max_from key b l)) /\
    (forall x, In x post -> key x <= key (max_from key b l)).
Proof.
  induction l as [|x t IH]; intros b.
  - exists [], []. simpl. repeat split; intros ? [].
  - simpl. destruct (Z.ltb_spec (key b) (key x)) as [Hlt|Hge].
    + destruct (IH x) as (pre & post & E & Hpre & Hpost).
      exists (b :: pre), post. split; [simpl; now rewrite E|]. split; [|exact Hpost].
      intros y [<-|Hy]; [|now apply Hpre].
      assert (Hx : In x (pre ++ max_from key x t :: post))
        by (rewrite <- E; now left).
      apply in_app_or in Hx. destruct Hx as [Hx|[Hx|Hx]].
      * specialize (Hpre _ Hx). lia.
      * rewrite Hx. exact Hlt.
      * specialize (Hpost _ Hx). lia.
    + destruct (IH b) as (pre & post & E & Hpre & Hpost).
      destruct pre as [|b' pre'].
      * simpl in E. injection E as Eb Et.
        exists [], (x :: post). simpl. split; [now rewrite <- Eb, <- Et|].
        split; [intros ? []|]. intros y [<-|Hy]; [now rewrite <- Eb|now apply Hpost].
      * simpl in E. injection E as <- Et.
        exists (b :: x :: pre'), post. split; [simpl; do 2 f_equal; exact Et|].
        split; [|exact Hpost].
        pose proof (Hpre b (or_introl eq_refl)) as Hb.
        intros y [<-|[<-|Hy]]; [exact Hb|lia|apply Hpre; now right].
Qed.

Lemma period_duration_cases (period : string) :
  In (dict_get period_duration period (24 * 3600))
     [3600; 86400; 604800; 2592000; 31536000].
Proof.
  unfold period_duration, dict_get.
  repeat (match goal with |- context [String.eqb ?a ?b] => destruct (String.eqb a b) end;
          [vm_compute; auto 10|]).
  vm_compute; auto 10.
Qed.

(** The float product [required_duration * 0.8] is the exact four fifths
    for each of the five durations, so the test of line 127 compares the
    coverage with 80% of the duration. *)
Lemma covering_test (period : string) (c : Z) :
  let d := dict_get period_duration period (24 * 3600) in
  num_le (num_mul (PyInt d) lit_0_8) (PyInt c) = true <->
  ((8 # 10) * inject_Z d <= inject_Z c)%Q.
Proof.
  intros d. pose proof (period_duration_cases period) as H. fold d in H.
  unfold num_le, num_val.
  assert (E : (num_mul (PyInt d) lit_0_8 = PyFloat ((8 # 10) * inject_Z d)%Q
               \/ exists q, num_mul (PyInt d) lit_0_8 = PyFloat q /\ (q == (8 # 10) * inject_Z d)%Q)).
  { right. simpl in H.
    destruct H as [<-|[<-|[<-|[<-|[<-|[]]]]]]; eexists; (split; [vm_compute; reflexivity|reflexivity]). }
  destruct E as [E|(q & E & Eq)]; rewrite E; rewrite Qle_bool_iff; [reflexivity|].
  now rewrite Eq.
Qed.

Section Selector.
Variable step : Z.
Variable period : string.

Let d := dict_get period_duration period (24 * 3600).

Lemma covering_test_archive (a : archive) :
  num_le (num_mul (PyInt d) lit_0_8) (PyInt (rows a * (step * steps a))) = true
  <-> covers step period a.
Proof.
  unfold covers, coverage. cbv zeta. rewrite <- Z.mul_assoc.
  apply covering_test.
Qed.

Lemma first_covering_some (l : list archive) (a : archive) :
  first_covering step d l = Some a ->
  exists pre post, l = pre ++ a :: post /\ covers step period a /\
                   forall x, In x pre -> ~ covers step period x.
Proof.
  induction l as [|x t IH]; cbn [first_covering]; [discriminate|].
  destruct (num_le _ _) eqn:E.
  - intros H. injection H as <-. exists [], t. split; [reflexivity|].
    split; [now apply covering_test_archive|intros ? []].
  - intros H. destruct (IH H) as (pre & post & -> & Ha & Hpre).
    exists (x :: pre), post. split; [reflexivity|]. split; [exact Ha|].
    intros y [<-|Hy]; [|now apply Hpre].
    intros Hc. apply covering_test_archive in Hc. congruence.
Qed.

Lemma first_covering_none (l : list archive) :
  first_covering step d l = None -> forall x, In x l -> ~ covers step period x.
Proof.
  induction l as [|x t IH]; cbn [first_covering]; [intros _ ? []|].
  destruct (num_le _ _) eqn:E; [discriminate|].
  intros H y [<-|Hy]; [|now apply IH].
  intros Hc. apply covering_test_archive in Hc. congruence.
Qed.

Lemma select_archive_spec (archive_data : list archive) :
  archive_data <> [] ->
  exists pre a post,
    archive_data = pre ++ a :: post /\
    select_archive step period archive_data = Ret a /\
    ((covers step period a /\ forall x, In x pre -> ~ covers step period x)
     \/ ((forall x, In x archive_data -> ~ covers step period x) /\
         (forall x, In x pre -> coverage step x < coverage step a) /\
         (forall x, In x post -> coverage step x <= coverage step a))).
Proof.
  intros Hne. unfold select_archive. fold d.
  destruct (first_covering step d archive_data) as [a|] eqn:E.
  - destruct (first_covering_some _ _ E) as (pre & post & -> & Ha & Hpre).
    exists pre, a, post. auto.
  - destruct archive_data as [|b l]; [congruence|].
    destruct (max_from_first (fun a => rows a * step * steps a) l b)
      as (pre & post & Eq & Hpre & Hpost).
    exists pre, (max_from (fun a => rows a * step * steps a) b l), post.
    split; [exact Eq|]. split; [reflexivity|]. right.
    split; [now apply first_covering_none|]. split; assumption.
Qed.
End Selector.

(** ** Claims on the format parser *)

(** C2. Every archive that the format parser reads holds the [rowCount]
    doubles [v] of its robin, read at some offset [o]: rotated to
    [v[p:] ++ v[:p]] (oldest first) when the write pointer [p] satisfies
    [0 < p < rowCount], and exactly as read otherwise. *)
Theorem archives_in_chronological_order
    (data : list byte) (ds_count : Z) (n : nat) (offset : Z)
    (archive_data : list archive) :
  read_archives n data ds_count offset = Ret archive_data ->
  Forall (fun arc =>
    exists o v,
      unpack_doubles (rows arc) (slice data o (o + rows arc * 8)) = Some v /\
      len v = rows arc /\
      (0 < pointer arc < rows arc ->
       values arc = skipn (Z.to_nat (pointer arc)) v ++ firstn (Z.to_nat (pointer arc)) v) /\
      (~ 0 < pointer arc < rows arc -> values arc = v))
    archive_data.
Proof.
  apply read_archives_Forall. intros o arc o' H.
  destruct (read_archive_inv _ _ _ _ _ H) as (v & _ & _ & Hv & Hval).
  exists (o + 56 + ds_count * 16 + 4), v.
  pose proof (unpack_doubles_len _ _ _ Hv) as Hlen.
  split; [exact Hv|]. split; [exact Hlen|].
  rewrite Hval, <- Hlen. apply reorder_spec.
Qed.

Lemma archives_in_chronological_order_witness :
  exists archive_data,
    read_archives 1 file_rotated 1 192 = Ret archive_data /\
    map values archive_data = [[1; 2; 3]%float] /\
    Forall (fun arc =>
      exists o v,
        unpack_doubles (rows arc) (slice file_rotated o (o + rows arc * 8)) = Some v /\
        len v = rows arc /\
        (0 < pointer arc < rows arc ->
         values arc = skipn (Z.to_nat (pointer arc)) v ++ firstn (Z.to_nat (pointer arc)) v) /\
        (~ 0 < pointer arc < rows arc -> values arc = v))
      archive_data.
Proof.
  eexists. split; [vm_compute; reflexivity|]. split; [reflexivity|].
  apply (archives_in_chronological_order file_rotated 1 1 192).
  vm_compute. reflexivity.
Defined.

(** C10. When the header announces no archive, the format parser fails: the
    scan for a covering archive finds nothing in the empty list, [max] of the
    empty list raises, and the handler turns that into [None]. *)
Theorem no_archive_is_a_failure
    (data : list byte) (period : string) (now : Q) (step ds_count last_update : Z) :
  read_header data now = Ret (step, ds_count, 0, last_update) ->
  first_covering step (dict_get period_duration period (24 * 3600)) [] = None /\
  select_archive step period [] = Raise ValueError /\
  parse_body data period now = Raise ValueError /\
  parse_rrd4j_file data period now = None.
Proof.
  intros H. split; [reflexivity|]. split; [reflexivity|].
  assert (E : parse_body data period now = Raise ValueError).
  { unfold parse_body. rewrite H. reflexivity. }
  split; [exact E|]. unfold parse_rrd4j_file. now rewrite E.
Qed.

Lemma no_archive_is_a_failure_witness :
  read_header file_no_archive 1700000000 = Ret (60, 0, 0, 1700000000) /\
  parse_rrd4j_file file_no_archive "D" 1700000000 = None.
Proof.
  split; [vm_compute; reflexivity|].
  apply (no_archive_is_a_failure file_no_archive "D" 1700000000 60 0 1700000000).
  vm_compute. reflexivity.
Defined.

(** C5. From a non-empty archive list the selector returns the first archive
    in file order whose coverage [rowCount * step * stepsMultiplier] is at
    least 0.8 times the duration of the period (3600 s for [h], 86400 s for
    [D], 604800 s for [W], 2592000 s for [M], 31536000 s for [Y], 86400 s
    for any other tag); when no archive qualifies it returns the archive of
    greatest coverage, the first of them on a tie.  With coverages 3600,
    86400 and 604800 a day request gets the second archive; a sole archive of
    coverage 3600 is chosen for a year request. *)
Theorem archive_selector_first_covering_else_greatest
    (step : Z) (period : string) (archive_data : list archive) :
  archive_data <> [] ->
  (exists pre a post,
      archive_data = pre ++ a :: post /\
      select_archive step period archive_data = Ret a /\
      ((covers step period a /\ forall x, In x pre -> ~ covers step period x)
       \/ ((forall x, In x archive_data -> ~ covers step period x) /\
           (forall x, In x pre -> coverage step x < coverage step a) /\
           (forall x, In x post -> coverage step x <= coverage step a)))) /\
  map (fun p => dict_get period_duration p (24 * 3600)) ["h"; "D"; "W"; "M"; "Y"]%string
    = [3600; 86400; 604800; 2592000; 31536000] /\
  (~ In period ["h"; "D"; "W"; "M"; "Y"]%string ->
   dict_get period_duration period (24 * 3600) = 86400) /\
  (forall a1 a2 a3,
      coverage step a1 = 3600 -> coverage step a2 = 86400 -> coverage step a3 = 604800 ->
      select_archive step "D" [a1; a2; a3] = Ret a2) /\
  (forall a, coverage step a = 3600 -> select_archive step "Y" [a] = Ret a).
Proof.
  intros Hne. split; [now apply select_archive_spec|]. split; [reflexivity|].
  split; [|split].
  - intros Hnot. unfold period_duration, dict_get.
    repeat match goal with
           | |- context [String.eqb ?a period] =>
               destruct (String.eqb_spec a period) as [E|_];
               [exfalso; apply Hnot; rewrite <- E; simpl; tauto|]
           end.
    reflexivity.
  - intros a1 a2 a3 H1 H2 H3.
    destruct (select_archive_spec step "D" [a1; a2; a3]) as (pre & a & post & E & -> & Hc);
      [discriminate|].
    assert (C1 : ~ covers step "D" a1).
    { unfold covers. rewrite H1. vm_compute. intros H. now apply H. }
    assert (C2 : covers step "D" a2).
    { unfold covers. rewrite H2. vm_compute. discriminate. }
    f_equal. destruct Hc as [[Ha Hpre]|[Hnone _]].
    + destruct pre as [|x1 [|x2 pre]].
      * injection E as <- _. contradiction.
      * injection E as _ <- _. reflexivity.
      * injection E as _ <- _. exfalso. apply (Hpre a2); [right; now left|exact C2].
    + exfalso. apply (Hnone a2); [right; now left|exact C2].
  - intros a Ha.
    destruct (select_archive_spec step "Y" [a]) as (pre & a' & post & E & -> & _);
      [discriminate|].
    f_equal. destruct pre as [|x [|y pre]]; try discriminate. now injection E.
Qed.

Lemma archive_selector_first_covering_else_greatest_witness :
  let a1 := {| steps := 1; rows := 60; pointer := 0; values := [] |} in
  let a2 := {| steps := 1; rows := 1440; pointer := 0; values := [] |} in
  let a3 := {| steps := 10; rows := 1008; pointer := 0; values := [] |} in
  [a1; a2; a3] <> [] /\
  select_archive 60 "D" [a1; a2; a3] = Ret a2 /\
  select_archive 60 "Y" [a1] = Ret a1.
Proof.
  intros a1 a2 a3.
  assert (Hne : [a1; a2; a3] <> []) by discriminate.
  pose proof (archive_selector_first_covering_else_greatest 60 "D" [a1; a2; a3] Hne)
    as (_ & _ & _ & Hday & Hyear).
  split; [exact Hne|]. split.
  - apply Hday; reflexivity.
  - apply Hyear; reflexivity.
Defined.

Lemma read_header_inv (data : list byte) (now : Q) (step ds_count arc_count last_update : Z) :
  read_header data now = Ret (step, ds_count, arc_count, last_update) ->
  exists step0 last0,
    unpack_QIIQ (slice data 40 64) = Some (step0, ds_count, arc_count, last0) /\
    step = (if (1 <=? step0) && (step0 <=? 86400) then step0 else 60) /\
    last_update = (if (1577836800 <=? last0) && (last0 <=? 2000000000)
                   then last0 else Qtrunc now).
Proof.
  unfold read_header. change (40 + 24) with 64.
  destruct (unpack_QIIQ (slice data 40 64)) as [[[[s0 dc] ac] l0]|]; [|discriminate].
  cbn [unpacked rbind]. intros H. injection H as <- <- <- <-.
  exists s0, l0. split; [reflexivity|]. split.
  - destruct (Z.ltb_spec s0 1), (Z.ltb_spec 86400 s0),
      (Z.leb_spec 1 s0), (Z.leb_spec s0 86400); simpl; try reflexivity; lia.
  - destruct (Z.ltb_spec l0 1577836800), (Z.ltb_spec 2000000000 l0),
      (Z.leb_spec 1577836800 l0), (Z.leb_spec l0 2000000000); simpl;
      try reflexivity; lia.
Qed.

(** C3, as the code has it.  With [L] the effective last update (the stored
    one when it lies in [1577836800, 2000000000], else the clock), [S] the
    effective step (the stored one when in [1, 86400], else 60) times the
    steps multiplier, and [N] the number of values of the selected archive,
    the parser emits exactly the pairs [(L - (N - i - 1) * S, v_i)] for the
    indices [i] whose value is finite, in order and without renumbering; when
    the last value is finite its sample comes last with timestamp [L] (five
    finite rows with [S = 60] and [L = 1000300] give 1000060, 1000120,
    1000180, 1000240, 1000300); an archive without a finite value makes the
    parser return no data. *)
Theorem pairs_of_the_selected_archive
    (data : list byte) (period : string) (now : Q)
    (step ds_count arc_count last_update : Z)
    (archive_data : list archive) (selected : archive) :
  read_header data now = Ret (step, ds_count, arc_count, last_update) ->
  read_archives (Z.to_nat arc_count) data ds_count (40 + 24 + ds_count * 128)
    = Ret archive_data ->
  select_archive step period archive_data = Ret selected ->
  let vals := values selected in
  let n := len vals in
  let S := step * steps selected in
  let pairs :=
    map (fun iv => (last_update - (n - fst iv - 1) * S, snd iv))
        (filter (fun iv => finite (snd iv)) (enumerate vals)) in
  (exists step0 last0,
      unpack_QIIQ (slice data 40 64) = Some (step0, ds_count, arc_count, last0) /\
      step = (if (1 <=? step0) && (step0 <=? 86400) then step0 else 60) /\
      last_update = (if (1577836800 <=? last0) && (last0 <=? 2000000000)
                     then last0 else Qtrunc now)) /\
  parse_rrd4j_file data period now
    = match pairs with [] => None | _ :: _ => Some pairs end /\
  (forall front v, vals = front ++ [v] -> finite v = true ->
     exists earlier, pairs = earlier ++ [(last_update, v)]) /\
  (n = 5 -> S = 60 -> last_update = 1000300 ->
   (forall v, In v vals -> finite v = true) ->
   map fst pairs = [1000060; 1000120; 1000180; 1000240; 1000300]) /\
  ((forall v, In v vals -> finite v = false) ->
   parse_rrd4j_file data period now = None).
Proof.
  intros Hh Ha Hs vals n S pairs.
  assert (Ep : build_pairs last_update S vals = pairs)
    by (unfold build_pairs; apply pairs_from_enumerate).
  assert (Eparse : parse_rrd4j_file data period now
                   = match pairs with [] => None | _ :: _ => Some pairs end).
  { unfold parse_rrd4j_file, parse_body. rewrite Hh. cbn [rbind].
    rewrite Ha. cbn [rbind]. rewrite Hs. cbn [rbind].
    fold vals. fold S. rewrite Ep. reflexivity. }
  split; [now apply read_header_inv|]. split; [exact Eparse|]. split; [|split].
  - intros front v Ev Hv. rewrite <- Ep. unfold build_pairs. rewrite Ev.
    rewrite pairs_from_app. eexists. f_equal.
    simpl. rewrite Hv. do 2 f_equal.
    rewrite len_app. unfold len at 2. simpl. lia.
  - intros Hn HS HL Hfin. rewrite <- Ep. unfold build_pairs. fold n.
    rewrite Hn, HS, HL.
    destruct vals as [|v0 [|v1 [|v2 [|v3 [|v4 [|v5 t]]]]]];
      unfold n, len in Hn; simpl in Hn; try lia.
    simpl. rewrite !Hfin by (simpl; tauto). reflexivity.
  - intros Hnone. rewrite Eparse, <- Ep. unfold build_pairs.
    now rewrite pairs_from_none.
Qed.

Lemma pairs_of_the_selected_archive_witness :
  exists archive_data selected,
    read_header file_five_rows 1000300 = Ret (60, 1, 1, 1000300) /\
    read_archives 1 file_five_rows 1 (40 + 24 + 1 * 128) = Ret archive_data /\
    select_archive 60 "D" archive_data = Ret selected /\
    parse_rrd4j_file file_five_rows "D" 1000300
      = Some [(1000060, 1%float); (1000120, 2%float); (1000180, 3%float);
              (1000240, 4%float); (1000300, 5%float)].
Proof.
  eexists. eexists.
  assert (Hh : read_header file_five_rows 1000300 = Ret (60, 1, 1, 1000300))
    by (vm_compute; reflexivity).
  split; [exact Hh|].
  assert (Ha : read_archives (Z.to_nat 1) file_five_rows 1 (40 + 24 + 1 * 128)
               = Ret [{| steps := 1; rows := 5; pointer := 0;
                         values := [1; 2; 3; 4; 5]%float |}])
    by (vm_compute; reflexivity).
  split; [exact Ha|].
  assert (Hs : select_archive 60 "D"
                 [{| steps := 1; rows := 5; pointer := 0;
                     values := [1; 2; 3; 4; 5]%float |}]
               = Ret {| steps := 1; rows := 5; pointer := 0;
                        values := [1; 2; 3; 4; 5]%float |})
    by (vm_compute; reflexivity).
  split; [exact Hs|].
  destruct (pairs_of_the_selected_archive file_five_rows "D" 1000300
              60 1 1 1000300 _ _ Hh Ha Hs) as (_ & E & _).
  exact E.
Defined.

(** C3 as stated fails twice.  In [file_trailing_nan] the newest row is NaN:
    the only surviving sample keeps the timestamp of its own row, one step
    before the last update.  In [file_five_rows] the stored last update is
    1000300, below the accepted range: the parser anchors the five rows at
    the clock. *)
Lemma most_recent_sample_not_at_last_update :
  (read_header file_trailing_nan 1700000000 = Ret (60, 1, 1, 1600000000) /\
   parse_rrd4j_file file_trailing_nan "D" 1700000000 = Some [(1599999940, 1%float)] /\
   1599999940 <> 1600000000) /\
  (unpack_QIIQ (slice file_five_rows 40 64) = Some (60, 1, 1, 1000300) /\
   option_map (map fst) (parse_rrd4j_file file_five_rows "D" 1700000000)
     = Some [1699999760; 1699999820; 1699999880; 1699999940; 1700000000] /\
   [1699999760; 1699999820; 1699999880; 1699999940; 1700000000]
     <> [1000060; 1000120; 1000180; 1000240; 1000300]).
Proof.
  split; (split; [vm_compute; reflexivity|]); (split; [vm_compute; reflexivity|]);
    discriminate.
Qed.

(** ** Claims on [main] and on the label generator *)

(** [main] stops at the first failure of the format parser. *)
Lemma main_stops_on_parse_failure
    (strftime : string -> pynum -> result string) (fuel : nat)
    (rrd : list byte) (period : string) (now now' : Q) :
  parse_rrd4j_file rrd period now = None ->
  main strftime fuel rrd period now now' = Done CouldNotParse.
Proof. intros H. unfold main. now rewrite H. Qed.

(** C1 at [file_no_archive]: the format parser fails, the heuristic scanner
    finds thirty samples in the same bytes, and [main] reports that the file
    could not be parsed: nothing on its path calls the scanner. *)
Theorem main_fails_where_the_scanner_succeeds :
  parse_rrd4j_file file_no_archive "D" 1700000000 = None /\
  (exists pairs,
      parse_rrd4j_values_only file_no_archive 1700000000 = Some pairs /\
      map snd pairs = repeat 1%float 30) /\
  (forall strftime fuel now',
      main strftime fuel file_no_archive "D" 1700000000 now' = Done CouldNotParse).
Proof.
  assert (H : parse_rrd4j_file file_no_archive "D" 1700000000 = None)
    by (vm_compute; reflexivity).
  split; [exact H|]. split.
  - eexists. split; [vm_compute; reflexivity|reflexivity].
  - intros. now apply main_stops_on_parse_failure.
Qed.

Section LabelFacts.
Variable strftime : string -> pynum -> result string.

Lemma known_period_interval (period : string) :
  In period ["h"; "D"; "W"; "M"; "Y"]%string ->
  exists k fmt, label_interval period 0 = Ret (PyInt k, fmt) /\ 0 < k.
Proof.
  simpl. intros [<-|[<-|[<-|[<-|[<-|[]]]]]]; eexists; eexists;
    (split; [reflexivity|reflexivity]).
Qed.

(** C8, as the code has it.  For a non-empty sequence whose first and last
    timestamps are equal and one of the tags h, D, W, M, Y, the walk emits
    one label at position 50 and, 50 being below 95, the closing step adds
    the end label at position 100: two labels with the same text. *)
Theorem zero_span_gives_two_labels
    (fuel : nat) (data : list Sample) (period : string)
    (first final : Sample) (interval : pynum) (fmt txt : string) :
  item data 0 = Ret first ->
  item data (-1) = Ret final ->
  fst first = fst final ->
  In period ["h"; "D"; "W"; "M"; "Y"]%string ->
  label_interval period 0 = Ret (interval, fmt) ->
  strftime fmt (PyInt (fst first)) = Ret txt ->
  (2 <= fuel)%nat ->
  generate_x_labels strftime fuel data period
    = Done [ {| text := txt; pos := PyInt 50 |};
             {| text := txt; pos := PyInt 100 |} ].
Proof.
  intros H0 Hl Hts Hp Hint Htxt Hfuel.
  destruct (known_period_interval period Hp) as (k & fmt' & Hk & Hkpos).
  rewrite Hk in Hint. injection Hint as <- <-.
  unfold generate_x_labels.
  destruct data as [|s0 rest]; [discriminate H0|].
  rewrite H0, Hl, <- Hts, Z.sub_diag, Hk.
  destruct fuel as [|[|fuel]]; try lia.
  set (ts := fst first) in *.
  assert (Hle : num_le (PyInt ts) (PyInt ts) = true).
  { unfold num_le. apply Qle_bool_iff. apply Qle_refl. }
  assert (Hgt : num_le (num_add (PyInt ts) (PyInt k)) (PyInt ts) = false).
  { unfold num_le, num_add, num_val. apply not_true_is_false. intros H.
    apply Qle_bool_iff in H. rewrite <- Zle_Qle in H. lia. }
  cbn [walk]. rewrite Hle, Htxt. cbn [label_pos Z.ltb Z.compare].
  rewrite Hgt. cbn [app end_label item len List.length].
  cbn. rewrite Htxt. reflexivity.
Qed.

(** With any other tag the interval is [0 / 10]: a walk over a zero span
    never leaves its first timestamp.  Here on the single sample of
    1700000000, for a [strftime] that always answers. *)
Lemma unknown_period_walk_is_still_running :
  (forall c, exists txt, strftime "%H:%M" c = Ret txt) ->
  forall fuel, generate_x_labels strftime fuel [(1700000000, 1%float)] "X" = Running.
Proof.
  intros Htotal fuel.
  assert (Hw : forall fuel cur labels,
             cur = PyInt 1700000000 \/ cur = PyFloat 1700000000 ->
             walk strftime fuel "%H:%M" 1700000000 1700000000 0 (PyFloat 0) cur labels
             = Running).
  { clear fuel. induction fuel as [|fuel IH]; intros cur labels Hc; [reflexivity|].
    cbn [walk].
    assert (Hle : num_le cur (PyInt 1700000000) = true)
      by (destruct Hc as [->| ->]; reflexivity).
    rewrite Hle. destruct (Htotal cur) as (txt & ->).
    cbn [label_pos Z.ltb Z.compare]. apply IH. right.
    destruct Hc as [->| ->]; vm_compute; reflexivity. }
  unfold generate_x_labels. cbn [item len List.length Z.ltb Z.compare Z.of_nat].
  cbn -[walk]. rewrite Hw; [reflexivity|now left].
Qed.
End LabelFacts.

(** C8 as stated fails: one sample, the tag [D]; the generator answers with
    two labels, at 50 and at 100. *)
Lemma single_sample_gets_two_labels :
  generate_x_labels (fun _ _ => Ret "12:00"%string) 5 [(1700000000, 1%float)] "D"
    = Done [ {| text := "12:00"; pos := PyInt 50 |};
             {| text := "12:00"; pos := PyInt 100 |} ] /\
  List.length [ {| text := "12:00"%string; pos := PyInt 50 |};
                {| text := "12:00"%string; pos := PyInt 100 |} ] <> 1%nat.
Proof. split; [vm_compute; reflexivity|discriminate]. Qed.

Lemma zero_span_gives_two_labels_witness :
  generate_x_labels (fun _ _ => Ret "Mon"%string) 2
                    [(1700000000, 1%float); (1700000000, 2%float)] "W"
    = Done [ {| text := "Mon"; pos := PyInt 50 |};
             {| text := "Mon"; pos := PyInt 100 |} ].
Proof.
  apply (zero_span_gives_two_labels (fun _ _ => Ret "Mon"%string) 2
           [(1700000000, 1%float); (1700000000, 2%float)] "W"
           (1700000000, 1%float) (1700000000, 2%float) (PyInt (24 * 3600)) "%a" "Mon").
  - reflexivity.
  - reflexivity.
  - reflexivity.
  - simpl. tauto.
  - reflexivity.
  - reflexivity.
  - lia.
Defined.

(** ** The resampler *)

Lemma item_nonneg {A : Type} (l : list A) (i : Z) (x : A) :
  0 <= i -> nth_error l (Z.to_nat i) = Some x -> item l i = Ret x.
Proof.
  intros Hi H. unfold item.
  destruct (Z.ltb_spec i 0); [lia|]. destruct (Z.ltb_spec i 0); [lia|].
  now rewrite H.
Qed.

Lemma item_last {A : Type} (l : list A) (x : A) : item (l ++ [x]) (-1) = Ret x.
Proof.
  unfold item. cbn [Z.ltb Z.compare]. rewrite len_app.
  change (len [x]) with 1.
  pose proof (len_nonneg l).
  destruct (Z.ltb_spec (len l + 1 + -1) 0); [lia|].
  replace (Z.to_nat (len l + 1 + -1)) with (List.length l) by (unfold len; lia).
  rewrite nth_error_app2 by apply Nat.le_refl. now rewrite Nat.sub_diag.
Qed.

(** The window pass is a filter, and it tracks what it keeps. *)
Lemma window_pass_filter (cutoff : pynum) :
  forall data acc mm,
    fold_left (window_step cutoff) data (acc, mm)
    = (acc ++ filter (in_window cutoff) data,
       fold_left track (map snd (filter (in_window cutoff) data)) mm).
Proof.
  induction data as [|s t IH]; intros acc mm; cbn [fold_left filter map].
  - now rewrite app_nil_r.
  - change (window_step cutoff (acc, mm) s)
      with (if in_window cutoff s then (acc ++ [s], track mm (snd s)) else (acc, mm)).
    destruct (in_window cutoff s); rewrite IH; [|reflexivity].
    cbn [map fold_left]. now rewrite <- app_assoc.
Qed.

Lemma window_pass_spec (cutoff : pynum) (data : list Sample) :
  window_pass cutoff data
  = (filter (in_window cutoff) data,
     fold_left track (map snd (filter (in_window cutoff) data)) no_range).
Proof. unfold window_pass. now rewrite window_pass_filter. Qed.

(** [range(B)]. *)
Lemma py_range_0 (B : Z) : py_range 0 B 1 = map Z.of_nat (seq 0 (Z.to_nat B)).
Proof.
  unfold py_range. replace ((B - 0 + 1 - 1) / 1) with B by (rewrite Z.div_1_r; lia).
  apply map_ext. intros k. lia.
Qed.

Lemma pick_loop_spec (filtered : list Sample) (max_points : Z) :
  0 < max_points ->
  forall indices st,
    (forall i, In i indices -> 0 <= i) ->
    pick_loop filtered (PyFloat (rnd64 (inject_Z (len filtered) / inject_Z max_points)))
              st indices
    = Ret (fst st ++ picks filtered max_points indices,
           fold_left track (map snd (picks filtered max_points indices)) (snd st)).
Proof.
  intros HB. induction indices as [|i t IH]; intros st Hpos.
  - simpl. rewrite app_nil_r. now destruct st.
  - cbn [pick_loop]. unfold pick_step.
    change (py_int (num_mul (PyInt i) (PyFloat (rnd64 (inject_Z (len filtered) / inject_Z max_points)))))
      with (sample_index (len filtered) max_points i).
    assert (Hidx : 0 <= sample_index (len filtered) max_points i).
    { apply sample_index_nonneg; [apply len_nonneg|exact HB|apply Hpos; now left]. }
    unfold picks. cbn [flat_map]. fold (picks filtered max_points t).
    set (idx := sample_index (len filtered) max_points i) in *.
    destruct (Z.ltb_spec idx (len filtered)) as [Hlt|Hge].
    + destruct (nth_error filtered (Z.to_nat idx)) as [s|] eqn:En.
      * rewrite (item_nonneg _ _ _ Hidx En). cbn [rbind].
        rewrite IH by (intros; apply Hpos; now right). cbn [fst snd].
        simpl. now rewrite <- app_assoc.
      * apply nth_error_None in En. unfold len in Hlt. lia.
    + cbn [rbind]. rewrite IH by (intros; apply Hpos; now right). reflexivity.
Qed.

Lemma truediv_ints (n B : Z) :
  B <> 0 ->
  num_truediv (PyInt n) (PyInt B) = Ret (PyFloat (rnd64 (inject_Z n / inject_Z B))).
Proof.
  intros HB. unfold num_truediv, num_val.
  destruct (Qeq_bool (inject_Z B) 0) eqn:E; [|reflexivity].
  apply Qeq_bool_iff in E. unfold Qeq in E. simpl in E. lia.
Qed.

Lemma downsample_spec (filtered : list Sample) (max_points : Z) :
  0 < max_points ->
  let result := picks filtered max_points (py_range 0 max_points 1) in
  let tail := forced_tail result filtered in
  downsample filtered max_points
  = Ret (result ++ tail,
         fold_left track (map snd (result ++ tail)) no_range).
Proof.
  intros HB result tail. unfold downsample.
  rewrite truediv_ints by lia. cbn [rbind].
  rewrite pick_loop_spec; [|exact HB|].
  2:{ rewrite py_range_0. intros i Hi. apply in_map_iff in Hi.
      destruct Hi as (k & <- & _). lia. }
  cbn [rbind fst snd app]. fold result.
  unfold tail. clearbody result. clear tail.
  destruct result as [|r0 rt]; [reflexivity|].
  destruct (exists_last (l := r0 :: rt)) as (rl & r_last & Er); [discriminate|].
  destruct filtered as [|f0 ft].
  - unfold forced_tail. rewrite Er, rev_unit. cbn [rev]. now rewrite app_nil_r.
  - destruct (exists_last (l := f0 :: ft)) as (fl & f_last & Ef); [discriminate|].
    rewrite Er, Ef. rewrite !item_last. cbn [rbind].
    unfold forced_tail. rewrite !rev_unit.
    destruct (sample_neq r_last f_last).
    + rewrite (map_app snd (rl ++ [r_last])), fold_left_app. reflexivity.
    + now rewrite app_nil_r.
Qed.

Lemma picks_In (filtered : list Sample) (max_points : Z) (indices : list Z) (s : Sample) :
  In s (picks filtered max_points indices) -> In s filtered.
Proof.
  unfold picks. intros H. apply in_flat_map in H. destruct H as (i & _ & H).
  cbv zeta in H.
  destruct (_ <? _); [|destruct H].
  destruct (nth_error filtered _) as [x|] eqn:E; [|destruct H].
  destruct H as [<-|[]]. eapply nth_error_In, E.
Qed.

Lemma forced_tail_In (result filtered : list Sample) (s : Sample) :
  In s (forced_tail result filtered) -> In s filtered.
Proof.
  unfold forced_tail. destruct (rev result) as [|r rr]; [intros []|].
  destruct (rev filtered) as [|f ff] eqn:E; [intros []|].
  destruct (sample_neq r f); [|intros []]. intros [<-|[]].
  apply in_rev. rewrite E. now left.
Qed.

Lemma picks_range_nonempty (filtered : list Sample) (max_points : Z) :
  0 < max_points -> filtered <> [] ->
  picks filtered max_points (py_range 0 max_points 1) <> [].
Proof.
  intros HB Hne. rewrite py_range_0.
  destruct (Z.to_nat max_points) as [|k] eqn:Ek; [lia|].
  destruct filtered as [|s0 t]; [congruence|].
  cbn [seq map]. unfold picks. cbn [flat_map]. rewrite sample_index_0.
  assert (H : (0 <? len (s0 :: t)) = true)
    by (apply Z.ltb_lt; unfold len; simpl List.length; lia).
  rewrite H. discriminate.
Qed.

(** The extremes tracked over samples that are all 5.0. *)
Lemma track_all_five (l : list Sample) :
  l <> [] -> (forall s, In s l -> snd s = 5%float) ->
  fold_left track (map snd l) no_range = (5, 5)%float.
Proof.
  intros Hne Hall.
  assert (G : forall (l : list Sample) mm, (forall s, In s l -> snd s = 5%float) ->
              mm = no_range \/ mm = (5, 5)%float ->
              fold_left track (map snd l) mm
              = match l with [] => mm | _ => (5, 5)%float end).
  { clear. induction l as [|s t IH]; intros mm Hall Hmm; [reflexivity|].
    cbn [map fold_left]. rewrite (Hall s) by now left.
    assert (E : track mm 5%float = (5, 5)%float)
      by (destruct Hmm as [->| ->]; reflexivity).
    rewrite E, IH; [now destruct t| |now right].
    intros; apply Hall; now right. }
  rewrite G; [|exact Hall|now left]. now destruct l.
Qed.

(** C6. Samples that all carry 5.0 and lie in the window: the extremes
    coincide, the span becomes 0.5 (a tenth of |5|), the padding 0.075, the
    nice step 0.01, and the bounds are 492 and 508 steps: 4.92 and 5.08, on
    either side of 5.0. *)
Theorem constant_series_gets_a_proper_range
    (data : list Sample) (period : string) (max_points : Z) (now : Q) :
  data <> [] ->
  0 < max_points ->
  (forall s, In s data ->
     snd s = 5%float /\
     num_le (num_sub (PyFloat now) (PyInt (dict_get period_seconds period (24 * 3600))))
            (PyInt (fst s)) = true) ->
  exists out y_min y_max,
    process_data data period max_points now = Ret (out, y_min, y_max) /\
    out <> [] /\
    (abs 5 * 0.1 = 0.5)%float /\
    (0.5 * 0.15 = 0.075)%float /\
    floor_log10 0.5%float = Ret (-1) /\
    (nearest_pow10 (-1) / 10 = 0.01)%float /\
    math_floor ((5 - 0.075) / 0.01)%float = Ret 492 /\
    math_ceil ((5 + 0.075) / 0.01)%float = Ret 508 /\
    y_min = (Z2F 492 * 0.01)%float /\ y_max = (Z2F 508 * 0.01)%float /\
    y_min = 4.92%float /\ y_max = 5.08%float /\
    (y_min <? 5)%float = true /\ (5 <? y_max)%float = true /\
    (y_min, y_max) <> (5, 5)%float.
Proof.
  intros Hne HB Hall.
  set (cutoff := num_sub (PyFloat now) (PyInt (dict_get period_seconds period (24 * 3600)))) in *.
  assert (Hfilter : filter (in_window cutoff) data = data).
  { apply forallb_filter_id. apply forallb_forall. intros s Hs. now apply Hall. }
  assert (Hfive : forall s, In s data -> snd s = 5%float) by (intros; now apply Hall).
  assert (Hsel : select_window data period now = (data, (5, 5)%float)).
  { unfold select_window. fold cutoff. rewrite window_pass_spec, Hfilter.
    cbn [fst snd]. rewrite track_all_five by assumption. now destruct data. }
  assert (Hres : exists out, resampled data period max_points now = Ret (out, (5, 5)%float)
                             /\ out <> []).
  { unfold resampled. rewrite Hsel. cbn [fst].
    destruct (max_points <? len data); [|now exists data].
    rewrite downsample_spec by exact HB.
    set (result := picks data max_points (py_range 0 max_points 1)).
    set (tail := forced_tail result data).
    exists (result ++ tail).
    assert (Hr : result <> []) by now apply picks_range_nonempty.
    split.
    - f_equal. f_equal. apply track_all_five.
      + destruct result; [congruence|discriminate].
      + intros s Hs. apply Hfive. apply in_app_or in Hs. destruct Hs as [Hs|Hs].
        * now apply picks_In in Hs.
        * now apply forced_tail_In in Hs.
    - destruct result; [congruence|discriminate]. }
  destruct Hres as (out & Hres & Hout).
  exists out, (Z2F 492 * 0.01)%float, (Z2F 508 * 0.01)%float.
  split.
  - unfold process_data. destruct data as [|s0 t]; [congruence|].
    rewrite Hres. reflexivity.
  - split; [exact Hout|]. repeat split; try (vm_compute; reflexivity).
    vm_compute. discriminate.
Qed.

Lemma constant_series_gets_a_proper_range_witness :
  exists out y_min y_max,
    process_data (repeat (1700000000, 5%float) 10) "D" 500 1700000100
      = Ret (out, y_min, y_max) /\
    (y_min <? 5)%float = true /\ (5 <? y_max)%float = true.
Proof.
  destruct (constant_series_gets_a_proper_range
              (repeat (1700000000, 5%float) 10) "D" 500 1700000100)
    as (out & y_min & y_max & H & _ & _ & _ & _ & _ & _ & _ & _ & _ & _ & _ & Hlo & Hhi & _).
  - discriminate.
  - lia.
  - intros s Hs. apply repeat_spec in Hs. subst s. split; [reflexivity|].
    vm_compute. reflexivity.
  - exists out, y_min, y_max. auto.
Defined.

(** ** The heuristic scanner *)

Lemma len_slice_inside {A : Type} (l : list A) (i n : Z) :
  0 <= i -> 0 <= n -> i + n <= len l -> len (slice l i (i + n)) = n.
Proof.
  intros Hi Hn H. unfold slice. replace (i + n - i) with n by lia.
  rewrite len_take, len_drop. lia.
Qed.

Lemma unpack_d_inside (data : list byte) (i : Z) :
  0 <= i -> i + 8 <= len data ->
  unpack_d (slice data i (i + 8)) = Some (double_at data i).
Proof.
  intros Hi H. unfold unpack_d. rewrite len_slice_inside by lia. reflexivity.
Qed.

Lemma py_range_bounds (start stop step i : Z) :
  0 < step -> In i (py_range start stop step) -> start <= i < stop.
Proof.
  intros Hs Hi. unfold py_range in Hi. apply in_map_iff in Hi.
  destruct Hi as (k & <- & Hk). apply in_seq in Hk.
  set (c := (stop - start + step - 1) / step) in *.
  assert (Hc : 0 < c) by lia.
  assert (Hm : step * c <= stop - start + step - 1)
    by (apply Z.mul_div_le; lia).
  assert (Hk' : Z.of_nat k <= c - 1) by lia.
  nia.
Qed.


Lemma scan_loop_pure (data : list byte) :
  forall offsets st,
    (forall i, In i offsets -> 0 <= i /\ i + 8 <= len data) ->
    exists st',
      scan_loop data st offsets = Ret st' /\
      (blocks st', current_block st')
      = fold_left scan_pure (map (double_at data) offsets) (blocks st, current_block st).
Proof.
  induction offsets as [|i t IH]; intros st Hin.
  - exists st. split; reflexivity.
  - cbn [scan_loop]. unfold scan_step.
    destruct (Hin i (or_introl eq_refl)) as [Hi0 Hi8].
    rewrite unpack_d_inside by assumption. cbn [unpacked rbind].
    cbn [map fold_left]. unfold scan_pure at 2. cbn [fst snd].
    destruct (is_valid_sensor_value (double_at data i)); cbn [rbind];
      match goal with |- context [scan_loop data ?s t] =>
        destruct (IH s) as (st' & E & F); [intros; apply Hin; now right|]
      end; exists st'; (split; [exact E|exact F]).
Qed.

Lemma scan_pure_runs :
  forall vals st,
    (if 30 <=? len (snd (fold_left scan_pure vals st))
     then fst (fold_left scan_pure vals st) ++ [snd (fold_left scan_pure vals st)]
     else fst (fold_left scan_pure vals st))
    = fst st ++ filter (fun b => 30 <=? len b)
                       (runs_from is_valid_sensor_value (snd st) vals).
Proof.
  induction vals as [|v t IH]; intros st; cbn [fold_left runs_from].
  - cbn [filter]. destruct (30 <=? len (snd st)); [reflexivity|now rewrite app_nil_r].
  - rewrite IH. unfold scan_pure.
    destruct (is_valid_sensor_value v); cbn [fst snd filter]; [reflexivity|].
    destruct (30 <=? len (snd st)); [now rewrite <- app_assoc|reflexivity].
Qed.

Lemma scan_blocks_spec (data : list byte) :
  scan_blocks data = Ret (kept_blocks (scanned_doubles data)).
Proof.
  unfold scan_blocks.
  destruct (scan_loop_pure data (py_range 200 (len data - 8) 8)
              {| blocks := []; current_block := []; current_start := None |})
    as (st' & E & F).
  { intros i Hi. apply py_range_bounds in Hi; lia. }
  rewrite E. cbn [rbind]. f_equal.
  pose proof (scan_pure_runs (scanned_doubles data) ([], [])) as H.
  unfold scanned_doubles in H at 1 2 3 4. cbn [blocks current_block] in F.
  rewrite <- F in H. cbn [fst snd app] in H. exact H.
Qed.





Lemma runs_from_valid {A : Type} (p : A -> bool) :
  forall l cur, forallb p cur = true ->
    Forall (fun r => forallb p r = true) (runs_from p cur l).
Proof.
  induction l as [|x t IH]; intros cur Hc; cbn [runs_from].
  - constructor; [exact Hc|constructor].
  - destruct (p x) eqn:Hx.
    + apply IH. rewrite forallb_app, Hc. simpl. now rewrite Hx.
    + constructor; [exact Hc|now apply IH].
Qed.



Lemma synth_from_values (now : Q) :
  forall vals n i, map snd (synth_from now n i vals) = vals.
Proof. induction vals as [|v t IH]; intros; simpl; [reflexivity|now rewrite IH]. Qed.






(** ** Downsampling *)

Section IndexFacts.
Variables n B : Z.
Hypothesis HB : 0 < B < n.
Hypothesis Hsize : 3 * n * B < 2 ^ 53.

Lemma exact_index_below_last (i : Z) : 0 <= i < B -> i * n / B <= n - 2.
Proof.
  intros Hi. assert (H : i * n / B < n - 1); [|lia].
  apply Z.div_lt_upper_bound; [lia|]. nia.
Qed.

Lemma sample_index_range (i : Z) :
  0 <= i < B -> 0 <= sample_index n B i <= n - 2.
Proof.
  intros Hi. split; [apply sample_index_nonneg; lia|].
  pose proof (exact_index_below_last i Hi).
  destruct (sample_index_floor n B i HB Hi Hsize) as [E|(E & _)]; lia.
Qed.

Lemma exact_index_step (i : Z) : 0 <= i -> i * n / B + 1 <= (i + 1) * n / B.
Proof.
  intros Hi. replace ((i + 1) * n) with (i * n + n) by ring.
  transitivity ((i * n + 1 * B) / B).
  - rewrite Z.div_add by lia. lia.
  - apply Z.div_le_mono; lia.
Qed.

Lemma sample_index_increasing (i : Z) :
  0 <= i -> i + 1 < B -> sample_index n B i < sample_index n B (i + 1).
Proof.
  intros Hi0 Hi1.
  assert (Hi : 0 <= i < B) by lia. assert (Hi' : 0 <= i + 1 < B) by lia.
  pose proof (exact_index_step i Hi0) as Hstep.
  assert (Hle : sample_index n B i <= i * n / B)
    by (destruct (sample_index_floor n B i HB Hi Hsize) as [E|(E & _)]; lia).
  destruct (sample_index_floor n B (i + 1) HB Hi' Hsize) as [E|(E & Hmod & _)];
    [lia|].
  rewrite E.
  assert (Hexact : (i + 1) * n = B * ((i + 1) * n / B))
    by (apply Z.div_exact in Hmod; lia).
  set (F1 := (i + 1) * n / B) in *.
  assert (Hlt : i * n / B < F1 - 1); [|lia].
  apply Z.div_lt_upper_bound; [lia|]. nia.
Qed.
End IndexFacts.

Section SubseqFacts.
Context {A : Type}.
Implicit Types s l : list A.

Lemma subseq_nil_l l : subseq [] l.
Proof. induction l; [apply subseq_nil|now apply subseq_skip]. Qed.

Lemma subseq_refl l : subseq l l.
Proof. induction l; [apply subseq_nil|now apply subseq_keep]. Qed.

Lemma subseq_app s1 l1 s2 l2 :
  subseq s1 l1 -> subseq s2 l2 -> subseq (s1 ++ s2) (l1 ++ l2).
Proof.
  induction 1 as [|x s l H IH|x s l H IH]; intros H2; simpl.
  - exact H2.
  - apply subseq_skip. now apply IH.
  - apply subseq_keep. now apply IH.
Qed.

Lemma subseq_app_l s l pre : subseq s l -> subseq s (pre ++ l).
Proof. intros H. induction pre; simpl; [assumption|now apply subseq_skip]. Qed.

Lemma subseq_trans s m l : subseq s m -> subseq m l -> subseq s l.
Proof.
  intros H1 H2. revert s H1. induction H2; intros s' H1.
  - assumption.
  - apply subseq_skip. now apply IHsubseq.
  - inversion H1; subst.
    + apply subseq_skip. now apply IHsubseq.
    + apply subseq_keep. now apply IHsubseq.
Qed.

Lemma subseq_filter (p : A -> bool) l : subseq (filter p l) l.
Proof.
  induction l as [|x t IH]; simpl; [constructor|].
  destruct (p x); [now apply subseq_keep|now apply subseq_skip].
Qed.

Lemma subseq_skipn k l : subseq (skipn k l) l.
Proof.
  rewrite <- (firstn_skipn k l) at 2. apply subseq_app_l, subseq_refl.
Qed.

Lemma subseq_In s l x : subseq s l -> In x s -> In x l.
Proof.
  induction 1; intros Hx; [assumption|right; auto|].
  destruct Hx as [->|Hx]; [now left|right; auto].
Qed.

Lemma skipn_nth_split (d : A) l (lo j : nat) :
  (lo <= j < List.length l)%nat ->
  skipn lo l = firstn (j - lo) (skipn lo l) ++ nth j l d :: skipn (S j) l.
Proof.
  intros [H1 H2]. rewrite <- (firstn_skipn (j - lo) (skipn lo l)) at 1.
  f_equal. rewrite skipn_skipn. replace (j - lo + lo)%nat with j by lia.
  clear H1. revert j H2. induction l as [|x t IH]; intros j Hj; simpl in Hj; [lia|].
  destruct j as [|j]; [reflexivity|]. simpl. apply IH. lia.
Qed.

(** The elements found at increasing positions form a subsequence. *)
Lemma subseq_of_increasing (d : A) l (f : nat -> nat) :
  forall count start lo,
    (forall k, (start <= k < start + count)%nat -> (f k < List.length l)%nat) ->
    (forall k, (start <= k)%nat -> (S k < start + count)%nat -> (f k < f (S k))%nat) ->
    (count = O \/ lo <= f start)%nat ->
    subseq (map (fun k => nth (f k) l d) (seq start count)) (skipn lo l).
Proof.
  induction count as [|c IH]; intros start lo Hlen Hinc Hlo; [apply subseq_nil_l|].
  destruct Hlo as [|Hlo]; [discriminate|].
  cbn [seq map].
  rewrite (skipn_nth_split d l lo (f start)) by (split; [exact Hlo|apply Hlen; lia]).
  apply subseq_app_l. apply subseq_keep. apply IH.
  - intros k Hk. apply Hlen. lia.
  - intros k Hk1 Hk2. apply Hinc; lia.
  - destruct c as [|c]; [now left|right]. apply Hinc; lia.
Qed.
End SubseqFacts.

Lemma drop_subseq {A : Type} (l : list A) (k : Z) : subseq (drop k l) l.
Proof.
  destruct (Z.le_gt_cases 0 k).
  - rewrite drop_skipn by lia. apply subseq_skipn.
  - rewrite drop_nonpos by lia. apply subseq_refl.
Qed.

(** The window stage returns a subsequence of its input. *)
Lemma select_window_subseq (data : list Sample) (period : string) (now : Q) :
  subseq (fst (select_window data period now)) data.
Proof.
  unfold select_window. rewrite window_pass_spec. cbn [fst].
  set (cutoff := num_sub _ _).
  destruct (filter (in_window cutoff) data) as [|s t] eqn:E.
  - destruct data; [apply subseq_nil|]. cbn [fst]. apply drop_subseq.
  - cbn [fst]. rewrite <- E. apply subseq_filter.
Qed.

Lemma select_window_cases (data : list Sample) (period : string) (now : Q) :
  let cutoff := num_sub (PyFloat now) (PyInt (dict_get period_seconds period (24 * 3600))) in
  let kept := filter (in_window cutoff) data in
  fst (select_window data period now)
  = match kept with
    | [] => last_n (dict_get fallback_points period 1440) data
    | _ => kept
    end.
Proof.
  intros cutoff kept. unfold select_window. rewrite window_pass_spec.
  fold cutoff. fold kept. cbn [fst].
  destruct kept; [|reflexivity]. destruct data; reflexivity.
Qed.

Lemma Forall2_map_same {A B C : Type} (P : B -> C -> Prop) (f : A -> B) (g : A -> C) :
  forall l, (forall x, In x l -> P (f x) (g x)) -> Forall2 P (map f l) (map g l).
Proof.
  induction l as [|x t IH]; intros H; simpl; constructor.
  - apply H. now left.
  - apply IH. intros; apply H; now right.
Qed.

Section Downsampling.
Variable filtered : list Sample.
Variable B : Z.
Let n := len filtered.
Hypothesis HB : 0 < B < n.
Hypothesis Hsize : 3 * n * B < 2 ^ 53.

Let d : Sample := (0, 0%float).
Let pick (k : nat) : Sample :=
  nth (Z.to_nat (sample_index n B (Z.of_nat k))) filtered d.

Lemma picks_range_map :
  picks filtered B (py_range 0 B 1) = map pick (seq 0 (Z.to_nat B)).
Proof.
  rewrite py_range_0. unfold picks. fold n.
  set (F := fun i : Z =>
              let idx := sample_index n B i in
              if idx <? n
              then match nth_error filtered (Z.to_nat idx) with
                   | Some s => [s]
                   | None => []
                   end
              else []).
  assert (G : forall l : list nat,
             (forall k, In k l -> (k < Z.to_nat B)%nat) ->
             flat_map F (map Z.of_nat l) = map pick l).
  { induction l as [|k t IH]; intros Hl; [reflexivity|].
    cbn [map flat_map]. rewrite IH by (intros; apply Hl; now right).
    unfold F at 1. cbv zeta.
    assert (Hk : 0 <= Z.of_nat k < B) by (specialize (Hl k (or_introl eq_refl)); lia).
    pose proof (sample_index_range n B HB Hsize _ Hk) as Hr.
    destruct (Z.ltb_spec (sample_index n B (Z.of_nat k)) n); [|lia].
    rewrite (nth_error_nth' filtered d) by (unfold n, len in *; lia).
    reflexivity. }
  apply G. intros k Hk. apply in_seq in Hk. lia.
Qed.

Lemma picks_are_indexed :
  Forall2 (fun i s =>
             item filtered (sample_index n B i) = Ret s /\
             (sample_index n B i = i * n / B \/
              (sample_index n B i = i * n / B - 1 /\ (i * n) mod B = 0)))
          (py_range 0 B 1) (picks filtered B (py_range 0 B 1)).
Proof.
  rewrite picks_range_map, py_range_0. apply Forall2_map_same.
  intros k Hk. apply in_seq in Hk.
  assert (Hk' : 0 <= Z.of_nat k < B) by lia.
  pose proof (sample_index_range n B HB Hsize _ Hk') as Hr. split.
  - apply item_nonneg; [lia|]. unfold pick.
    apply nth_error_nth'. unfold n, len in *. lia.
  - destruct (sample_index_floor n B _ HB Hk' Hsize) as [E|(E & Hm & _)]; auto.
Qed.

Lemma picks_subseq_front :
  subseq (picks filtered B (py_range 0 B 1) ++ skipn (Z.to_nat (n - 1)) filtered)
         filtered.
Proof.
  rewrite picks_range_map.
  set (c := Z.to_nat B).
  set (f := fun k : nat =>
              if (k <? c)%nat then Z.to_nat (sample_index n B (Z.of_nat k))
              else Z.to_nat (n - 1)).
  assert (Hlast : skipn (Z.to_nat (n - 1)) filtered = [nth (f c) filtered d]).
  { unfold f. rewrite Nat.ltb_irrefl.
    assert (Hlen : List.length filtered = S (Z.to_nat (n - 1))) by (unfold n, len in *; lia).
    rewrite (skipn_nth_split d filtered (Z.to_nat (n - 1)) (Z.to_nat (n - 1))) by lia.
    rewrite Nat.sub_diag. cbn [firstn app]. f_equal.
    apply skipn_all2. lia. }
  assert (Hmap : map pick (seq 0 c) = map (fun k => nth (f k) filtered d) (seq 0 c)).
  { apply map_ext_in. intros k Hk. apply in_seq in Hk. unfold pick, f.
    destruct (Nat.ltb_spec k c); [reflexivity|lia]. }
  rewrite Hmap, Hlast.
  change [nth (f c) filtered d] with (map (fun k => nth (f k) filtered d) [c]).
  rewrite <- map_app. change [c] with (seq (0 + c) 1). rewrite <- seq_app.
  change filtered with (skipn 0 filtered) at 2.
  apply subseq_of_increasing.
  - intros k Hk. unfold f. destruct (Nat.ltb_spec k c).
    + pose proof (sample_index_range n B HB Hsize (Z.of_nat k)) as Hr.
      unfold n, len in *. lia.
    + unfold n, len in *. lia.
  - intros k _ Hk. unfold f.
    destruct (Nat.ltb_spec k c); [|lia].
    pose proof (sample_index_range n B HB Hsize (Z.of_nat k)) as Hr.
    destruct (Nat.ltb_spec (S k) c).
    + pose proof (sample_index_increasing n B HB Hsize (Z.of_nat k)) as Hinc.
      pose proof (sample_index_range n B HB Hsize (Z.of_nat (S k))) as Hr'.
      replace (Z.of_nat (S k)) with (Z.of_nat k + 1) in * by lia. lia.
    + lia.
  - right. lia.
Qed.
End Downsampling.

Lemma downsample_negative (filtered : list Sample) (B : Z) :
  B < 0 -> downsample filtered B = Ret ([], no_range).
Proof.
  intros HB. unfold downsample. rewrite truediv_ints by lia. cbn [rbind].
  rewrite py_range_0. replace (Z.to_nat B) with O by lia. reflexivity.
Qed.

Lemma forced_tail_cases (result filtered : list Sample) :
  forced_tail result filtered = [] \/
  exists front f_last, filtered = front ++ [f_last] /\ forced_tail result filtered = [f_last].
Proof.
  unfold forced_tail. destruct (rev result) as [|r rr]; [now left|].
  destruct (rev filtered) as [|f ff] eqn:E; [now left|].
  destruct (sample_neq r f); [|now left]. right. exists (rev ff), f. split; [|reflexivity].
  apply (f_equal (@rev Sample)) in E. now rewrite rev_involutive in E.
Qed.

Lemma skipn_last {A : Type} (front : list A) (x : A) :
  skipn (Z.to_nat (len (front ++ [x]) - 1)) (front ++ [x]) = [x].
Proof.
  rewrite len_app. change (len [x]) with 1.
  replace (Z.to_nat (len front + 1 - 1)) with (List.length front) by (unfold len; lia).
  rewrite skipn_app, Nat.sub_diag, skipn_all. reflexivity.
Qed.

Lemma downsample_subseq (filtered : list Sample) (B : Z) :
  0 < B < len filtered -> 3 * len filtered * B < 2 ^ 53 ->
  subseq (picks filtered B (py_range 0 B 1)
            ++ forced_tail (picks filtered B (py_range 0 B 1)) filtered)
         filtered.
Proof.
  intros HB Hsize.
  pose proof (picks_subseq_front filtered B HB Hsize) as H.
  set (result := picks filtered B (py_range 0 B 1)) in *.
  destruct (forced_tail_cases result filtered) as [->|(front & f_last & Ef & ->)].
  - eapply subseq_trans; [|exact H].
    apply subseq_app; [apply subseq_refl|apply subseq_nil_l].
  - assert (E : skipn (Z.to_nat (len filtered - 1)) filtered = [f_last])
      by (rewrite Ef; apply skipn_last).
    now rewrite E in H.
Qed.

Lemma Forall2_len {A B : Type} (P : A -> B -> Prop) (l1 : list A) (l2 : list B) :
  Forall2 P l1 l2 -> len l1 = len l2.
Proof. intros H. unfold len. now rewrite (Forall2_length H). Qed.

Lemma len_py_range_0 (B : Z) : 0 <= B -> len (py_range 0 B 1) = B.
Proof.
  intros HB. rewrite py_range_0. unfold len. rewrite length_map, length_seq. lia.
Qed.

(** C4, as the code has it.  For an input of length [n] above the budget [B]
    (with [3 * n * B < 2^53], far beyond any list in memory) the downsampling
    returns, for [i = 0 .. B-1] in order, the sample at index
    [int(i * (n / B))], quotient and product each rounded to a double: that
    index is [floor(i * n / B)], or one less when [i * n / B] is an integer
    and the rounded product falls short of it; then it appends the final
    input sample when the last selected one differs from it.  The output has
    [B] or [B + 1] samples and its last one equals the last input sample. *)
Theorem downsample_picks_rounded_indices (filtered : list Sample) (B : Z) :
  let n := len filtered in
  0 < B < n ->
  3 * n * B < 2 ^ 53 ->
  exists result tail mm r_last f_last o_last,
    downsample filtered B = Ret (result ++ tail, mm) /\
    Forall2 (fun i s =>
               item filtered (sample_index n B i) = Ret s /\
               (sample_index n B i = i * n / B \/
                (sample_index n B i = i * n / B - 1 /\ (i * n) mod B = 0)))
            (py_range 0 B 1) result /\
    len result = B /\
    item result (-1) = Ret r_last /\
    item filtered (-1) = Ret f_last /\
    tail = (if sample_neq r_last f_last then [f_last] else []) /\
    (len (result ++ tail) = B \/ len (result ++ tail) = B + 1) /\
    item (result ++ tail) (-1) = Ret o_last /\
    (o_last = f_last \/ sample_neq o_last f_last = false) /\
    (forall data period now out y_min y_max,
        fst (select_window data period now) = filtered ->
        process_data data period B now = Ret (out, y_min, y_max) ->
        out = result ++ tail).
Proof.
  intros n HB Hsize.
  pose proof (downsample_spec filtered B (proj1 HB)) as Hd. cbv zeta in Hd.
  pose proof (picks_are_indexed filtered B HB Hsize) as Hidx. fold n in Hidx.
  set (result := picks filtered B (py_range 0 B 1)) in *.
  assert (Hlen : len result = B).
  { rewrite <- (Forall2_len _ _ _ Hidx). apply len_py_range_0. lia. }
  destruct (exists_last (l := result)) as (rl & r_last & Er).
  { intros E. rewrite E in Hlen. unfold len in Hlen. simpl in Hlen. lia. }
  destruct (exists_last (l := filtered)) as (fl & f_last & Ef).
  { intros E. unfold n in HB. rewrite E in HB. unfold len in HB. simpl in HB. lia. }
  assert (Ht : forced_tail result filtered
               = if sample_neq r_last f_last then [f_last] else []).
  { unfold forced_tail. rewrite Er, Ef, !rev_unit. reflexivity. }
  rewrite Ht in Hd.
  exists result, (if sample_neq r_last f_last then [f_last] else []),
    (fold_left track
       (map snd (result ++ (if sample_neq r_last f_last then [f_last] else [])))
       no_range),
    r_last, f_last, (if sample_neq r_last f_last then f_last else r_last).
  split; [exact Hd|]. split; [exact Hidx|]. split; [exact Hlen|].
  split; [rewrite Er; apply item_last|].
  split; [rewrite Ef; apply item_last|].
  split; [reflexivity|].
  split; [|split; [|split]].
  - rewrite len_app, Hlen. destruct (sample_neq r_last f_last).
    + right. reflexivity.
    + left. change (len []) with 0. lia.
  - destruct (sample_neq r_last f_last).
    + apply item_last.
    + rewrite app_nil_r, Er. apply item_last.
  - destruct (sample_neq r_last f_last) eqn:E; [now left|now right].
  - intros data period now out y_min y_max Hf Hp.
    unfold process_data in Hp. destruct data as [|s0 t].
    + exfalso. unfold n in HB. rewrite <- Hf in HB. cbn in HB. lia.
    + unfold resampled in Hp. rewrite Hf in Hp.
      destruct (Z.ltb_spec B (len filtered)) as [_|Hge]; [|unfold n in HB; lia].
      rewrite Hd in Hp. cbn [rbind fst snd] in Hp.
      destruct (y_range _) as [yy|]; [|discriminate]. cbn [rbind] in Hp.
      now injection Hp as <- _ _.
Qed.

Lemma downsample_picks_rounded_indices_witness :
  exists out mm,
    downsample (ramp 1000) 500 = Ret (out, mm) /\
    (len out = 500 \/ len out = 501).
Proof.
  destruct (downsample_picks_rounded_indices (ramp 1000) 500)
    as (result & tail & mm & r_last & f_last & o_last & Hd & _ & _ & _ & _ & _ & Hlen & _).
  - vm_compute. split; reflexivity.
  - vm_compute. reflexivity.
  - exists (result ++ tail), mm. split; [exact Hd|exact Hlen].
Defined.

(** C4 as stated fails: with 564 samples and a budget of 500, the sample
    selected for [i = 375] is the one at index 422, whereas
    [floor(375 * 564 / 500)] is 423.  The index model and the primitive
    floats agree on it. *)
Lemma rounded_index_misses_the_exact_quotient :
  sample_index 564 500 375 = 422 /\
  sample_index_prim 564 500 375 = Ret 422 /\
  375 * 564 / 500 = 423 /\
  nth_error (samples_of (process_data (ramp 564) "D" 500 1000)) 375
    = Some (422, 1%float) /\
  nth_error (ramp 564) (Z.to_nat (375 * 564 / 500)) = Some (423, 1%float).
Proof. repeat split; vm_compute; reflexivity. Qed.

(** C9. For a non-empty input and a budget other than 0 (with
    [3 * len * B < 2^53]) the resampler returns a subsequence of its input:
    every returned sample is an input sample, in the input's order, whether
    it comes from the window filter, from the last-K fallback or from the
    downsampling; samples within the budget are returned as they are. *)
Theorem resampler_returns_a_subsequence
    (data : list Sample) (period : string) (B : Z) (now : Q) :
  data <> [] ->
  B <> 0 ->
  3 * len data * B < 2 ^ 53 ->
  let cutoff := num_sub (PyFloat now) (PyInt (dict_get period_seconds period (24 * 3600))) in
  let kept := filter (in_window cutoff) data in
  let filtered := match kept with
                  | [] => last_n (dict_get fallback_points period 1440) data
                  | _ => kept
                  end in
  exists out mm,
    resampled data period B now = Ret (out, mm) /\
    subseq filtered data /\
    subseq out filtered /\
    subseq out data /\
    (forall s, In s out -> In s data) /\
    (len filtered <= B -> out = filtered) /\
    (forall o y_min y_max,
        process_data data period B now = Ret (o, y_min, y_max) -> o = out).
Proof.
  intros Hne HB0 Hsize cutoff kept filtered.
  pose proof (select_window_cases data period now) as Hf. cbv zeta in Hf.
  fold cutoff in Hf. fold kept in Hf. fold filtered in Hf.
  pose proof (select_window_subseq data period now) as Hsub. rewrite Hf in Hsub.
  assert (Hlenf : 0 <= len filtered <= len data).
  { split; [apply len_nonneg|]. unfold filtered, last_n.
    destruct kept eqn:E.
    - rewrite len_drop. pose proof (len_nonneg data). lia.
    - rewrite <- E. unfold kept, len. pose proof (filter_length_le (in_window cutoff) data). lia. }
  assert (Hres : exists out mm,
             resampled data period B now = Ret (out, mm) /\ subseq out filtered /\
             (len filtered <= B -> out = filtered)).
  { unfold resampled. rewrite Hf.
    destruct (Z.ltb_spec B (len filtered)) as [Hlt|Hge].
    - destruct (Z.lt_total B 0) as [Hneg|[Hz|Hpos]]; [|congruence|].
      + rewrite downsample_negative by exact Hneg.
        exists [], no_range. split; [reflexivity|]. split; [apply subseq_nil_l|lia].
      + rewrite downsample_spec by exact Hpos.
        eexists. eexists. split; [reflexivity|]. split; [|lia].
        apply downsample_subseq; [lia|nia].
    - destruct (select_window data period now) as [f mm] eqn:E. cbn [fst] in Hf.
      subst f. exists filtered, mm. split; [reflexivity|].
      split; [apply subseq_refl|reflexivity]. }
  destruct Hres as (out & mm & Hr & Hso & Hsame).
  exists out, mm. split; [exact Hr|]. split; [exact Hsub|]. split; [exact Hso|].
  assert (Hsd : subseq out data) by (eapply subseq_trans; eassumption).
  split; [exact Hsd|]. split; [intros s; now apply subseq_In|].
  split; [exact Hsame|].
  intros o y_min y_max Hp. unfold process_data in Hp.
  destruct data as [|s0 t]; [congruence|].
  rewrite Hr in Hp. cbn [rbind fst snd] in Hp.
  destruct (y_range mm) as [yy|]; [|discriminate]. cbn [rbind] in Hp.
  now injection Hp as <- _ _.
Qed.

Lemma resampler_returns_a_subsequence_witness :
  exists out mm,
    resampled (ramp 20) "h" 8 10000 = Ret (out, mm) /\
    subseq out (ramp 20).
Proof.
  destruct (resampler_returns_a_subsequence (ramp 20) "h" 8 10000)
    as (out & mm & Hr & _ & _ & Hs & _).
  - discriminate.
  - lia.
  - vm_compute. reflexivity.
  - exists out, mm. split; [exact Hr|exact Hs].
Defined.

(** ** The number model against the primitive floats *)

(** On the indices of two downsamplings and on the five thresholds of the
    archive selector, [rnd64] gives what binary64 arithmetic gives. *)
Example rounding_model_matches_primitive_floats :
  forallb (fun i => match sample_index_prim 564 500 i with
                    | Ret z => z =? sample_index 564 500 i
                    | Raise _ => false
                    end) (py_range 0 500 1) = true /\
  forallb (fun i => match sample_index_prim 1201 500 i with
                    | Ret z => z =? sample_index 1201 500 i
                    | Raise _ => false
                    end) (py_range 0 500 1) = true /\
  map (fun d => math_floor (Z2F d * 0.8)%float) [3600; 86400; 604800; 2592000; 31536000]
    = map (fun d => Ret (py_int (num_mul (PyInt d) lit_0_8)))
          [3600; 86400; 604800; 2592000; 31536000] /\
  map (fun d => num_val (num_mul (PyInt d) lit_0_8)) [3600; 86400; 604800; 2592000; 31536000]
    = [2880; 69120; 483840; 2073600; 25228800]%Q.
Proof. repeat split; vm_compute; reflexivity. Qed.


(* ================================================================== *)
(** * Further properties *)

(** ** What the format parser reads *)

Lemma byte_val_range (b : byte) : 0 <= byte_val b < 256.
Proof. unfold byte_val. pose proof (Byte.to_N_bounded b). lia. Qed.

Lemma be_uint_from_range :
  forall bs acc, 0 <= acc ->
    acc * 256 ^ len bs
    <= fold_left (fun a b => a * 256 + byte_val b) bs acc
    < (acc + 1) * 256 ^ len bs.
Proof.
  induction bs as [|b t IH]; intros acc Hacc.
  - cbn. lia.
  - cbn [fold_left]. pose proof (byte_val_range b) as Hb.
    specialize (IH (acc * 256 + byte_val b) ltac:(lia)).
    replace (len (b :: t)) with (len t + 1) by (unfold len; simpl List.length; lia).
    rewrite Z.pow_add_r by (pose proof (len_nonneg t); lia).
    change (256 ^ 1) with 256.
    pose proof (Z.pow_pos_nonneg 256 (len t) ltac:(lia) (len_nonneg t)) as Hp.
    nia.
Qed.

(** An unsigned integer of [n] bytes lies in [0, 256^n). *)
Lemma be_uint_range (bs : list byte) : 0 <= be_uint bs < 256 ^ len bs.
Proof. pose proof (be_uint_from_range bs 0 ltac:(lia)) as H. unfold be_uint. lia. Qed.

Lemma unpack_QIIQ_range (bs : list byte) (a b c d : Z) :
  unpack_QIIQ bs = Some (a, b, c, d) ->
  0 <= a < 2 ^ 64 /\ 0 <= b < 2 ^ 32 /\ 0 <= c < 2 ^ 32 /\ 0 <= d < 2 ^ 64.
Proof.
  unfold unpack_QIIQ. destruct (Z.eqb_spec (len bs) 24) as [E|]; [|discriminate].
  intros H. injection H as <- <- <- <-.
  pose proof (be_uint_range (slice bs 0 8)) as H1.
  pose proof (be_uint_range (slice bs 8 12)) as H2.
  pose proof (be_uint_range (slice bs 12 16)) as H3.
  pose proof (be_uint_range (slice bs 16 24)) as H4.
  assert (L1 : len (slice bs 0 8) = 8) by (apply (len_slice_inside bs 0 8); lia).
  assert (L2 : len (slice bs 8 12) = 4) by (apply (len_slice_inside bs 8 4); lia).
  assert (L3 : len (slice bs 12 16) = 4) by (apply (len_slice_inside bs 12 4); lia).
  assert (L4 : len (slice bs 16 24) = 8) by (apply (len_slice_inside bs 16 8); lia).
  rewrite L1 in H1. rewrite L2 in H2. rewrite L3 in H3. rewrite L4 in H4.
  change (256 ^ 8) with (2 ^ 64) in *. change (256 ^ 4) with (2 ^ 32) in *. auto.
Qed.
Lemma reorder_perm (p : Z) (v : list float) : Permutation (reorder p v) v.
Proof.
  destruct (reorder_spec p v) as [Hrot Hid].
  destruct (Z.lt_ge_cases 0 p) as [Hp|Hp]; [destruct (Z.lt_ge_cases p (len v)) as [Hq|Hq]|].
  - rewrite (Hrot (conj Hp Hq)). rewrite Permutation_app_comm. now rewrite firstn_skipn.
  - rewrite Hid by lia. reflexivity.
  - rewrite Hid by lia. reflexivity.
Qed.

Lemma reorder_len (p : Z) (v : list float) : len (reorder p v) = len v.
Proof. unfold len. now rewrite (Permutation_length (reorder_perm p v)). Qed.


(** X1. The circular buffer is rotated, never altered: the chronological
    values are a permutation of the stored ones of the same length, value
    [i] is the stored value at slot [(p + i) mod n] for a write pointer
    [0 <= p < n], and a pointer at or past the end leaves the order alone. *)
Theorem reorder_is_a_rotation (p : Z) (v : list float) :
  len (reorder p v) = len v /\
  Permutation (reorder p v) v /\
  (0 <= p < len v ->
   forall i, 0 <= i < len v ->
     nth_error (reorder p v) (Z.to_nat i)
     = nth_error v (Z.to_nat ((p + i) mod len v))) /\
  (len v <= p -> reorder p v = v).
Proof.
  destruct (reorder_spec p v) as [Hrot Hid].
  destruct (Z.lt_ge_cases 0 p) as [Hp|Hp]; [destruct (Z.lt_ge_cases p (len v)) as [Hq|Hq]|].
  - rewrite (Hrot (conj Hp Hq)).
    assert (Hl : List.length v = (Z.to_nat p + (List.length v - Z.to_nat p))%nat)
      by (unfold len in Hq; lia).
    split; [|split; [|split]].
    + rewrite len_app. unfold len. rewrite length_skipn, length_firstn.
      unfold len in Hq. lia.
    + rewrite Permutation_app_comm. now rewrite firstn_skipn.
    + intros _ i Hi.
      assert (Hls : List.length (skipn (Z.to_nat p) v) = (List.length v - Z.to_nat p)%nat)
        by apply length_skipn.
      destruct (Z.lt_ge_cases (p + i) (len v)) as [Hlt|Hge].
      * rewrite Z.mod_small by lia.
        rewrite nth_error_app1 by (rewrite Hls; unfold len in *; lia).
        rewrite nth_error_skipn. f_equal. lia.
      * replace ((p + i) mod len v) with (p + i - len v).
        2:{ apply Z.mod_unique with (q := 1); lia. }
        rewrite nth_error_app2 by (rewrite Hls; unfold len in *; lia).
        rewrite Hls, nth_error_firstn.
        destruct (Nat.ltb_spec (Z.to_nat i - (List.length v - Z.to_nat p))
                               (Z.to_nat p)) as [_|Hbad];
          [|unfold len in *; lia].
        f_equal. unfold len in *. lia.
    + lia.
  - rewrite Hid by lia. split; [reflexivity|]. split; [reflexivity|].
    split; [lia|reflexivity].
  - rewrite Hid by lia. split; [reflexivity|]. split; [reflexivity|].
    split; [|reflexivity].
    intros Hp0 i Hi. replace p with 0 by lia. cbn [Z.add].
    now rewrite Z.mod_small by lia.
Qed.

Lemma reorder_is_a_rotation_witness :
  nth_error (reorder 1 [3; 1; 2]%float) (Z.to_nat 2)
  = nth_error [3; 1; 2]%float (Z.to_nat ((1 + 2) mod 3)).
Proof.
  destruct (reorder_is_a_rotation 1 [3; 1; 2]%float) as (_ & _ & H & _).
  apply H; cbn; lia.
Defined.

Lemma slice_full_needs_room {A : Type} (l : list A) (a n : Z) :
  0 <= a -> 0 < n -> len (slice l a (a + n)) = n -> a + n <= len l.
Proof.
  intros Ha Hn. unfold slice. replace (a + n - a) with n by lia.
  rewrite len_take, len_drop. pose proof (len_nonneg l). lia.
Qed.

Lemma read_header_needs_64 (data : list byte) (now : Q) :
  (exists h, read_header data now = Ret h) <-> 64 <= len data.
Proof.
  unfold read_header, unpack_QIIQ. change (40 + 24) with 64. split.
  - intros (h & H).
    destruct (Z.eqb_spec (len (slice data 40 64)) 24) as [E|]; [|discriminate].
    apply (slice_full_needs_room data 40 24); [lia|lia|exact E].
  - intros H.
    assert (E : len (slice data 40 64) = 24) by (apply (len_slice_inside data 40 24); lia).
    rewrite E. cbn. eexists. reflexivity.
Qed.

Lemma read_header_ranges (data : list byte) (now : Q)
    (step ds_count arc_count last_update : Z) :
  read_header data now = Ret (step, ds_count, arc_count, last_update) ->
  1 <= step <= 86400 /\
  0 <= ds_count < 2 ^ 32 /\
  0 <= arc_count < 2 ^ 32 /\
  (1577836800 <= last_update <= 2000000000 \/ last_update = Qtrunc now).
Proof.
  intros H.
  destruct (read_header_inv _ _ _ _ _ _ H) as (s0 & l0 & Hu & -> & ->).
  destruct (unpack_QIIQ_range _ _ _ _ _ Hu) as (Hs & Hd & Ha & Hl).
  split; [|split; [exact Hd|split; [exact Ha|]]].
  - destruct (Z.leb_spec 1 s0), (Z.leb_spec s0 86400); cbn; lia.
  - destruct (Z.leb_spec 1577836800 l0), (Z.leb_spec l0 2000000000); cbn; auto; left; lia.
Qed.

(** X2. The header is read exactly when the file has its 64 bytes, and what
    comes out is sanitised: the step lies in [1, 86400], the counts are
    unsigned 32-bit numbers, and the last update lies in
    [1577836800, 2000000000] or is the clock truncated to an int. *)
Theorem header_is_sanitised (data : list byte) (now : Q) :
  ((exists h, read_header data now = Ret h) <-> 64 <= len data) /\
  (forall step ds_count arc_count last_update,
     read_header data now = Ret (step, ds_count, arc_count, last_update) ->
     1 <= step <= 86400 /\
     0 <= ds_count < 2 ^ 32 /\
     0 <= arc_count < 2 ^ 32 /\
     (1577836800 <= last_update <= 2000000000 \/ last_update = Qtrunc now)).
Proof.
  split; [apply read_header_needs_64|].
  intros step ds ac lu H. now apply (read_header_ranges data now).
Qed.

Lemma header_is_sanitised_witness :
  read_header file_five_rows 1700000000 = Ret (60, 1, 1, 1700000000) /\
  1 <= 60 <= 86400.
Proof.
  assert (H : read_header file_five_rows 1700000000 = Ret (60, 1, 1, 1700000000))
    by (vm_compute; reflexivity).
  split; [exact H|].
  destruct (header_is_sanitised file_five_rows 1700000000) as (_ & G).
  exact (proj1 (G _ _ _ _ H)).
Defined.

Lemma unpack_II_range (bs : list byte) (a b : Z) :
  unpack_II bs = Some (a, b) -> 0 <= a < 2 ^ 32 /\ 0 <= b < 2 ^ 32.
Proof.
  unfold unpack_II. destruct (Z.eqb_spec (len bs) 8) as [E|]; [|discriminate].
  intros H. injection H as <- <-.
  pose proof (be_uint_range (slice bs 0 4)) as H1.
  pose proof (be_uint_range (slice bs 4 8)) as H2.
  assert (L1 : len (slice bs 0 4) = 4) by (apply (len_slice_inside bs 0 4); lia).
  assert (L2 : len (slice bs 4 8) = 4) by (apply (len_slice_inside bs 4 4); lia).
  rewrite L1 in H1. rewrite L2 in H2. change (256 ^ 4) with (2 ^ 32) in *. auto.
Qed.

Lemma unpack_I_range (bs : list byte) (a : Z) :
  unpack_I bs = Some a -> 0 <= a < 2 ^ 32.
Proof.
  unfold unpack_I. destruct (Z.eqb_spec (len bs) 4) as [E|]; [|discriminate].
  intros H. injection H as <-. pose proof (be_uint_range bs) as H1.
  rewrite E in H1. exact H1.
Qed.


(** What one archive takes from the file. *)
Lemma read_archive_facts (data : list byte) (ds_count offset : Z)
    (arc : archive) (offset' : Z) :
  0 <= ds_count -> 0 <= offset ->
  read_archive data ds_count offset = Ret (arc, offset') ->
  0 <= steps arc < 2 ^ 32 /\ 0 <= rows arc < 2 ^ 32 /\ 0 <= pointer arc < 2 ^ 32 /\
  len (values arc) = rows arc /\
  offset + 60 + rows arc * 8 <= offset' /\
  offset + 60 + rows arc * 8 <= len data.
Proof.
  intros Hds Hoff H.
  destruct (read_archive_inv _ _ _ _ _ H) as (v & HII & HI & Hv & Hval).
  destruct (unpack_II_range _ _ _ HII) as [Hs Hr].
  pose proof (unpack_I_range _ _ HI) as Hp.
  pose proof (unpack_doubles_len _ _ _ Hv) as Hlen.
  split; [exact Hs|]. split; [exact Hr|]. split; [exact Hp|]. split.
  { rewrite Hval. rewrite reorder_len. exact Hlen. }
  split.
  - unfold read_archive in H. rewrite HII in H. cbn [unpacked rbind] in H.
    rewrite HI in H. cbn [unpacked rbind] in H. rewrite Hv in H.
    cbn [unpacked rbind] in H.
    set (M := Z.max 0 (ds_count - 1) * _) in H.
    assert (0 <= M) by (apply Z.mul_nonneg_nonneg; lia).
    clearbody M. injection H as _ <-. lia.
  - assert (Hptr : offset + 56 + ds_count * 16 + 4 <= len data).
    { unfold unpack_I in HI.
      destruct (Z.eqb_spec (len (slice data (offset + 56 + ds_count * 16)
                                       (offset + 56 + ds_count * 16 + 4))) 4) as [E|];
        [|discriminate].
      apply (slice_full_needs_room data (offset + 56 + ds_count * 16) 4);
        [nia|lia|exact E]. }
    destruct (Z.eq_dec (rows arc) 0) as [R0|R0]; [lia|].
    unfold unpack_doubles in Hv.
    destruct (Z.eqb_spec
                (len (slice data (offset + 56 + ds_count * 16 + 4)
                            (offset + 56 + ds_count * 16 + 4 + rows arc * 8)))
                (8 * rows arc)) as [E|]; [|discriminate].
    assert (offset + 56 + ds_count * 16 + 4 + rows arc * 8 <= len data); [|lia].
    apply (slice_full_needs_room data (offset + 56 + ds_count * 16 + 4) (rows arc * 8));
      [nia|lia|lia].
Qed.

Lemma read_archives_need_room (data : list byte) (ds_count : Z) :
  0 <= ds_count ->
  forall n offset l,
    0 <= offset ->
    read_archives n data ds_count offset = Ret l ->
    List.length l = n /\
    Forall (fun arc => 0 <= rows arc /\
                       offset + 60 * Z.of_nat n + rows arc * 8 <= len data) l.
Proof.
  intros Hds. induction n as [|n IH]; intros offset l Hoff; cbn [read_archives].
  - intros H. injection H as <-. auto.
  - destruct (read_archive data ds_count offset) as [[arc o]|] eqn:E; [|discriminate].
    cbn [rbind snd fst].
    destruct (read_archives n data ds_count o) as [rest|] eqn:E'; [|discriminate].
    cbn [rbind]. intros H. injection H as <-.
    destruct (read_archive_facts _ _ _ _ _ Hds Hoff E)
      as (_ & Hr & _ & _ & Ho & Hroom).
    destruct (IH o rest ltac:(lia) E') as [Hlen Hn].
    split; [simpl; now rewrite Hlen|].
    constructor.
    + split; [lia|]. destruct rest as [|b rest'].
      * simpl in Hlen. subst n. lia.
      * inversion Hn as [|? ? [Hb0 Hb] _]. subst. lia.
    + eapply Forall_impl; [|exact Hn]. cbv beta. intros a Ha. lia.
Qed.

(** ** What a successful parse looks like *)

(** The steps of [parse_rrd4j_file] behind a result. *)
Lemma parse_rrd4j_file_inv (data : list byte) (period : string) (now : Q)
    (pairs : list Sample) :
  parse_rrd4j_file data period now = Some pairs ->
  exists step ds_count arc_count last_update archive_data selected,
    read_header data now = Ret (step, ds_count, arc_count, last_update) /\
    read_archives (Z.to_nat arc_count) data ds_count (40 + 24 + ds_count * 128)
      = Ret archive_data /\
    select_archive step period archive_data = Ret selected /\
    In selected archive_data /\
    pairs = build_pairs last_update (step * steps selected) (values selected) /\
    pairs <> [].
Proof.
  unfold parse_rrd4j_file, parse_body.
  destruct (read_header data now) as [[[[step ds] ac] lu]|] eqn:Hh; [|discriminate].
  cbn [rbind].
  destruct (read_archives _ _ _ _) as [archive_data|] eqn:Ha; [|discriminate].
  cbn [rbind].
  destruct (select_archive step period archive_data) as [selected|] eqn:Hs;
    [|discriminate].
  cbn [rbind catch]. intros H.
  exists step, ds, ac, lu, archive_data, selected.
  split; [reflexivity|]. split; [exact Ha|]. split; [exact Hs|].
  split.
  - destruct archive_data as [|a l]; [discriminate|].
    destruct (select_archive_spec step period (a :: l) ltac:(discriminate))
      as (pre & b & post & E & Hb & _).
    rewrite Hs in Hb. injection Hb as <-. rewrite E. apply in_elt.
  - destruct (build_pairs _ _ _) as [|p t]; [discriminate|].
    injection H as <-. split; [reflexivity|discriminate].
Qed.

(** The pairs built from index [i] on carry finite values and timestamps
    on the grid, and any relation that holds between the grid points of two
    indices in order holds along the list. *)
Lemma pairs_from_grid (last_update arc_step n : Z) :
  forall vals i,
    Forall (fun s => finite (snd s) = true /\
                     exists k, i <= k < i + len vals /\
                               fst s = last_update - (n - k - 1) * arc_step)
           (pairs_from last_update arc_step n i vals).
Proof.
  induction vals as [|v t IH]; intros i; cbn [pairs_from]; [constructor|].
  assert (Hl : len (v :: t) = len t + 1) by (unfold len; simpl List.length; lia).
  pose proof (len_nonneg t) as Ht.
  assert (Htail : Forall (fun s => finite (snd s) = true /\
                     exists k, i <= k < i + len (v :: t) /\
                               fst s = last_update - (n - k - 1) * arc_step)
                   (pairs_from last_update arc_step n (i + 1) t)).
  { eapply Forall_impl; [|apply IH]. cbv beta. intros s (Hf & k & Hk & E).
    split; [exact Hf|]. exists k. split; [lia|exact E]. }
  destruct (finite v) eqn:Hv; [|exact Htail].
  constructor; [|exact Htail]. split; [exact Hv|]. exists i. split; [lia|reflexivity].
Qed.

Lemma pairs_from_sorted (R : Z -> Z -> Prop) (last_update arc_step n : Z) :
  (forall k k', k < k' ->
     R (last_update - (n - k - 1) * arc_step) (last_update - (n - k' - 1) * arc_step)) ->
  forall vals i,
    StronglySorted (fun a b : Sample => R (fst a) (fst b))
                   (pairs_from last_update arc_step n i vals).
Proof.
  intros HR. induction vals as [|v t IH]; intros i; cbn [pairs_from]; [constructor|].
  destruct (finite v); [|apply IH].
  constructor; [apply IH|].
  eapply Forall_impl; [|apply (pairs_from_grid last_update arc_step n t (i + 1))].
  cbv beta. intros s (_ & k & Hk & ->). cbn [fst]. apply HR. lia.
Qed.

Lemma len_pairs_from (last_update arc_step n : Z) :
  forall vals i, len (pairs_from last_update arc_step n i vals) <= len vals.
Proof.
  induction vals as [|v t IH]; intros i; cbn [pairs_from]; [reflexivity|].
  specialize (IH (i + 1)).
  assert (Hl : len (v :: t) = len t + 1) by (unfold len; simpl List.length; lia).
  destruct (finite v); [|lia].
  unfold len in *. simpl List.length. lia.
Qed.

(** A successful parse is the list of pairs of some archive, on some grid. *)
Lemma parse_rrd4j_file_grid
    (data : list byte) (period : string) (now : Q) (pairs : list Sample) :
  parse_rrd4j_file data period now = Some pairs ->
  exists L S vals,
    (1577836800 <= L <= 2000000000 \/ L = Qtrunc now) /\
    0 <= S /\
    len vals < 2 ^ 32 /\
    pairs = pairs_from L S (len vals) 0 vals /\
    pairs <> [].
Proof.
  intros H.
  destruct (parse_rrd4j_file_inv _ _ _ _ H)
    as (step & ds & ac & lu & archive_data & sel & Hh & Ha & _ & Hin & -> & Hne).
  destruct (read_header_ranges _ _ _ _ _ _ Hh) as (Hstep & Hds & Hac & Hlu).
  assert (F : Forall (fun a => 0 <= steps a /\ len (values a) < 2 ^ 32) archive_data).
  { apply (read_archives_Forall _ data ds) with (2 := Ha).
    intros o a o' E.
    destruct (read_archive_inv _ _ _ _ _ E) as (v & HII & _ & Hv & Hval).
    destruct (unpack_II_range _ _ _ HII) as [Hs Hr].
    rewrite Hval, reorder_len, (unpack_doubles_len _ _ _ Hv). lia. }
  rewrite Forall_forall in F. destruct (F _ Hin) as [Hsteps Hlen].
  exists lu, (step * steps sel), (values sel).
  split; [exact Hlu|]. split; [nia|]. split; [exact Hlen|].
  split; [reflexivity|exact Hne].
Qed.


(** X3. Whatever file the format parser accepts, the samples it returns
    are well formed: there is at least one and fewer than 2^32, every value
    is finite, no timestamp is later than the effective last update [L]
    (the stored one when it lies in [1577836800, 2000000000], else the
    clock), each timestamp is [L - j * S] for a row distance [0 <= j < 2^32]
    and the archive step [S >= 0], and the timestamps never decrease along
    the list (they increase strictly when [S > 0]). *)
Theorem parsed_samples_are_well_formed
    (data : list byte) (period : string) (now : Q) (pairs : list Sample) :
  parse_rrd4j_file data period now = Some pairs ->
  0 < len pairs < 2 ^ 32 /\
  Forall (fun s => finite (snd s) = true) pairs /\
  exists L S,
    (1577836800 <= L <= 2000000000 \/ L = Qtrunc now) /\
    0 <= S /\
    Forall (fun s => exists j, 0 <= j < 2 ^ 32 /\ fst s = L - j * S) pairs /\
    Forall (fun s => fst s <= L) pairs /\
    StronglySorted (fun a b : Sample => fst a <= fst b) pairs /\
    (0 < S -> StronglySorted (fun a b : Sample => fst a < fst b) pairs).
Proof.
  intros H.
  destruct (parse_rrd4j_file_grid _ _ _ _ H) as (L & S & vals & HL & HS & Hn & -> & Hne).
  set (n := len vals) in *.
  pose proof (len_pairs_from L S n vals 0) as Hle.
  pose proof (pairs_from_grid L S n vals 0) as Hgrid.
  split.
  { split; [|lia].
    destruct (pairs_from L S n 0 vals); [congruence|].
    unfold len. simpl List.length. lia. }
  split.
  { eapply Forall_impl; [|exact Hgrid]. cbv beta. now intros s [Hf _]. }
  exists L, S. split; [exact HL|]. split; [exact HS|]. split; [|split; [|split]].
  - eapply Forall_impl; [|exact Hgrid]. cbv beta. intros s (_ & k & Hk & E).
    exists (n - k - 1). split; [fold n in Hk; lia|exact E].
  - eapply Forall_impl; [|exact Hgrid]. cbv beta. intros s (_ & k & Hk & ->).
    fold n in Hk. nia.
  - apply pairs_from_sorted. intros k k' Hk. nia.
  - intros HS'. apply pairs_from_sorted. intros k k' Hk. nia.
Qed.

Lemma parsed_samples_are_well_formed_witness :
  parse_rrd4j_file file_five_rows "D" 1700000000
    = Some [(1699999760, 1%float); (1699999820, 2%float); (1699999880, 3%float);
            (1699999940, 4%float); (1700000000, 5%float)] /\
  Forall (fun s : Sample => finite (snd s) = true)
    [(1699999760, 1%float); (1699999820, 2%float); (1699999880, 3%float);
     (1699999940, 4%float); (1700000000, 5%float)].
Proof.
  assert (H : parse_rrd4j_file file_five_rows "D" 1700000000
    = Some [(1699999760, 1%float); (1699999820, 2%float); (1699999880, 3%float);
            (1699999940, 4%float); (1700000000, 5%float)])
    by (vm_compute; reflexivity).
  split; [exact H|].
  exact (proj1 (proj2 (parsed_samples_are_well_formed _ _ _ _ H))).
Defined.

(** X4. The format parser reads no byte that the file does not have: when
    it returns samples, the header announced at least one archive, and the
    file holds the 64 header bytes, 128 bytes for every datasource, at least
    60 bytes for every archive and 8 bytes for every sample returned.  A
    file shorter than that, in particular one of fewer than 132 bytes, gives
    no data. *)
Theorem parsed_file_holds_its_layout
    (data : list byte) (period : string) (now : Q) (pairs : list Sample) :
  parse_rrd4j_file data period now = Some pairs ->
  exists step ds_count arc_count last_update,
    read_header data now = Ret (step, ds_count, arc_count, last_update) /\
    1 <= arc_count /\
    64 + 128 * ds_count + 60 * arc_count + 8 * len pairs <= len data /\
    132 <= len data.
Proof.
  intros H.
  destruct (parse_rrd4j_file_inv _ _ _ _ H)
    as (step & ds & ac & lu & archive_data & sel & Hh & Ha & _ & Hin & -> & Hne).
  destruct (read_header_ranges _ _ _ _ _ _ Hh) as (Hstep & Hds & Hac & Hlu).
  exists step, ds, ac, lu. split; [exact Hh|].
  assert (Hoff : 0 <= 40 + 24 + ds * 128) by lia.
  destruct (read_archives_need_room data ds (proj1 Hds) _ _ _ Hoff Ha) as [Hn F].
  rewrite Forall_forall in F. destruct (F _ Hin) as [Hr0 Hroom].
  assert (Hac1 : 1 <= ac).
  { destruct archive_data; [destruct Hin|]. simpl in Hn. lia. }
  assert (Hlen : len (values sel) = rows sel).
  { assert (G : Forall (fun a => len (values a) = rows a) archive_data).
    { apply (read_archives_Forall _ data ds) with (2 := Ha).
      intros o a o' E.
      destruct (read_archive_inv _ _ _ _ _ E) as (v & _ & _ & Hv & Hval).
      now rewrite Hval, reorder_len, (unpack_doubles_len _ _ _ Hv). }
    rewrite Forall_forall in G. now apply G. }
  pose proof (len_pairs_from lu (step * steps sel) (len (values sel)) (values sel) 0)
    as Hle.
  unfold build_pairs in *.
  assert (0 < len (pairs_from lu (step * steps sel) (len (values sel)) 0 (values sel))).
  { destruct (pairs_from _ _ _ _ _); [congruence|]. unfold len. simpl List.length. lia. }
  rewrite Z2Nat.id in Hroom by lia.
  split; [exact Hac1|]. split; lia.
Qed.

Lemma parsed_file_holds_its_layout_witness :
  exists step ds_count arc_count last_update,
    read_header file_five_rows 1700000000
      = Ret (step, ds_count, arc_count, last_update) /\
    1 <= arc_count /\
    64 + 128 * ds_count + 60 * arc_count + 8 * 5 <= len file_five_rows /\
    132 <= len file_five_rows.
Proof.
  apply (parsed_file_holds_its_layout file_five_rows "D" 1700000000
           [(1699999760, 1%float); (1699999820, 2%float); (1699999880, 3%float);
            (1699999940, 4%float); (1700000000, 5%float)]).
  vm_compute. reflexivity.
Defined.

(** ** What the heuristic scanner reads and returns *)

Lemma len_py_range (start stop step : Z) :
  0 < step -> len (py_range start stop step) = Z.max 0 ((stop - start + step - 1) / step).
Proof.
  intros Hs. unfold py_range, len. rewrite length_map, length_seq. lia.
Qed.

Lemma len_scanned_doubles (data : list byte) :
  len (scanned_doubles data) = Z.max 0 ((len data - 201) / 8).
Proof.
  unfold scanned_doubles.
  assert (E : len (map (double_at data) (py_range 200 (len data - 8) 8))
              = len (py_range 200 (len data - 8) 8))
    by (unfold len; now rewrite length_map).
  rewrite E, len_py_range by lia. f_equal. f_equal. lia.
Qed.

(** A run of [runs_from] is a segment of the sequence that no plausible
    neighbour extends. *)
Lemma runs_from_segment {A : Type} (p : A -> bool) :
  forall l cur r,
    In r (runs_from p cur l) ->
    exists pre post,
      cur ++ l = pre ++ r ++ post /\
      (pre = [] \/ exists pre' x, pre = pre' ++ [x] /\ p x = false) /\
      (post = [] \/ exists x post', post = x :: post' /\ p x = false).
Proof.
  induction l as [|x t IH]; intros cur r; cbn [runs_from].
  - intros [<-|[]]. exists [], []. rewrite !app_nil_r. auto.
  - destruct (p x) eqn:Hx.
    + intros H. destruct (IH _ _ H) as (pre & post & E & Hl & Hr).
      exists pre, post. rewrite <- E, <- app_assoc. auto.
    + intros [<-|H].
      * exists [], (x :: t). split; [reflexivity|]. split; [now left|].
        right. now exists x, t.
      * destruct (IH _ _ H) as (pre & post & E & Hl & Hr). cbn [app] in E.
        exists (cur ++ x :: pre), post. split; [|split; [|exact Hr]].
        -- rewrite E, <- app_assoc. reflexivity.
        -- right. destruct Hl as [->|(pre' & y & -> & Hy)].
           ++ exists cur, x. auto.
           ++ exists (cur ++ x :: pre'), y. rewrite <- app_assoc. auto.
Qed.

Lemma py_max_In {A : Type} (key : A -> Z) (l : list A) (m : A) :
  py_max key l = Ret m -> In m l.
Proof.
  destruct l as [|b t]; cbn [py_max]; [discriminate|].
  intros H. injection H as <-.
  destruct (max_from_first key t b) as (pre & post & E & _).
  rewrite E. apply in_elt.
Qed.

Lemma synth_from_stamps (now : Q) (n : Z) :
  forall vals i k s,
    nth_error (synth_from now n i vals) k = Some s ->
    fst s = num_sub (PyFloat now) (PyInt ((n - (i + Z.of_nat k) - 1) * 60)).
Proof.
  induction vals as [|v t IH]; intros i k s; cbn [synth_from].
  - destruct k; discriminate.
  - destruct k as [|k]; cbn [nth_error].
    + intros H. injection H as <-. cbn [fst].
      replace (n - (i + Z.of_nat 0) - 1) with (n - i - 1) by lia. reflexivity.
    + intros H. rewrite (IH _ _ _ H).
      replace (n - (i + 1 + Z.of_nat k) - 1) with (n - (i + Z.of_nat (S k)) - 1) by lia.
      reflexivity.
Qed.

Lemma len_synth_from (now : Q) (n : Z) :
  forall vals i, len (synth_from now n i vals) = len vals.
Proof.
  intros vals i. unfold len. f_equal.
  rewrite <- (length_map snd), synth_from_values. reflexivity.
Qed.

(** X5. The scan stops one window short: it reads
    [max 0 ((len - 201) / 8)] doubles, so of a buffer of [200 + 8 * m]
    bytes only the first [m - 1] doubles after offset 200 are examined and
    the last eight bytes never are.  No buffer of 440 bytes or fewer gives
    data, and a result never has more samples than doubles were read. *)
Theorem scanner_stops_one_window_short (data : list byte) (now : Q) :
  len (scanned_doubles data) = Z.max 0 ((len data - 201) / 8) /\
  (forall m, 1 <= m -> len data = 200 + 8 * m -> len (scanned_doubles data) = m - 1) /\
  (len data <= 440 -> parse_rrd4j_values_only data now = None) /\
  (forall pairs, parse_rrd4j_values_only data now = Some pairs ->
     30 <= len pairs <= (len data - 201) / 8).
Proof.
  assert (Hn := len_scanned_doubles data).
  assert (Hres : forall pairs, parse_rrd4j_values_only data now = Some pairs ->
                   30 <= len pairs <= len (scanned_doubles data)).
  { intros pairs. unfold parse_rrd4j_values_only, scan_values.
    rewrite scan_blocks_spec. cbn [rbind].
    destruct (kept_blocks (scanned_doubles data)) as [|b l] eqn:E; [discriminate|].
    destruct (py_max len (b :: l)) as [best|] eqn:Hm; [|discriminate].
    cbn [rbind catch]. intros H. injection H as <-.
    rewrite len_synth_from.
    apply py_max_In in Hm. rewrite <- E in Hm. unfold kept_blocks in Hm.
    apply filter_In in Hm. destruct Hm as [Hrun H30]. apply Z.leb_le in H30.
    split; [exact H30|].
    destruct (runs_from_segment _ _ _ _ Hrun) as (pre & post & Eq & _).
    cbn [app] in Eq. rewrite Eq, !len_app.
    pose proof (len_nonneg pre). pose proof (len_nonneg post). lia. }
  split; [exact Hn|]. split; [|split].
  - intros m Hm E. rewrite Hn, E.
    replace (200 + 8 * m - 201) with (7 + (m - 1) * 8) by lia.
    rewrite Z.div_add by lia. change (7 / 8) with 0. lia.
  - intros Hshort.
    destruct (parse_rrd4j_values_only data now) as [pairs|] eqn:E; [|reflexivity].
    specialize (Hres _ eq_refl). rewrite Hn in Hres.
    assert ((len data - 201) / 8 <= 29).
    { apply Z.lt_succ_r. apply Z.div_lt_upper_bound; lia. }
    lia.
  - intros pairs H. specialize (Hres _ H). rewrite Hn in Hres. lia.
Qed.

(** X6. What the scanner returns is a stretch of the file as it stands:
    the values are consecutive doubles of the scan, all of them plausible,
    at least 30, bounded on either side by the ends of the scan or by an
    implausible double; and the timestamps are synthetic, a minute apart
    and counted back from the clock, whatever the file says. *)
Theorem scanner_returns_a_maximal_plausible_stretch
    (data : list byte) (now : Q) (pairs : list (pynum * float)) :
  parse_rrd4j_values_only data now = Some pairs ->
  let vals := map snd pairs in
  30 <= len vals /\
  forallb is_valid_sensor_value vals = true /\
  (exists pre post,
      scanned_doubles data = pre ++ vals ++ post /\
      (pre = [] \/ exists pre' x, pre = pre' ++ [x] /\ is_valid_sensor_value x = false) /\
      (post = [] \/ exists x post', post = x :: post' /\ is_valid_sensor_value x = false)) /\
  (forall k s, nth_error pairs k = Some s ->
     fst s = num_sub (PyFloat now) (PyInt ((len pairs - Z.of_nat k - 1) * 60))).
Proof.
  unfold parse_rrd4j_values_only, scan_values.
  rewrite scan_blocks_spec. cbn [rbind].
  destruct (kept_blocks (scanned_doubles data)) as [|b l] eqn:E; [discriminate|].
  destruct (py_max len (b :: l)) as [best|] eqn:Hm; [|discriminate].
  cbn [rbind catch]. intros H. injection H as <-. cbv zeta.
  rewrite synth_from_values.
  apply py_max_In in Hm. rewrite <- E in Hm. unfold kept_blocks in Hm.
  apply filter_In in Hm. destruct Hm as [Hrun H30]. apply Z.leb_le in H30.
  split; [exact H30|]. split; [|split].
  - pose proof (runs_from_valid is_valid_sensor_value (scanned_doubles data) []
                  eq_refl) as Hall.
    rewrite Forall_forall in Hall. now apply Hall.
  - destruct (runs_from_segment _ _ _ _ Hrun) as (pre & post & Eq & Hl & Hr).
    exists pre, post. auto.
  - intros k s Hk. rewrite (synth_from_stamps _ _ _ _ _ _ Hk), len_synth_from.
    reflexivity.
Qed.

Lemma scanner_returns_a_maximal_plausible_stretch_witness :
  exists pairs,
    parse_rrd4j_values_only buffer_two_runs 1700000000 = Some pairs /\
    30 <= len (map snd pairs).
Proof.
  destruct (parse_rrd4j_values_only buffer_two_runs 1700000000) as [pairs|] eqn:E.
  - exists pairs. split; [reflexivity|].
    exact (proj1 (scanner_returns_a_maximal_plausible_stretch _ _ _ E)).
  - exfalso. revert E. vm_compute. discriminate.
Defined.

(** ** The shape of what the resampler returns *)

Lemma fallback_points_range (period : string) :
  60 <= dict_get fallback_points period 1440 <= 8760.
Proof.
  unfold fallback_points. cbn [dict_get].
  repeat match goal with |- context [String.eqb ?a ?b] => destruct (String.eqb a b) end;
    lia.
Qed.

Lemma len_cons {A : Type} (x : A) (l : list A) : len (x :: l) = len l + 1.
Proof. unfold len. simpl List.length. lia. Qed.

Lemma len_pos_iff {A : Type} (l : list A) : 0 < len l <-> l <> [].
Proof.
  destruct l; [unfold len; simpl; split; [lia|congruence]|].
  rewrite len_cons. pose proof (len_nonneg l). split; [discriminate|lia].
Qed.

Lemma len_last_n {A : Type} (n : Z) (l : list A) :
  0 < n -> len (last_n n l) = Z.min n (len l).
Proof.
  intros Hn. unfold last_n. rewrite len_drop. pose proof (len_nonneg l). lia.
Qed.

Lemma subseq_len {A : Type} (s l : list A) : subseq s l -> len s <= len l.
Proof.
  induction 1; [lia| |]; rewrite ?len_cons; lia.
Qed.

(** The window stage: never empty on a non-empty input, with the extremes
    of what it returns. *)
Lemma select_window_facts (data : list Sample) (period : string) (now : Q) :
  data <> [] ->
  let st := select_window data period now in
  fst st <> [] /\
  snd st = fold_left track (map snd (fst st)) no_range.
Proof.
  intros Hne. cbv zeta. unfold select_window. rewrite window_pass_spec.
  set (cutoff := num_sub _ _). cbn [fst].
  destruct (filter (in_window cutoff) data) as [|s t] eqn:E.
  - destruct data as [|d0 dt]; [congruence|]. cbn [fst snd].
    split; [|reflexivity]. apply len_pos_iff.
    rewrite len_last_n by (pose proof (fallback_points_range period); lia).
    pose proof (fallback_points_range period). rewrite len_cons.
    pose proof (len_nonneg dt). lia.
  - cbn [fst snd]. split; [discriminate|reflexivity].
Qed.

Lemma len_picks (filtered : list Sample) (max_points : Z) :
  forall indices, len (picks filtered max_points indices) <= len indices.
Proof.
  induction indices as [|i t IH]; [reflexivity|].
  unfold picks in *. cbn [flat_map]. rewrite len_app, len_cons. cbv zeta.
  destruct (_ <? _); [|change (len (@nil Sample)) with 0; lia].
  destruct (nth_error filtered _); [|change (len (@nil Sample)) with 0; lia].
  change (len [s]) with 1. lia.
Qed.

Lemma len_forced_tail (result filtered : list Sample) :
  len (forced_tail result filtered) <= 1.
Proof.
  destruct (forced_tail_cases result filtered) as [->|(? & ? & _ & ->)];
    [change (len (@nil Sample)) with 0|change (len [x0]) with 1]; lia.
Qed.

(** The first pick is the first sample. *)
Lemma picks_head (filtered : list Sample) (max_points : Z) (s0 : Sample) (t : list Sample) :
  0 < max_points -> filtered = s0 :: t ->
  exists rest, picks filtered max_points (py_range 0 max_points 1) = s0 :: rest.
Proof.
  intros HB ->. rewrite py_range_0.
  destruct (Z.to_nat max_points) as [|k] eqn:Ek; [lia|].
  cbn [seq map]. unfold picks. cbn [flat_map]. rewrite sample_index_0.
  assert (H : (0 <? len (s0 :: t)) = true)
    by (apply Z.ltb_lt; rewrite len_cons; pose proof (len_nonneg t); lia).
  rewrite H. cbn [Z.to_nat nth_error app]. eexists. reflexivity.
Qed.

(** The resampler succeeds on a non-empty input, within its budget, with
    samples of the input and their extremes. *)
Lemma resampled_returns (data : list Sample) (period : string) (B : Z) (now : Q) :
  data <> [] -> 0 < B ->
  exists out,
    resampled data period B now = Ret (out, fold_left track (map snd out) no_range) /\
    1 <= len out <= B + 1 /\
    (forall s, In s out -> In s data).
Proof.
  intros Hne HB.
  destruct (select_window_facts data period now Hne) as [Hfne Hmm].
  pose proof (select_window_subseq data period now) as Hsub.
  unfold resampled.
  destruct (Z.ltb_spec B (len (fst (select_window data period now)))) as [Hlt|Hge].
  - rewrite downsample_spec by exact HB.
    eexists. split; [reflexivity|].
    destruct (fst (select_window data period now)) as [|s0 ft] eqn:Ef; [congruence|].
    split.
    + destruct (picks_head (s0 :: ft) B s0 ft HB eq_refl) as (rest & Hp).
      pose proof (len_picks (s0 :: ft) B (py_range 0 B 1)) as Hl.
      rewrite len_py_range_0 in Hl by lia.
      pose proof (len_forced_tail (picks (s0 :: ft) B (py_range 0 B 1)) (s0 :: ft)) as Ht.
      rewrite len_app.
      pose proof (len_nonneg (forced_tail (picks (s0 :: ft) B (py_range 0 B 1)) (s0 :: ft))).
      assert (Hlr : len (picks (s0 :: ft) B (py_range 0 B 1)) = len rest + 1)
        by (rewrite Hp; apply len_cons).
      pose proof (len_nonneg rest). unfold Sample in *. lia.
    + intros s Hs. apply (subseq_In _ _ _ Hsub).
      apply in_app_or in Hs. destruct Hs as [Hs|Hs].
      * now apply picks_In in Hs.
      * now apply forced_tail_In in Hs.
  - destruct (select_window data period now) as [f mm]. cbn [fst snd] in *. subst mm.
    exists f. split; [reflexivity|].
    assert (0 < len f) by now apply len_pos_iff.
    split; [unfold Sample in *; lia|].
    intros s Hs. now apply (subseq_In _ _ _ Hsub).
Qed.


(** X7. A budget that is not positive: with [max_points = 0] the
    resampler divides by zero on every non-empty input, since the window
    stage never hands it an empty list; with a negative budget it returns
    no sample at all and the default range 0 to 100. *)
Theorem resampler_without_a_budget
    (data : list Sample) (period : string) (now : Q) :
  data <> [] ->
  process_data data period 0 now = Raise ZeroDivisionError /\
  (forall B, B < 0 -> process_data data period B now = Ret ([], 0%float, 100%float)).
Proof.
  intros Hne.
  destruct (select_window_facts data period now Hne) as [Hfne _].
  apply len_pos_iff in Hfne.
  assert (Hp : forall B, process_data data period B now
                 = rbind (resampled data period B now) (fun st =>
                   rbind (y_range (snd st)) (fun yy => Ret (fst st, fst yy, snd yy))))
    by (intros B; destruct data; [congruence|reflexivity]).
  split.
  - rewrite Hp. unfold resampled.
    destruct (Z.ltb_spec 0 (len (fst (select_window data period now)))); [|lia].
    reflexivity.
  - intros B HB. rewrite Hp. unfold resampled.
    destruct (Z.ltb_spec B (len (fst (select_window data period now)))); [|lia].
    rewrite downsample_negative by exact HB. reflexivity.
Qed.

Lemma resampler_without_a_budget_witness :
  process_data [(0, 1%float)] "D" 0 1000 = Raise ZeroDivisionError.
Proof.
  apply (resampler_without_a_budget [(0, 1%float)] "D" 1000). discriminate.
Defined.

(** X8. For a non-empty input and a positive budget [B] the resampler
    always succeeds, with between 1 and [B + 1] samples, all of them from the
    window stage.  The tracked extremes are exactly those of the samples
    returned; the first sample of the window stage is always the first one
    returned, and the last one returned is its last sample or equal to it. *)
Theorem resampler_output_shape
    (data : list Sample) (period : string) (B : Z) (now : Q) :
  data <> [] -> 0 < B ->
  let filtered := fst (select_window data period now) in
  exists out,
    resampled data period B now = Ret (out, fold_left track (map snd out) no_range) /\
    1 <= len out <= B + 1 /\
    (forall s, In s out -> In s filtered) /\
    (len filtered <= B -> out = filtered) /\
    (exists s0 rest frest, out = s0 :: rest /\ filtered = s0 :: frest) /\
    (exists front o_last ffront f_last,
        out = front ++ [o_last] /\ filtered = ffront ++ [f_last] /\
        (o_last = f_last \/ sample_neq o_last f_last = false)).
Proof.
  intros Hne HB filtered.
  destruct (select_window_facts data period now Hne) as [Hfne Hmm].
  fold filtered in Hfne, Hmm.
  unfold resampled. fold filtered.
  destruct (Z.ltb_spec B (len filtered)) as [Hlt|Hge].
  - rewrite downsample_spec by exact HB.
    set (result := picks filtered B (py_range 0 B 1)).
    set (tail := forced_tail result filtered).
    exists (result ++ tail). split; [reflexivity|].
    destruct filtered as [|s0 ft] eqn:Ef; [congruence|].
    destruct (picks_head (s0 :: ft) B s0 ft HB eq_refl) as (rest & Hp).
    fold result in Hp.
    pose proof (len_picks (s0 :: ft) B (py_range 0 B 1)) as Hl. fold result in Hl.
    rewrite len_py_range_0 in Hl by lia.
    pose proof (len_forced_tail result (s0 :: ft)) as Ht. fold tail in Ht.
    pose proof (len_nonneg tail).
    split.
    { assert (Hlr : len result = len rest + 1) by (rewrite Hp; apply len_cons).
      rewrite len_app. pose proof (len_nonneg rest). clearbody tail result. unfold Sample in *. lia. }
    split.
    { intros s Hs. apply in_app_or in Hs. destruct Hs as [Hs|Hs].
      - now apply picks_In in Hs.
      - now apply forced_tail_In in Hs. }
    split; [lia|]. split.
    { exists s0, (rest ++ tail), ft. rewrite Hp. auto. }
    unfold tail, forced_tail.
    destruct (exists_last (l := result)) as (rl & r_last & Er);
      [rewrite Hp; discriminate|].
    destruct (exists_last (l := s0 :: ft)) as (fl & f_last & Efl); [discriminate|].
    rewrite Er, Efl, !rev_unit.
    destruct (sample_neq r_last f_last) eqn:Hneq.
    + exists (rl ++ [r_last]), f_last, fl, f_last. auto.
    + exists rl, r_last, fl, f_last. rewrite app_nil_r. auto.
  - destruct (select_window data period now) as [f mm] eqn:E. cbn [fst snd] in *.
    subst filtered mm. exists f. split; [reflexivity|].
    assert (0 < len f) by now apply len_pos_iff.
    split; [unfold Sample in *; lia|]. split; [auto|]. split; [reflexivity|]. split.
    + destruct f as [|s0 ft]; [congruence|]. now exists s0, ft, ft.
    + destruct (exists_last (l := f)) as (fl & f_last & Efl); [exact Hfne|].
      exists fl, f_last, fl, f_last. auto.
Qed.

Lemma resampler_output_shape_witness :
  exists out,
    resampled (ramp 20) "h" 8 10000
      = Ret (out, fold_left track (map snd out) no_range) /\
    1 <= len out <= 8 + 1.
Proof.
  destruct (resampler_output_shape (ramp 20) "h" 8 10000)
    as (out & H & Hl & _); [discriminate|lia|].
  exists out. split; [exact H|exact Hl].
Defined.

(** ** From the parse to the chart *)

Lemma subseq_Forall {A : Type} (P : A -> Prop) (s l : list A) :
  subseq s l -> Forall P l -> Forall P s.
Proof.
  intros Hs Hl. rewrite Forall_forall in *. intros x Hx. apply Hl.
  eapply subseq_In; eassumption.
Qed.

Lemma subseq_StronglySorted {A : Type} (R : A -> A -> Prop) (s l : list A) :
  subseq s l -> StronglySorted R l -> StronglySorted R s.
Proof.
  induction 1 as [|s l x Hs IH|s l x Hs IH]; intros Hl.
  - constructor.
  - apply IH. now inversion Hl.
  - inversion Hl as [|? ? Hl' Hx]; subst. constructor; [now apply IH|].
    eapply subseq_Forall; eassumption.
Qed.

(** The resampler returns a subsequence, for the sizes that a parse can
    have. *)
Lemma resampled_subseq (data : list Sample) (period : string) (B : Z) (now : Q)
    (out : list Sample) (mm : float * float) :
  0 < B -> 3 * len data * B < 2 ^ 53 ->
  resampled data period B now = Ret (out, mm) ->
  subseq out data.
Proof.
  intros HB Hsize. unfold resampled.
  pose proof (select_window_subseq data period now) as Hsub.
  pose proof (subseq_len _ _ Hsub) as Hlen.
  destruct (Z.ltb_spec B (len (fst (select_window data period now)))) as [Hlt|Hge].
  - rewrite downsample_spec by exact HB. intros H. injection H as <- _.
    eapply subseq_trans; [|exact Hsub]. apply downsample_subseq; [lia|nia].
  - destruct (select_window data period now) as [f m]. intros H. injection H as <- _.
    exact Hsub.
Qed.

(** X9. What [main] charts.  The branch that reports that there is no
    data for the period is never taken: once the parse has given samples, the
    window stage and the resampler keep at least one.  And whenever a chart
    comes out, its samples are a subsequence of the parsed ones, between 1
    and 501 of them, all finite and in non-decreasing time order, and the
    labels are those of these samples. *)
Theorem main_charts_samples_of_the_file
    (strftime : string -> pynum -> result string) (fuel : nat)
    (rrd : list byte) (period : string) (now now' : Q) :
  main strftime fuel rrd period now now' <> Done NoDataForPeriod /\
  forall data y_min y_max x_labels,
    main strftime fuel rrd period now now' = Done (Chart data y_min y_max x_labels) ->
    exists parsed,
      parse_rrd4j_file rrd period now = Some parsed /\
      process_data parsed period 500 now' = Ret (data, y_min, y_max) /\
      subseq data parsed /\
      1 <= len data <= 501 /\
      Forall (fun s => finite (snd s) = true) data /\
      StronglySorted (fun a b : Sample => fst a <= fst b) data /\
      generate_x_labels strftime fuel data period = Done x_labels.
Proof.
  unfold main.
  destruct (parse_rrd4j_file rrd period now) as [parsed|] eqn:Hparse;
    [|split; [discriminate|intros; discriminate]].
  destruct parsed as [|p0 pt]; [split; [discriminate|intros; discriminate]|].
  destruct (parse_rrd4j_file_grid _ _ _ _ Hparse)
    as (L & S & vals & _ & HS & Hn & Epairs & _).
  assert (Hlen : len (p0 :: pt) < 2 ^ 32).
  { rewrite Epairs. pose proof (len_pairs_from L S (len vals) vals 0). lia. }
  assert (Hfin : Forall (fun s : Sample => finite (snd s) = true) (p0 :: pt)).
  { rewrite Epairs. eapply Forall_impl; [|apply pairs_from_grid].
    cbv beta. now intros s [Hf _]. }
  assert (Hsorted : StronglySorted (fun a b : Sample => fst a <= fst b) (p0 :: pt)).
  { rewrite Epairs. apply pairs_from_sorted. intros k k' Hk. nia. }
  destruct (resampled_returns (p0 :: pt) period 500 now' ltac:(discriminate) ltac:(lia))
    as (out & Hres & Hout & _).
  assert (Hsub : subseq out (p0 :: pt)).
  { eapply (resampled_subseq _ period 500 now' out); [lia| |exact Hres].
    change (2 ^ 53) with 9007199254740992. change (2 ^ 32) with 4294967296 in *. lia. }
  cbn [process_data]. rewrite Hres. cbn [rbind fst snd].
  destruct (y_range _) as [[lo hi]|e] eqn:Hy; cbn [rbind fst snd];
    [|split; [discriminate|intros; discriminate]].
  destruct out as [|o0 ot]; [unfold len in Hout; simpl in Hout; lia|].
  destruct (generate_x_labels strftime fuel (o0 :: ot) period) as [labels| |] eqn:Hlab;
    [|split; [discriminate|intros; discriminate]..].
  split; [discriminate|].
  intros data y_min y_max x_labels H. injection H as <- <- <- <-.
  exists (p0 :: pt). split; [reflexivity|]. split.
  { cbn [process_data]. rewrite Hres. cbn [rbind fst snd]. rewrite Hy. reflexivity. }
  split; [exact Hsub|]. split; [exact Hout|].
  split; [eapply subseq_Forall; eassumption|].
  split; [eapply subseq_StronglySorted; eassumption|exact Hlab].
Qed.

Lemma main_charts_samples_of_the_file_witness :
  exists data y_min y_max x_labels,
    main (fun _ _ => Ret "12:00"%string) 5 file_five_rows "D" 1700000000 1700000000
      = Done (Chart data y_min y_max x_labels) /\
    1 <= len data <= 501.
Proof.
  destruct (main (fun _ _ => Ret "12:00"%string) 5 file_five_rows "D"
                 1700000000 1700000000) as [[| |data y_min y_max x_labels]| |] eqn:E;
    try (exfalso; revert E; vm_compute; discriminate).
  exists data, y_min, y_max, x_labels. split; [reflexivity|].
  destruct (main_charts_samples_of_the_file (fun _ _ => Ret "12:00"%string) 5
              file_five_rows "D" 1700000000 1700000000) as [_ H].
  destruct (H _ _ _ _ E) as (parsed & _ & _ & _ & Hl & _). exact Hl.
Defined.

(** ** The labels of the X axis *)

Lemma num_le_int (a b : Z) : num_le (PyInt a) (PyInt b) = (a <=? b).
Proof.
  unfold num_le, num_val.
  destruct (Z.leb_spec a b) as [H|H].
  - apply Qle_bool_iff. now rewrite <- Zle_Qle.
  - apply not_true_is_false. intros E. apply Qle_bool_iff in E.
    rewrite <- Zle_Qle in E. lia.
Qed.

Lemma label_interval_known (period : string) (duration : Z) :
  In period ["h"; "D"; "W"; "M"; "Y"]%string ->
  exists k fmt,
    label_interval period duration = Ret (PyInt k, fmt) /\
    In k [600; 900; 7200; 86400; 432000; 2592000] /\
    (period = "h"%string -> k = if duration <? 3600 then 600 else 900).
Proof.
  simpl. intros [<-|[<-|[<-|[<-|[<-|[]]]]]]; cbn [label_interval String.eqb Ascii.eqb Bool.eqb].
  - destruct (duration <? 3600); eexists; eexists;
      (split; [reflexivity|split; [simpl; tauto|reflexivity]]).
  - eexists; eexists. split; [reflexivity|]. split; [simpl; tauto|discriminate].
  - eexists; eexists. split; [reflexivity|]. split; [simpl; tauto|discriminate].
  - eexists; eexists. split; [reflexivity|]. split; [simpl; tauto|discriminate].
  - eexists; eexists. split; [reflexivity|]. split; [simpl; tauto|discriminate].
Qed.

Lemma label_pos_total (start_ts duration : Z) (current : pynum) :
  exists p, label_pos start_ts duration current = Ret p.
Proof.
  unfold label_pos. destruct (Z.ltb_spec 0 duration) as [H|H]; [|now eexists].
  unfold num_truediv.
  assert (E : Qeq_bool (num_val (PyInt duration)) 0 = false).
  { apply not_true_is_false. intros E. apply Qeq_bool_iff in E.
    cbn [num_val] in E. unfold Qeq in E. simpl in E. lia. }
  rewrite E. destruct (num_sub current (PyInt start_ts)); cbn [rbind]; now eexists.
Qed.

Lemma label_pos_start (start_ts duration : Z) :
  label_pos start_ts duration (PyInt start_ts)
  = Ret (if 0 <? duration then PyFloat 0 else PyInt 50).
Proof.
  unfold label_pos. destruct (Z.ltb_spec 0 duration) as [H|H]; [|reflexivity].
  unfold num_truediv.
  assert (E : Qeq_bool (num_val (PyInt duration)) 0 = false).
  { apply not_true_is_false. intros E. apply Qeq_bool_iff in E.
    cbn [num_val] in E. unfold Qeq in E. simpl in E. lia. }
  rewrite E. cbn [num_sub rbind]. rewrite Z.sub_diag.
  rewrite (rnd64_zero (inject_Z 0 / inject_Z duration)) by apply Qmult_0_l.
  cbn [num_mul as_float]. rewrite rnd64_zero by apply Qmult_0_l. reflexivity.
Qed.

Section LabelWalk.
Variable strftime : string -> pynum -> result string.
Hypothesis strftime_total : forall fmt t, exists txt, strftime fmt t = Ret txt.

Variable fmt : string.
Variables start_ts end_ts duration k : Z.
Hypothesis k_pos : 0 < k.

(** The walk with an int interval: one label per grid point up to the end. *)
Lemma walk_ticks :
  forall n fuel c labels,
    c <= end_ts -> Z.of_nat n = (end_ts - c) / k + 1 -> (n < fuel)%nat ->
    exists new,
      walk strftime fuel fmt start_ts end_ts duration (PyInt k) (PyInt c) labels
        = Done (labels ++ new) /\
      List.length new = n /\
      forall j, (j < n)%nat ->
        exists l, nth_error new j = Some l /\
                  strftime fmt (PyInt (c + Z.of_nat j * k)) = Ret (text l) /\
                  label_pos start_ts duration (PyInt (c + Z.of_nat j * k)) = Ret (pos l).
Proof.
  induction n as [|m IH]; intros fuel c labels Hc Hn Hfuel.
  - exfalso. assert (0 <= (end_ts - c) / k) by (apply Z.div_pos; lia). lia.
  - destruct fuel as [|fuel']; [lia|]. cbn [walk].
    rewrite num_le_int. destruct (Z.leb_spec c end_ts) as [_|]; [|lia].
    destruct (strftime_total fmt (PyInt c)) as (txt & Htxt). rewrite Htxt.
    destruct (label_pos_total start_ts duration (PyInt c)) as (p & Hp). rewrite Hp.
    cbn [num_add].
    set (l := {| text := txt; pos := p |}).
    assert (Hdiv : (end_ts - c) / k = (end_ts - (c + k)) / k + 1).
    { replace (end_ts - c) with (end_ts - (c + k) + 1 * k) by lia.
      rewrite Z.div_add by lia. reflexivity. }
    assert (Hl0 : forall j, j = O ->
               strftime fmt (PyInt (c + Z.of_nat j * k)) = Ret (text l) /\
               label_pos start_ts duration (PyInt (c + Z.of_nat j * k)) = Ret (pos l)).
    { intros j ->. cbn [Z.of_nat Z.mul]. rewrite Z.add_0_r. auto. }
    destruct (Z.le_gt_cases (c + k) end_ts) as [Hle|Hgt].
    + destruct (IH fuel' (c + k) (labels ++ [l]) Hle ltac:(lia) ltac:(lia))
        as (new & Hw & Hlen & Hnth).
      exists (l :: new). split; [|split].
      * rewrite Hw, <- app_assoc. reflexivity.
      * simpl. now rewrite Hlen.
      * intros [|j] Hj.
        -- exists l. split; [reflexivity|]. now apply Hl0.
        -- destruct (Hnth j ltac:(lia)) as (l' & H1 & H2 & H3).
           exists l'. split; [exact H1|].
           replace (c + Z.of_nat (S j) * k) with (c + k + Z.of_nat j * k) by lia.
           auto.
    + assert (Hm : m = O).
      { assert ((end_ts - c) / k = 0) by (apply Z.div_small; lia). lia. }
      subst m. destruct fuel' as [|fuel'']; [lia|]. cbn [walk].
      rewrite num_le_int. destruct (Z.leb_spec (c + k) end_ts) as [|_]; [lia|].
      exists [l]. split; [reflexivity|]. split; [reflexivity|].
      intros [|j] Hj; [|lia]. exists l. split; [reflexivity|]. now apply Hl0.
Qed.
End LabelWalk.

(** X10. For one of the tags h, D, W, M, Y, samples whose first timestamp
    is not after the last, and a [strftime] that always answers, the label
    loop terminates: it emits one label for every grid point
    [start + j * k] up to the end, [duration / k + 1] of them, where [k] is
    the interval of the tag; the first one sits at position 0.0 (at 50 when
    the span is zero); at most one closing label at position 100 follows,
    and the last label of the result is never left of position 95. *)
Theorem known_period_labels_walk_the_grid
    (strftime : string -> pynum -> result string) (fuel : nat)
    (data : list Sample) (period : string) (first final : Sample) :
  (forall fmt t, exists txt, strftime fmt t = Ret txt) ->
  item data 0 = Ret first ->
  item data (-1) = Ret final ->
  fst first <= fst final ->
  In period ["h"; "D"; "W"; "M"; "Y"]%string ->
  let start_ts := fst first in
  let end_ts := fst final in
  let duration := end_ts - start_ts in
  exists k fmt,
    label_interval period duration = Ret (PyInt k, fmt) /\
    0 < k /\
    ((Z.to_nat (duration / k + 1) < fuel)%nat ->
     exists ticks extra,
       generate_x_labels strftime fuel data period = Done (ticks ++ extra) /\
       len ticks = duration / k + 1 /\
       (forall j, 0 <= j <= duration / k ->
          exists l, nth_error ticks (Z.to_nat j) = Some l /\
                    strftime fmt (PyInt (start_ts + j * k)) = Ret (text l) /\
                    label_pos start_ts duration (PyInt (start_ts + j * k)) = Ret (pos l)) /\
       (exists l0 rest, ticks = l0 :: rest /\
                        pos l0 = if 0 <? duration then PyFloat 0 else PyInt 50) /\
       (extra = [] \/
        exists txt, strftime fmt (PyInt end_ts) = Ret txt /\
                    extra = [{| text := txt; pos := PyInt 100 |}]) /\
       (exists l, item (ticks ++ extra) (-1) = Ret l /\
                  num_lt (pos l) (PyInt 95) = false)).
Proof.
  intros Htotal H0 Hl Hle Hp start_ts end_ts duration.
  destruct (label_interval_known period duration Hp) as (k & fmt & Hk & Hin & _).
  assert (Hkpos : 0 < k) by (simpl in Hin; lia).
  exists k, fmt. split; [exact Hk|]. split; [exact Hkpos|]. intros Hfuel.
  assert (Hd0 : 0 <= duration / k) by (apply Z.div_pos; unfold duration, end_ts, start_ts; lia).
  destruct (walk_ticks strftime Htotal fmt start_ts end_ts duration k Hkpos
              (Z.to_nat (duration / k + 1)) fuel start_ts []
              ltac:(unfold end_ts, start_ts; lia) ltac:(fold duration; lia) Hfuel)
    as (ticks & Hw & Hlen & Hnth).
  cbn [app] in Hw.
  assert (Hticks : forall j, 0 <= j <= duration / k ->
            exists l, nth_error ticks (Z.to_nat j) = Some l /\
                      strftime fmt (PyInt (start_ts + j * k)) = Ret (text l) /\
                      label_pos start_ts duration (PyInt (start_ts + j * k)) = Ret (pos l)).
  { intros j Hj. destruct (Hnth (Z.to_nat j) ltac:(lia)) as (l & H1 & H2 & H3).
    rewrite Z2Nat.id in H2, H3 by lia. eauto. }
  assert (Hfirst : exists l0 rest, ticks = l0 :: rest /\
                     pos l0 = if 0 <? duration then PyFloat 0 else PyInt 50).
  { destruct (Hticks 0 ltac:(lia)) as (l & H1 & _ & H3).
    destruct ticks as [|l0 rest]; [discriminate|]. cbn in H1. injection H1 as ->.
    exists l, rest. split; [reflexivity|].
    replace (start_ts + 0 * k) with start_ts in H3 by lia.
    rewrite label_pos_start in H3. now injection H3. }
  destruct (exists_last (l := ticks)) as (front & l_last & Elast).
  { destruct Hfirst as (? & ? & -> & _). discriminate. }
  assert (Hgen : generate_x_labels strftime fuel data period
                 = match end_label strftime fmt end_ts ticks with
                   | Ret ls => Done ls
                   | Raise e => Raised e
                   end).
  { unfold generate_x_labels. destruct data as [|d0 dt]; [discriminate H0|].
    rewrite H0, Hl. fold start_ts end_ts duration. rewrite Hk, Hw. reflexivity. }
  exists ticks.
  assert (Hend : end_label strftime fmt end_ts ticks
                 = if num_lt (pos l_last) (PyInt 95)
                   then rbind (strftime fmt (PyInt end_ts))
                          (fun txt => Ret (ticks ++ [{| text := txt; pos := PyInt 100 |}]))
                   else Ret ticks).
  { unfold end_label. destruct ticks as [|t0 tr]; [destruct front; discriminate|].
    rewrite Elast, item_last. reflexivity. }
  destruct (num_lt (pos l_last) (PyInt 95)) eqn:Hlt.
  - destruct (Htotal fmt (PyInt end_ts)) as (txt & Htxt).
    rewrite Htxt in Hend. cbn [rbind] in Hend.
    exists [{| text := txt; pos := PyInt 100 |}].
    rewrite Hgen, Hend. split; [reflexivity|]. split; [unfold len; lia|].
    split; [exact Hticks|]. split; [exact Hfirst|]. split.
    + right. exists txt. auto.
    + eexists. split; [apply item_last|reflexivity].
  - exists []. rewrite Hgen, Hend, app_nil_r.
    split; [reflexivity|]. split; [unfold len; lia|].
    split; [exact Hticks|]. split; [exact Hfirst|]. split; [now left|].
    exists l_last. split; [rewrite Elast; apply item_last|exact Hlt].
Qed.

Lemma known_period_labels_walk_the_grid_witness :
  exists k fmt,
    label_interval "D" (21600 - 0) = Ret (PyInt k, fmt) /\
    0 < k /\
    ((Z.to_nat ((21600 - 0) / k + 1) < 10)%nat ->
     exists ticks extra,
       generate_x_labels (fun _ _ => Ret "12:00"%string) 10
                         [(0, 1%float); (21600, 2%float)] "D"
         = Done (ticks ++ extra) /\
       len ticks = (21600 - 0) / k + 1).
Proof.
  destruct (known_period_labels_walk_the_grid (fun _ _ => Ret "12:00"%string) 10
              [(0, 1%float); (21600, 2%float)] "D" (0, 1%float) (21600, 2%float))
    as (k & fmt & Hk & Hpos & H).
  - intros fmt t. eexists. reflexivity.
  - reflexivity.
  - reflexivity.
  - simpl. lia.
  - simpl. tauto.
  - exists k, fmt. split; [exact Hk|]. split; [exact Hpos|].
    intros Hfuel. destruct (H Hfuel) as (ticks & extra & Hg & Hlen & _).
    exists ticks, extra. split; [exact Hg|exact Hlen].
Defined.




(** An exact int below [2^53] is a double, however the rational is written. *)
Lemma rnd64_exact_int (x : Q) (z : Z) :
  (x == inject_Z z)%Q -> 0 <= z < 2 ^ 53 -> (rnd64 x == inject_Z z)%Q.
Proof.
  intros E [H0 H1]. destruct (Z.eq_dec z 0) as [->|Hz].
  - rewrite (rnd64_zero x E). reflexivity.
  - assert (Hp : (0 < x)%Q) by (rewrite E; apply inject_Z_pos; lia).
    rewrite rnd64_pos by exact Hp. unfold rnd_pos. rewrite Qred_correct.
    pose proof (scale_exp_lower _ Hp) as Hs.
    set (k := scale_exp x) in *.
    assert (Hk : 0 <= k).
    { destruct (Z.lt_ge_cases k 0) as [Hneg|]; [exfalso|assumption].
      pose proof (pow2_neg_le_half k Hneg) as Hh.
      pose proof (pow2_pos k) as HK.
      assert (E52 : (2 ^ 52 == 4503599627370496)%Q) by reflexivity.
      rewrite E52 in Hs.
      assert (Hz53 : (x < 9007199254740992)%Q).
      { rewrite E. change 9007199254740992%Q with (inject_Z (2 ^ 53)).
        rewrite <- Zlt_Qlt. exact H1. }
      set (K := (2 ^ k)%Q) in *. nra. }
    assert (Ey : (x * 2 ^ k == inject_Z (z * 2 ^ k))%Q).
    { rewrite E, inject_Z_mult. rewrite (Zpower_Qpower 2 k) by exact Hk. reflexivity. }
    rewrite (round_half_even_Z _ _ Ey).
    rewrite inject_Z_mult, (Zpower_Qpower 2 k) by exact Hk.
    pose proof (pow2_pos k). change (inject_Z 2) with 2%Q. field. lra.
Qed.

(** X12. With a tag other than h, D, W, M, Y the interval is a tenth of
    the span, so over a zero span it is 0.0: for a timestamp in
    [0, 2^53) and a [strftime] that always answers, the label loop never
    leaves its first timestamp, and no amount of fuel ends it. *)
Theorem unknown_tag_zero_span_never_ends
    (strftime : string -> pynum -> result string)
    (data : list Sample) (period : string) (first final : Sample) :
  (forall fmt t, exists txt, strftime fmt t = Ret txt) ->
  item data 0 = Ret first ->
  item data (-1) = Ret final ->
  fst first = fst final ->
  0 <= fst first < 2 ^ 53 ->
  ~ In period ["h"; "D"; "W"; "M"; "Y"]%string ->
  forall fuel, generate_x_labels strftime fuel data period = Running.
Proof.
  intros Htotal H0 Hl Hts Hrange Hp fuel.
  set (ts := fst first) in *.
  assert (Hint : label_interval period 0 = Ret (PyFloat 0, "%H:%M"%string)).
  { unfold label_interval.
    repeat match goal with
           | |- context [String.eqb ?a period] =>
               destruct (String.eqb_spec period a) as [->|_];
               [exfalso; apply Hp; simpl; tauto|]
           | |- context [String.eqb period ?a] =>
               destruct (String.eqb_spec period a) as [->|_];
               [exfalso; apply Hp; simpl; tauto|]
           end.
    reflexivity. }
  assert (Hw : forall fuel cur labels,
             (num_val cur == inject_Z ts)%Q ->
             walk strftime fuel "%H:%M" ts ts 0 (PyFloat 0) cur labels = Running).
  { clear fuel. induction fuel as [|fuel IH]; intros cur labels Hc; [reflexivity|].
    cbn [walk].
    assert (Hle : num_le cur (PyInt ts) = true).
    { unfold num_le. apply Qle_bool_iff. cbn [num_val]. rewrite Hc. apply Qle_refl. }
    rewrite Hle. destruct (Htotal "%H:%M"%string cur) as (txt & ->).
    cbn [label_pos Z.ltb Z.compare]. apply IH.
    assert (Hf : (as_float cur == inject_Z ts)%Q).
    { destruct cur as [z|q]; cbn [as_float num_val] in *.
      - apply rnd64_exact_int; [|exact Hrange].
        unfold Qeq in Hc. simpl in Hc. rewrite !Z.mul_1_r in Hc. now subst z.
      - exact Hc. }
    assert (Hsum : num_add cur (PyFloat 0) = PyFloat (rnd64 (as_float cur + 0))).
    { destruct cur; reflexivity. }
    rewrite Hsum. cbn [num_val]. apply rnd64_exact_int; [|exact Hrange].
    rewrite Hf. ring. }
  unfold generate_x_labels. destruct data as [|d0 dt]; [discriminate H0|].
  rewrite H0, Hl. fold ts. rewrite <- Hts. fold ts. rewrite Z.sub_diag, Hint.
  rewrite Hw; [reflexivity|reflexivity].
Qed.

Lemma unknown_tag_zero_span_never_ends_witness :
  generate_x_labels (fun _ _ => Ret "12:00"%string) 1000
                    [(1700000000, 1%float); (1700000000, 2%float)] "X" = Running.
Proof.
  apply (unknown_tag_zero_span_never_ends (fun _ _ => Ret "12:00"%string)
           [(1700000000, 1%float); (1700000000, 2%float)] "X"
           (1700000000, 1%float) (1700000000, 2%float)).
  - intros fmt t. eexists. reflexivity.
  - reflexivity.
  - reflexivity.
  - reflexivity.
  - simpl. lia.
  - simpl. intros [H|[H|[H|[H|[H|[]]]]]]; discriminate H.
Defined.

(** ** The tracked minimum and maximum *)

Section FloatOrder.
Local Open Scope float_scope.

(** The comparison of two doubles, neither of them NaN, is a total
    preorder. *)
Lemma SFcompare_refl (a : spec_float) : a <> S754_nan -> SFcompare a a = Some Eq.
Proof.
  destruct a as [s|s| |s m e]; intros H; try congruence; cbn.
  - reflexivity.
  - destruct s; reflexivity.
  - rewrite Z.compare_refl. change (Pos.compare_cont Eq m m) with (Pos.compare m m).
    rewrite Pos.compare_refl. destruct s; reflexivity.
Qed.

Lemma SFcompare_swap (a b : spec_float) :
  a <> S754_nan -> b <> S754_nan ->
  exists c, SFcompare a b = Some c /\ SFcompare b a = Some (CompOpp c).
Proof.
  destruct a as [sa|sa| |sa ma ea]; destruct b as [sb|sb| |sb mb eb];
    intros Ha Hb; try congruence; cbn;
    try (destruct sa; eexists; split; reflexivity);
    try (destruct sb; eexists; split; reflexivity);
    try (destruct sa, sb; eexists; split; reflexivity).
  change (Pos.compare_cont Eq ma mb) with (Pos.compare ma mb).
  change (Pos.compare_cont Eq mb ma) with (Pos.compare mb ma).
  rewrite (Z.compare_antisym ea eb), (Pos.compare_antisym ma mb).
  destruct sa, sb; try (eexists; split; reflexivity);
    destruct (ea ?= eb)%Z; cbn; try (eexists; split; reflexivity);
    destruct (ma ?= mb)%positive; cbn; eexists; split; reflexivity.
Qed.

Lemma SFleb_trans (a b c : spec_float) :
  SFleb a b = true -> SFleb b c = true -> SFleb a c = true.
Proof.
  unfold SFleb.
  destruct a as [sa|sa| |sa ma ea]; destruct b as [sb|sb| |sb mb eb];
    destruct c as [sc|sc| |sc mc ec]; cbn;
    try discriminate; try reflexivity;
    try (destruct sa; cbn; (discriminate || reflexivity));
    try (destruct sb; cbn; (discriminate || reflexivity));
    try (destruct sc; cbn; (discriminate || reflexivity));
    try (destruct sa, sb; cbn; (discriminate || reflexivity));
    try (destruct sa, sc; cbn; (discriminate || reflexivity));
    try (destruct sb, sc; cbn; (discriminate || reflexivity));
    try (destruct sa, sb, sc; cbn; (discriminate || reflexivity)).
  change (Pos.compare_cont Eq ma mb) with (Pos.compare ma mb).
  change (Pos.compare_cont Eq mb mc) with (Pos.compare mb mc).
  change (Pos.compare_cont Eq ma mc) with (Pos.compare ma mc).
  destruct sa, sb, sc; cbn; try discriminate; try reflexivity;
    destruct (Z.compare_spec ea eb), (Z.compare_spec eb ec), (Z.compare_spec ea ec);
    try lia; cbn; try discriminate; try reflexivity; subst;
    destruct (Pos.compare_spec ma mb), (Pos.compare_spec mb mc),
             (Pos.compare_spec ma mc);
    try lia; cbn; try discriminate; try reflexivity.
Qed.

Lemma finite_spec (v : float) :
  finite v = true ->
  exists s, Prim2SF v = S754_zero s \/ exists m e, Prim2SF v = S754_finite s m e.
Proof.
  unfold finite, is_nan, is_infinity. rewrite !eqb_spec, abs_spec.
  change (Prim2SF infinity) with (S754_infinity false).
  destruct (Prim2SF v) as [s|s| |s m e]; cbn.
  - intros _. exists s. now left.
  - rewrite andb_false_r. discriminate.
  - discriminate.
  - intros _. exists s. right. now exists m, e.
Qed.

Lemma finite_nonnan (v : float) : finite v = true -> Prim2SF v <> S754_nan.
Proof.
  intros H. destruct (finite_spec v H) as (s & [E|(m & e & E)]); rewrite E; discriminate.
Qed.

Lemma leb_refl_finite (v : float) : finite v = true -> (v <=? v) = true.
Proof.
  intros H. rewrite leb_spec. unfold SFleb.
  now rewrite SFcompare_refl by now apply finite_nonnan.
Qed.

Lemma leb_trans (a b c : float) :
  (a <=? b) = true -> (b <=? c) = true -> (a <=? c) = true.
Proof. rewrite !leb_spec. apply SFleb_trans. Qed.

Lemma ltb_leb (a b : float) : (a <? b) = true -> (a <=? b) = true.
Proof.
  rewrite ltb_spec, leb_spec. unfold SFltb, SFleb.
  destruct (SFcompare _ _) as [[| |]|]; congruence.
Qed.

Lemma not_ltb_leb (a b : float) :
  Prim2SF a <> S754_nan -> Prim2SF b <> S754_nan ->
  (a <? b) = false -> (b <=? a) = true.
Proof.
  intros Ha Hb. rewrite ltb_spec, leb_spec. unfold SFltb, SFleb.
  destruct (SFcompare_swap _ _ Ha Hb) as (c & -> & ->).
  destruct c; cbn; congruence.
Qed.

Lemma finite_below_infinity (v : float) :
  finite v = true -> (v <? infinity) = true /\ (neg_infinity <? v) = true.
Proof.
  intros H. rewrite !ltb_spec.
  change (Prim2SF infinity) with (S754_infinity false).
  change (Prim2SF neg_infinity) with (S754_infinity true).
  destruct (finite_spec v H) as (s & [E|(m & e & E)]); rewrite E; split; reflexivity.
Qed.
End FloatOrder.

(** One pass of [track] over finite values: the bounds move outwards only,
    they bound every value seen, and each is the starting bound or one of
    the values. *)
Lemma track_fold_bounds :
  forall (l : list float) (mm : float * float),
    Prim2SF (fst mm) <> S754_nan -> Prim2SF (snd mm) <> S754_nan ->
    Forall (fun v => finite v = true) l ->
    let mm' := fold_left track l mm in
    (fst mm' <=? fst mm)%float = true /\
    (snd mm <=? snd mm')%float = true /\
    Forall (fun v => (fst mm' <=? v)%float = true /\ (v <=? snd mm')%float = true) l /\
    (fst mm' = fst mm \/ In (fst mm') l) /\
    (snd mm' = snd mm \/ In (snd mm') l).
Proof.
  induction l as [|v t IH]; intros [lo hi] Hlo Hhi Hfin; cbn [fst snd] in *.
  - cbn [fold_left fst snd]. 
    assert (R : forall x, Prim2SF x <> S754_nan -> (x <=? x)%float = true).
    { intros x Hx. rewrite leb_spec. unfold SFleb. now rewrite SFcompare_refl. }
    repeat split; auto.
  - inversion Hfin as [|? ? Hv Ht]; subst.
    pose proof (finite_nonnan v Hv) as Hvn.
    pose (lo1 := if (v <? lo)%float then v else lo).
    pose (hi1 := if (hi <? v)%float then v else hi).
    cbv zeta. cbn [fold_left]. change (track (lo, hi) v) with (lo1, hi1).
    assert (Hlo1n : Prim2SF lo1 <> S754_nan) by (unfold lo1; destruct (v <? lo)%float; auto).
    assert (Hhi1n : Prim2SF hi1 <> S754_nan) by (unfold hi1; destruct (hi <? v)%float; auto).
    assert (R : forall x, Prim2SF x <> S754_nan -> (x <=? x)%float = true).
    { intros x Hx. rewrite leb_spec. unfold SFleb. now rewrite SFcompare_refl. }
    assert (Hlo1 : (lo1 <=? lo)%float = true /\ (lo1 <=? v)%float = true).
    { unfold lo1. destruct (v <? lo)%float eqn:E.
      - split; [now apply ltb_leb|now apply R].
      - split; [now apply R|now apply not_ltb_leb]. }
    assert (Hhi1 : (hi <=? hi1)%float = true /\ (v <=? hi1)%float = true).
    { unfold hi1. destruct (hi <? v)%float eqn:E.
      - split; [now apply ltb_leb|now apply R].
      - split; [now apply R|now apply not_ltb_leb]. }
    destruct (IH (lo1, hi1) Hlo1n Hhi1n Ht) as (A & B & C & D & E).
    cbn [fst snd] in A, B, C, D, E.
    set (mm' := fold_left track t (lo1, hi1)) in *.
    split; [eapply leb_trans; [exact A|apply Hlo1]|].
    split; [eapply leb_trans; [apply Hhi1|exact B]|].
    split; [constructor; [split|exact C]|].
    + eapply leb_trans; [exact A|apply Hlo1].
    + eapply leb_trans; [apply Hhi1|exact B].
    + split.
      * destruct D as [D|D]; [|right; now right].
        rewrite D. unfold lo1. destruct (v <? lo)%float; [right; now left|now left].
      * destruct E as [E|E]; [|right; now right].
        rewrite E. unfold hi1. destruct (hi <? v)%float; [right; now left|now left].
Qed.

(** Over a non-empty list of finite values the tracked bounds are its
    least and greatest values. *)
Lemma track_fold_min_max (l : list float) :
  l <> [] -> Forall (fun v => finite v = true) l ->
  let mm := fold_left track l no_range in
  In (fst mm) l /\ In (snd mm) l /\
  Forall (fun v => (fst mm <=? v)%float = true /\ (v <=? snd mm)%float = true) l.
Proof.
  intros Hne Hfin. destruct l as [|v t]; [congruence|].
  inversion Hfin as [|? ? Hv Ht]; subst.
  destruct (finite_below_infinity v Hv) as [Hlt Hgt].
  assert (E : fold_left track (v :: t) no_range = fold_left track t (v, v)).
  { cbn [fold_left]. unfold track at 2, no_range. cbn [fst snd]. now rewrite Hlt, Hgt. }
  cbv zeta. rewrite E.
  pose proof (finite_nonnan v Hv) as Hvn.
  destruct (track_fold_bounds t (v, v) Hvn Hvn Ht) as (A & B & C & D & F).
  cbn [fst snd] in *.
  split; [destruct D as [->|D]; [now left|now right]|].
  split; [destruct F as [->|F]; [now left|now right]|].
  constructor; [split; assumption|exact C].
Qed.

(** X13. The extremes that the resampler hands to the Y-range step are
    the least and the greatest value of the samples it returns: for a
    non-empty input of finite values and a positive budget, both extremes
    are values of returned samples, every returned value lies between them,
    and the minimum is not the infinity that stands for "no data", so the
    default range is not used. *)
Theorem tracked_extremes_are_the_min_and_max
    (data : list Sample) (period : string) (B : Z) (now : Q) :
  data <> [] -> 0 < B ->
  Forall (fun s => finite (snd s) = true) data ->
  exists out lo hi,
    resampled data period B now = Ret (out, (lo, hi)) /\
    (exists s, In s out /\ snd s = lo) /\
    (exists s, In s out /\ snd s = hi) /\
    Forall (fun s => (lo <=? snd s)%float = true /\ (snd s <=? hi)%float = true) out /\
    finite lo = true /\ finite hi = true /\
    (lo =? infinity)%float = false.
Proof.
  intros Hne HB Hfin.
  destruct (resampled_returns data period B now Hne HB) as (out & Hres & Hlen & Hin).
  assert (Hout : Forall (fun v => finite v = true) (map snd out)).
  { apply Forall_forall. intros v Hv. apply in_map_iff in Hv.
    destruct Hv as (s & <- & Hs). rewrite Forall_forall in Hfin. apply Hfin, Hin, Hs. }
  assert (Hne' : map snd out <> []).
  { destruct out; [unfold len in Hlen; simpl in Hlen; lia|discriminate]. }
  destruct (track_fold_min_max (map snd out) Hne' Hout) as (Hlo & Hhi & Hall).
  destruct (fold_left track (map snd out) no_range) as [lo hi] eqn:E.
  cbn [fst snd] in *.
  exists out, lo, hi. split; [exact Hres|].
  apply in_map_iff in Hlo. destruct Hlo as (slo & Elo & Hslo).
  apply in_map_iff in Hhi. destruct Hhi as (shi & Ehi & Hshi).
  split; [now exists slo|]. split; [now exists shi|].
  split.
  { rewrite Forall_forall in Hall |- *. intros s Hs. apply Hall.
    apply in_map_iff. now exists s. }
  rewrite Forall_forall in Hout.
  assert (Flo : finite lo = true) by (apply Hout, in_map_iff; now exists slo).
  assert (Fhi : finite hi = true) by (apply Hout, in_map_iff; now exists shi).
  split; [exact Flo|]. split; [exact Fhi|].
  rewrite eqb_spec. change (Prim2SF infinity) with (S754_infinity false).
  destruct (finite_spec lo Flo) as (s & [Es|(m & e & Es)]); rewrite Es;
    destruct s; reflexivity.
Qed.

Lemma tracked_extremes_are_the_min_and_max_witness :
  exists out lo hi,
    resampled [(0, 3%float); (60, 1%float); (120, 2%float)] "h" 8 100 = Ret (out, (lo, hi)) /\
    (exists s, In s out /\ snd s = lo).
Proof.
  destruct (tracked_extremes_are_the_min_and_max
              [(0, 3%float); (60, 1%float); (120, 2%float)] "h" 8 100)
    as (out & lo & hi & H & Hlo & _).
  - discriminate.
  - lia.
  - repeat constructor.
  - exists out, lo, hi. split; [exact H|exact Hlo].
Defined.

(** ** The points of the chart *)

Section RoundingBounds.
Local Open Scope Q_scope.

(** Rounding to an integer does not cross an integer. *)
Lemma round_half_even_le (y : Q) (N : Z) :
  y <= inject_Z N -> (round_half_even y <= N)%Z.
Proof.
  intros H. unfold round_half_even.
  pose proof (Qfloor_le y) as Hlo.
  assert (Hf : (Qfloor y <= N)%Z) by (rewrite Zle_Qle; lra).
  destruct (Z.eq_dec (Qfloor y) N) as [E|E].
  - assert (Ey : y == inject_Z N) by (rewrite E in Hlo; lra).
    rewrite E.
    destruct (Qcompare (y - inject_Z N) (1 # 2)) eqn:C.
    + apply Qeq_alt in C. lra.
    + lia.
    + apply Qgt_alt in C. lra.
  - destruct (Qcompare _ _); [destruct (Z.even _)| |]; lia.
Qed.

Lemma round_half_even_ge (y : Q) (N : Z) :
  inject_Z N <= y -> (N <= round_half_even y)%Z.
Proof.
  intros H. unfold round_half_even.
  assert (Hf : (N <= Qfloor y)%Z).
  { rewrite <- (Qfloor_Z N). now apply Qfloor_resp_le. }
  destruct (Qcompare _ _); [destruct (Z.even _)| |]; lia.
Qed.

(** Rounding to a double does not cross an int below [2^53]. *)
Lemma rnd64_le_int (x : Q) (z : Z) :
  0 <= x -> x <= inject_Z z -> (0 < z < 2 ^ 53)%Z -> rnd64 x <= inject_Z z.
Proof.
  intros H0 Hx [Hz0 Hz1].
  assert (HzQ : 0 < inject_Z z) by (apply inject_Z_pos; lia).
  destruct (Qlt_le_dec 0 x) as [Hp|Hn].
  2:{ rewrite rnd64_zero by lra. lra. }
  rewrite rnd64_pos by exact Hp. unfold rnd_pos. rewrite Qred_correct.
  pose proof (scale_exp_lower _ Hp) as Hs.
  set (k := scale_exp x) in *.
  pose proof (pow2_pos k) as HK.
  assert (Hk : (0 <= k)%Z).
  { destruct (Z.lt_ge_cases k 0) as [Hneg|]; [exfalso|assumption].
    pose proof (pow2_neg_le_half k Hneg) as Hh.
    assert (E52 : 2 ^ 52 == 4503599627370496) by reflexivity.
    rewrite E52 in Hs.
    assert (Hz53 : inject_Z z < 9007199254740992).
    { change 9007199254740992 with (inject_Z (2 ^ 53)). rewrite <- Zlt_Qlt. exact Hz1. }
    set (K := 2 ^ k) in *. nra. }
  assert (EN : inject_Z (z * 2 ^ k) == inject_Z z * 2 ^ k).
  { rewrite inject_Z_mult, (Zpower_Qpower 2 k) by exact Hk. reflexivity. }
  assert (Hr : (round_half_even (x * 2 ^ k) <= z * 2 ^ k)%Z).
  { apply round_half_even_le. rewrite EN. set (K := 2 ^ k) in *. nra. }
  apply Qle_shift_div_r; [exact HK|].
  rewrite <- EN, <- Zle_Qle. exact Hr.
Qed.
End RoundingBounds.

Section ChartX.
Local Open Scope Q_scope.

Lemma chart_x_is_label_pos (start_ts duration ts : Z) :
  chart_x start_ts duration ts = label_pos start_ts duration (PyInt ts).
Proof. reflexivity. Qed.

(** The position of a timestamp between the first and the last. *)
Lemma chart_x_value (start_ts duration ts : Z) :
  (0 < duration)%Z ->
  chart_x start_ts duration ts
  = Ret (PyFloat (rnd64 (rnd64 (inject_Z (ts - start_ts) / inject_Z duration)
                         * rnd64 (inject_Z 100)))).
Proof.
  intros Hd. unfold chart_x. destruct (Z.ltb_spec 0 duration); [|lia].
  unfold num_truediv.
  assert (E : Qeq_bool (num_val (PyInt duration)) 0 = false).
  { apply not_true_is_false. intros E. apply Qeq_bool_iff in E.
    cbn [num_val] in E. unfold Qeq in E. simpl in E. lia. }
  rewrite E. reflexivity.
Qed.

Lemma rnd64_100 : rnd64 (inject_Z 100) == 100.
Proof. reflexivity. Qed.

Lemma chart_ratio_bounds (a d : Z) :
  (0 <= a <= d)%Z -> (0 < d)%Z ->
  let q := rnd64 (rnd64 (inject_Z a / inject_Z d) * rnd64 (inject_Z 100)) in
  0 <= q <= 100.
Proof.
  intros Ha Hd q.
  assert (HdQ : 0 < inject_Z d) by (apply inject_Z_pos; lia).
  assert (Ha0 : 0 <= inject_Z a) by (change 0 with (inject_Z 0); rewrite <- Zle_Qle; lia).
  assert (Had : inject_Z a <= inject_Z d) by (rewrite <- Zle_Qle; lia).
  assert (Hr0 : 0 <= inject_Z a / inject_Z d) by (apply Qle_shift_div_l; lra).
  assert (Hr1 : inject_Z a / inject_Z d <= 1) by (apply Qle_shift_div_r; lra).
  pose proof (rnd64_nonneg _ Hr0) as Hq0.
  pose proof (rnd64_le_int _ 1 Hr0 Hr1 ltac:(lia)) as Hq1.
  change (inject_Z 1) with 1 in Hq1.
  set (r := rnd64 (inject_Z a / inject_Z d)) in *.
  pose proof rnd64_100 as E100.
  assert (Hp0 : 0 <= r * rnd64 (inject_Z 100)) by (rewrite E100; lra).
  assert (Hp1 : r * rnd64 (inject_Z 100) <= inject_Z 100).
  { rewrite E100. change (inject_Z 100) with 100. lra. }
  split.
  - apply rnd64_nonneg, Hp0.
  - change 100 with (inject_Z 100). apply rnd64_le_int; [exact Hp0|exact Hp1|lia].
Qed.

Lemma py_round_2_bounds (q : Q) :
  0 <= q <= 100 ->
  0 <= num_val (py_round (PyFloat q) 2) <= 100.
Proof.
  intros [H0 H1]. cbn [py_round num_val].
  assert (E : (10 : Q) ^ 2 == 100) by reflexivity.
  set (M := round_half_even (q * 10 ^ 2)).
  assert (HM0 : (0 <= M)%Z).
  { apply round_half_even_ge. rewrite E. change (inject_Z 0) with 0. lra. }
  assert (HM1 : (M <= 10000)%Z).
  { apply round_half_even_le. rewrite E. change (inject_Z 10000) with 10000. lra. }
  assert (HMq0 : 0 <= inject_Z M) by (change 0 with (inject_Z 0); rewrite <- Zle_Qle; lia).
  assert (HMq1 : inject_Z M <= 10000)
    by (change 10000 with (inject_Z 10000); rewrite <- Zle_Qle; lia).
  assert (Hx0 : 0 <= inject_Z M / 10 ^ 2) by (rewrite E; apply Qle_shift_div_l; lra).
  assert (Hx1 : inject_Z M / 10 ^ 2 <= inject_Z 100).
  { rewrite E. change (inject_Z 100) with 100. apply Qle_shift_div_r; lra. }
  split.
  - apply rnd64_nonneg, Hx0.
  - change 100 with (inject_Z 100). apply rnd64_le_int; [exact Hx0|exact Hx1|lia].
Qed.

Lemma py_round_2_exact (q : Q) (z : Z) :
  q == inject_Z z -> (0 <= z <= 100)%Z ->
  num_val (py_round (PyFloat q) 2) == inject_Z z.
Proof.
  intros E Hz. cbn [py_round num_val].
  assert (E2 : (10 : Q) ^ 2 == 100) by reflexivity.
  assert (EM : q * 10 ^ 2 == inject_Z (z * 100)).
  { rewrite E, E2, inject_Z_mult. reflexivity. }
  rewrite (round_half_even_Z _ _ EM).
  apply rnd64_exact_int; [|lia].
  rewrite E2, inject_Z_mult. change (inject_Z 100) with 100. field.
Qed.
End ChartX.

Lemma chart_x_total (start_ts duration ts : Z) :
  exists xv, chart_x start_ts duration ts = Ret xv.
Proof. rewrite chart_x_is_label_pos. apply label_pos_total. Qed.

Lemma chart_points_spec (start_ts duration : Z) :
  forall data i,
    exists pts,
      chart_points start_ts duration i data = Ret pts /\
      List.length pts = List.length data /\
      forall k s, nth_error data k = Some s ->
        exists p xv,
          nth_error pts k = Some p /\
          chart_x start_ts duration (fst s) = Ret xv /\
          Point.x p = py_round xv 2 /\
          Point.y p = round_float (snd s) 3 /\
          Point.index p = i + Z.of_nat k.
Proof.
  induction data as [|[ts val] rest IH]; intros i.
  - exists []. split; [reflexivity|]. split; [reflexivity|].
    intros [|k] s H; discriminate H.
  - cbn [chart_points].
    destruct (chart_x_total start_ts duration ts) as (xv & Hx). rewrite Hx.
    cbn [rbind]. destruct (IH (i + 1)) as (pts & Hp & Hlen & Hnth). rewrite Hp.
    cbn [rbind]. eexists. split; [reflexivity|]. split; [simpl; now rewrite Hlen|].
    intros [|k] s H; cbn [nth_error] in *.
    + injection H as <-. eexists. exists xv. cbn [fst snd].
      split; [reflexivity|]. split; [exact Hx|]. cbn.
      split; [reflexivity|]. split; [reflexivity|lia].
    + destruct (Hnth k s H) as (p & xv' & H1 & H2 & H3 & H4 & H5).
      exists p, xv'. repeat split; try assumption. lia.
Qed.


(** X15. Where the points sit on the X axis.  When every timestamp lies
    between the first and the last one (as in any list in time order), every
    point has [0 <= x <= 100]; over a zero span every [x] is the int 50;
    over a positive span the first point sits at 0.0 and the last at
    100.0. *)
Theorem chart_positions_run_from_0_to_100
    (data : list Sample) (first final : Sample) :
  item data 0 = Ret first ->
  item data (-1) = Ret final ->
  Forall (fun s => fst first <= fst s <= fst final) data ->
  exists pts,
    generate_chart_data data = Ret pts /\
    Forall (fun p => (0 <= num_val (Point.x p) <= 100)%Q) pts /\
    (fst first = fst final -> Forall (fun p => Point.x p = PyInt 50) pts) /\
    (fst first < fst final ->
     exists p0 pl,
       item pts 0 = Ret p0 /\ item pts (-1) = Ret pl /\
       Point.x p0 = PyFloat 0 /\ (num_val (Point.x pl) == 100)%Q).
Proof.
  intros H0 Hl Hbetween.
  destruct data as [|d0 dt]; [discriminate H0|].
  assert (Hgen : generate_chart_data (d0 :: dt)
                 = chart_points (fst first) (fst final - fst first) 0 (d0 :: dt)).
  { unfold generate_chart_data. rewrite H0, Hl. reflexivity. }
  set (start_ts := fst first) in *. set (duration := fst final - start_ts) in *.
  destruct (chart_points_spec start_ts duration (d0 :: dt) 0) as (pts & Hp & Hlen & Hnth).
  exists pts. rewrite Hgen. split; [exact Hp|].
  assert (Hback : forall p, In p pts ->
            exists s xv, In s (d0 :: dt) /\ chart_x start_ts duration (fst s) = Ret xv /\
                         Point.x p = py_round xv 2).
  { intros p Hin. apply In_nth_error in Hin. destruct Hin as (k & Hk).
    destruct (nth_error (d0 :: dt) k) as [s|] eqn:Es.
    - destruct (Hnth k s Es) as (p' & xv & H1 & H2 & H3 & _).
      rewrite Hk in H1. injection H1 as <-. exists s, xv.
      split; [eapply nth_error_In, Es|auto].
    - exfalso. apply nth_error_None in Es.
      assert (nth_error pts k <> None) by congruence.
      apply nth_error_Some in H. lia. }
  rewrite Forall_forall in Hbetween.
  split; [|split].
  - apply Forall_forall. intros p Hin.
    destruct (Hback p Hin) as (s & xv & Hs & Hx & ->).
    specialize (Hbetween s Hs).
    destruct (Z.lt_ge_cases 0 duration) as [Hd|Hd].
    + rewrite chart_x_value in Hx by exact Hd. injection Hx as <-.
      apply py_round_2_bounds.
      apply (chart_ratio_bounds (fst s - start_ts) duration); [unfold duration; lia|exact Hd].
    + unfold chart_x in Hx. destruct (Z.ltb_spec 0 duration); [lia|].
      injection Hx as <-. cbn. split; discriminate.
  - intros E. apply Forall_forall. intros p Hin.
    destruct (Hback p Hin) as (s & xv & Hs & Hx & ->).
    unfold chart_x in Hx. destruct (Z.ltb_spec 0 duration); [unfold duration in *; lia|].
    now injection Hx as <-.
  - intros Hlt. assert (Hd : 0 < duration) by (unfold duration; lia).
    assert (E0 : nth_error (d0 :: dt) 0 = Some first).
    { unfold item in H0. cbn in H0. now injection H0 as <-. }
    destruct (Hnth O first E0) as (p0 & xv0 & Hp0 & Hx0 & Ex0 & _).
    destruct (exists_last (l := d0 :: dt)) as (front & final' & Ef); [discriminate|].
    assert (final' = final).
    { rewrite Ef, item_last in Hl. now injection Hl. }
    subst final'.
    assert (El : nth_error (d0 :: dt) (List.length front) = Some final).
    { rewrite Ef, nth_error_app2, Nat.sub_diag by lia. reflexivity. }
    destruct (Hnth _ final El) as (pl & xvl & Hpl & Hxl & Exl & _).
    exists p0, pl. split; [|split; [|split]].
    + apply item_nonneg; [lia|exact Hp0].
    + destruct (exists_last (l := pts)) as (pfront & plast & Epts).
      { intros ->. discriminate Hp0. }
      rewrite Epts, item_last. f_equal.
      assert (Hlf : List.length pfront = List.length front).
      { pose proof (f_equal (@List.length _) Epts) as L1.
        pose proof (f_equal (@List.length _) Ef) as L2.
        rewrite length_app in L1, L2.
        change (List.length [plast]) with 1%nat in L1.
        change (List.length [final]) with 1%nat in L2. lia. }
      rewrite Epts, <- Hlf, nth_error_app2, Nat.sub_diag in Hpl by lia.
      now injection Hpl.
    + rewrite Ex0. fold start_ts in Hx0. rewrite chart_x_is_label_pos, label_pos_start in Hx0.
      destruct (Z.ltb_spec 0 duration); [|lia]. injection Hx0 as <-. reflexivity.
    + rewrite Exl. rewrite chart_x_value in Hxl by exact Hd. injection Hxl as <-.
      apply (py_round_2_exact _ 100); [|lia].
      assert (E1 : (rnd64 (inject_Z (fst final - start_ts) / inject_Z duration)
                    == inject_Z 1)%Q).
      { apply rnd64_exact_int; [|lia]. fold duration.
        assert (0 < inject_Z duration)%Q by (apply inject_Z_pos; lia).
        change (inject_Z 1) with 1%Q. field. lra. }
      apply rnd64_exact_int; [|lia]. rewrite E1, rnd64_100. reflexivity.
Qed.

Lemma chart_positions_run_from_0_to_100_witness :
  exists pts,
    generate_chart_data [(0, 1%float); (30, 2%float); (90, 3%float)] = Ret pts /\
    Forall (fun p => (0 <= num_val (Point.x p) <= 100)%Q) pts.
Proof.
  destruct (chart_positions_run_from_0_to_100
              [(0, 1%float); (30, 2%float); (90, 3%float)] (0, 1%float) (90, 3%float))
    as (pts & H & Hx & _).
  - reflexivity.
  - reflexivity.
  - repeat constructor; simpl; lia.
  - exists pts. split; [exact H|exact Hx].
Defined.

(** [round_float] on the two examples of rounding that Python's
    documentation discusses: 2.675 is stored just below the tie and goes
    down, 0.125 is an exact tie and goes to the even digit; and a negative
    value that rounds to zero keeps its sign. *)
Example round_float_examples :
  round_float 2.675 2 = 2.67%float /\
  round_float 0.125 2 = 0.12%float /\
  round_float 1.23456 3 = 1.235%float /\
  round_float (-0.0001) 3 = (-0)%float /\
  round_float infinity 3 = infinity.
Proof. repeat split; vm_compute; reflexivity. Qed.

(** ** The unit and the title *)

Lemma match_literal_spec (pat : str) :
  forall s after,
    match_literal pat s = Some after <->
    exists mid, s = mid ++ after /\
                Forall2 (fun p c => matches_ignorecase p c = true) pat mid.
Proof.
  induction pat as [|p pat IH]; intros s after; cbn [match_literal].
  - split.
    + intros H. injection H as <-. exists []. split; [reflexivity|constructor].
    + intros (mid & -> & H). inversion H. reflexivity.
  - destruct s as [|c s'].
    + split; [discriminate|]. intros (mid & E & H). inversion H; subst. discriminate E.
    + destruct (matches_ignorecase p c) eqn:Hc.
      * rewrite IH. split.
        -- intros (mid & -> & H). exists (c :: mid). split; [reflexivity|].
           constructor; assumption.
        -- intros (mid & E & H). inversion H as [|? c' ? mid' Hc' H']; subst.
           injection E as <- ->. now exists mid'.
      * split; [discriminate|]. intros (mid & E & H).
        inversion H as [|? c' ? mid' Hc' H']; subst. injection E as <- _. congruence.
Qed.

Lemma space_or_end_spec (s : str) :
  space_or_end s = true <->
  s = [] \/ exists c rest, s = c :: rest /\ is_space c = true.
Proof.
  destruct s as [|c rest]; cbn [space_or_end].
  - split; [now left|reflexivity].
  - split.
    + intros H. right. exists c, rest. split; [reflexivity|].
      apply orb_true_iff in H. destruct H as [H|H]; [exact H|].
      apply andb_true_iff in H. destruct H as [H _]. apply Z.eqb_eq in H. now subst c.
    + intros [H|(c' & rest' & E & H)]; [discriminate|].
      injection E as <- <-. now rewrite H.
Qed.

(** X16. What [match_unit] looks for: the pattern is found exactly when
    the title contains a whitespace character, then characters that match
    the pattern one by one without regard to case, then either the end of
    the title or another whitespace character.  A unit at the very start of
    the title, or glued to a bracket or a digit, is not found. *)
Theorem match_unit_needs_whitespace_around (pattern title : str) :
  match_unit pattern title = true <->
  exists before c mid rest,
    title = before ++ c :: mid ++ rest /\
    is_space c = true /\
    Forall2 (fun p ch => matches_ignorecase p ch = true) pattern mid /\
    (rest = [] \/ exists c' rest', rest = c' :: rest' /\ is_space c' = true).
Proof.
  induction title as [|c t IH]; cbn [match_unit].
  - split; [discriminate|]. intros (before & c & mid & rest & E & _).
    destruct before; discriminate E.
  - rewrite orb_true_iff, IH. split.
    + intros [H|(before & c' & mid & rest & -> & Hc & Hm & Hr)].
      * apply andb_true_iff in H. destruct H as [Hc H].
        destruct (match_literal pattern t) as [after|] eqn:E; [|discriminate].
        apply match_literal_spec in E. destruct E as (mid & -> & Hm).
        apply space_or_end_spec in H.
        exists [], c, mid, after. auto.
      * exists (c :: before), c', mid, rest. auto.
    + intros (before & c' & mid & rest & E & Hc & Hm & Hr).
      destruct before as [|b before']; cbn [app] in E; injection E as -> ->.
      * left. rewrite Hc. cbn [andb].
        assert (M : match_literal pattern (mid ++ rest) = Some rest)
          by (apply match_literal_spec; now exists mid).
        rewrite M. now apply space_or_end_spec.
      * right. exists before', c', mid, rest. auto.
Qed.

Lemma match_unit_no_space (pattern title : str) :
  forallb (fun c => negb (is_space c)) title = true ->
  match_unit pattern title = false.
Proof.
  induction title as [|c t IH]; cbn [forallb match_unit]; [reflexivity|].
  intros H. apply andb_true_iff in H. destruct H as [Hc Ht].
  apply negb_true_iff in Hc. rewrite Hc, IH by exact Ht. reflexivity.
Qed.

Ltac decide_chars :=
  repeat match goal with
         | |- context [?a <=? ?b] => destruct (Z.leb_spec a b); try lia
         | |- context [?a =? ?b] => destruct (Z.eqb_spec a b); try lia
         end; try reflexivity.

Lemma same_but_case_space (c c' : Z) :
  same_but_case c c' -> is_space c' = is_space c.
Proof.
  intros [->|[[H ->]|[H ->]]]; [reflexivity| |]; unfold is_space; decide_chars.
Qed.

Lemma same_but_case_newline (c c' : Z) :
  same_but_case c c' -> (c' =? 10) = (c =? 10).
Proof. intros [->|[[H ->]|[H ->]]]; [reflexivity| |]; decide_chars. Qed.

(** A literal matches a character and its other case alike. *)
Lemma same_but_case_matches (p c c' : Z) :
  same_but_case c c' -> matches_ignorecase p c' = matches_ignorecase p c.
Proof.
  intros [->|[[H ->]|[H ->]]]; [reflexivity| |]; unfold matches_ignorecase;
    cbv zeta; destruct (Z.leb_spec 65 p), (Z.leb_spec p 90); cbn [andb];
    decide_chars.
Qed.

Lemma same_but_case_match_literal (pat : str) :
  forall s s', Forall2 same_but_case s s' ->
    match match_literal pat s, match_literal pat s' with
    | Some after, Some after' => Forall2 same_but_case after after'
    | None, None => True
    | _, _ => False
    end.
Proof.
  induction pat as [|p pat IH]; intros s s' Hs; cbn [match_literal].
  - exact Hs.
  - destruct Hs as [|c c' s s' Hc Hs]; [exact I|].
    rewrite (same_but_case_matches p c c' Hc).
    destruct (matches_ignorecase p c); [now apply IH|exact I].
Qed.

Lemma same_but_case_space_or_end (s s' : str) :
  Forall2 same_but_case s s' -> space_or_end s' = space_or_end s.
Proof.
  intros [|c c' r r' Hc Hr]; [reflexivity|]. cbn [space_or_end].
  rewrite (same_but_case_space c c' Hc), (same_but_case_newline c c' Hc).
  destruct Hr; reflexivity.
Qed.

Lemma same_but_case_match_unit (pat title title' : str) :
  Forall2 same_but_case title title' ->
  match_unit pat title' = match_unit pat title.
Proof.
  intros H. induction H as [|c c' t t' Hc Ht IH]; [reflexivity|].
  cbn [match_unit]. rewrite IH, (same_but_case_space c c' Hc).
  pose proof (same_but_case_match_literal pat t t' Ht) as Hm.
  destruct (match_literal pat t) as [after|], (match_literal pat t') as [after'|];
    try contradiction; [|reflexivity].
  now rewrite (same_but_case_space_or_end after after' Hm).
Qed.

(** X17. [deduce_unit] is blind to the case of ASCII letters: two titles
    that differ only there get the same unit.  And it needs white space: a
    title without a whitespace character has no unit ([?]), whatever it
    says. *)
Theorem deduce_unit_ignores_case_and_needs_whitespace (title : str) :
  (forall title', Forall2 same_but_case title title' ->
     deduce_unit title' = deduce_unit title) /\
  (forallb (fun c => negb (is_space c)) title = true ->
     deduce_unit title = codes "?").
Proof.
  split.
  - intros title' H. unfold deduce_unit.
    now rewrite !(fun pat => same_but_case_match_unit pat title title' H).
  - intros H. unfold deduce_unit. now rewrite !match_unit_no_space by exact H.
Qed.

Lemma str_eqb_eq (a b : str) : str_eqb a b = true <-> a = b.
Proof.
  revert b. induction a as [|x a IH]; intros [|y b]; cbn [str_eqb];
    try (split; [reflexivity|reflexivity]); try (split; discriminate).
  rewrite andb_true_iff, Z.eqb_eq, IH. split.
  - intros [-> ->]. reflexivity.
  - intros H. injection H as -> ->. auto.
Qed.

(** [rstrip] removes the trailing white space and nothing else. *)
Lemma rstrip_spec (s : str) :
  exists ws,
    s = rstrip s ++ ws /\
    forallb is_space ws = true /\
    (forall front c, rstrip s = front ++ [c] -> is_space c = false).
Proof.
  induction s as [|c s (ws & E & Hws & Hlast)].
  - exists []. split; [reflexivity|]. split; [reflexivity|].
    intros front c H. destruct front; discriminate H.
  - change (rstrip (c :: s))
      with (match rstrip s with
            | [] => if is_space c then [] else [c]
            | _ => c :: rstrip s
            end).
    destruct (rstrip s) as [|r0 rt] eqn:Er.
    + cbn [app] in E. subst ws. destruct (is_space c) eqn:Hc.
      * exists (c :: s). split; [reflexivity|]. split; [cbn; now rewrite Hc, Hws|].
        intros front c' H. destruct front; discriminate H.
      * exists s. split; [reflexivity|]. split; [exact Hws|].
        intros front c' H. destruct front as [|f0 [|f1 ft]]; try discriminate H.
        now injection H as <-.
    + exists ws. split; [cbn [app]; now rewrite E at 1|]. split; [exact Hws|].
      intros front c' H. destruct front as [|f0 ft].
      * discriminate H.
      * injection H as _ H. now apply (Hlast ft).
Qed.

Lemma endswith_spec (s suffix : str) :
  endswith s suffix = true <-> exists body, s = body ++ suffix.
Proof.
  unfold endswith. rewrite andb_true_iff, Z.leb_le, str_eqb_eq. split.
  - intros [Hlen E]. exists (take (len s - len suffix) s).
    assert (Hk : 0 <= len s - len suffix) by lia.
    set (k := len s - len suffix) in *. rewrite <- E.
    rewrite drop_skipn, take_firstn by exact Hk.
    symmetry. apply firstn_skipn.
  - intros (body & ->). rewrite len_app. pose proof (len_nonneg body).
    split; [lia|]. replace (len body + len suffix - len suffix) with (len body) by lia.
    rewrite drop_skipn by lia. unfold len. rewrite Nat2Z.id.
    rewrite skipn_app, Nat.sub_diag, skipn_all. reflexivity.
Qed.

Lemma slice_to_minus_len (body unit : str) :
  slice_to (body ++ unit) (- len unit) = match unit with [] => [] | _ => body end.
Proof.
  unfold slice_to. destruct unit as [|u0 ut].
  - change (- len (@nil Z)) with 0. cbn [Z.ltb Z.compare]. apply take_nonpos. lia.
  - pose proof (len_nonneg ut). rewrite len_cons in *.
    destruct (Z.ltb_spec (- (len ut + 1)) 0); [|lia].
    rewrite len_app, len_cons. pose proof (len_nonneg body).
    replace (Z.max 0 (len body + (len ut + 1) + - (len ut + 1))) with (len body) by lia.
    rewrite take_firstn by lia. unfold len. rewrite Nat2Z.id.
    rewrite firstn_app, Nat.sub_diag, firstn_all. cbn [firstn]. apply app_nil_r.
Qed.

(** X18. The title and the unit that [main] puts on the chart.  The unit
    is the one given, or the deduced one when [?] is given.  If it is [?]
    the title stays.  Otherwise, when the title without its trailing white
    space ends with the unit, letter for letter, that unit and the white
    space before it are cut off; when it does not (a unit deduced from
    [kwh] is [kWh]) the title stays as it is, trailing white space included.
    An empty unit always qualifies, and then the whole title is cut:
    [s[:-0]] is [s[:0]].  Here [rstrip] removes the white space at the end
    of the title and nothing else. *)
Theorem title_and_unit_spec (title unit : str) :
  let u := if str_eqb unit (codes "?") then deduce_unit title else unit in
  snd (title_and_unit title unit) = u /\
  (u = codes "?" -> fst (title_and_unit title unit) = title) /\
  (forall body, u <> codes "?" -> u <> [] -> rstrip title = body ++ u ->
     fst (title_and_unit title unit) = rstrip body) /\
  ((forall body, rstrip title <> body ++ u) ->
     fst (title_and_unit title unit) = title) /\
  (unit = [] -> title_and_unit title unit = ([], [])) /\
  (exists ws, title = rstrip title ++ ws /\ forallb is_space ws = true /\
              forall front c, rstrip title = front ++ [c] -> is_space c = false).
Proof.
  intros u. unfold title_and_unit. fold u. cbn [fst snd].
  split; [reflexivity|]. split; [|split; [|split; [|split; [|apply rstrip_spec]]]].
  - intros E. apply str_eqb_eq in E. now rewrite E.
  - intros body Hq He Hr.
    assert (Hn : str_eqb u (codes "?") = false).
    { apply not_true_is_false. intros E. now apply str_eqb_eq in E. }
    assert (Hend : endswith (rstrip title) u = true)
      by (apply endswith_spec; now exists body).
    rewrite Hn, Hend. cbn [negb andb]. rewrite Hr, slice_to_minus_len.
    destruct u; [congruence|reflexivity].
  - intros Hno.
    assert (Hend : endswith (rstrip title) u = false).
    { apply not_true_is_false. intros E. apply endswith_spec in E.
      destruct E as (body & E). now apply (Hno body). }
    rewrite Hend, andb_false_r. reflexivity.
  - intros ->. subst u.
    assert (Hq : str_eqb [] (codes "?") = false) by reflexivity.
    assert (Hend : endswith (rstrip title) [] = true)
      by (apply endswith_spec; exists (rstrip title); now rewrite app_nil_r).
    rewrite Hq, Hend. cbn [negb andb]. change (- len (@nil Z)) with 0. unfold slice_to.
    cbn [Z.ltb Z.compare]. rewrite take_nonpos by lia. reflexivity.
Qed.

(** ** The labels of an unknown tag *)

Section TenthsWalk.
Local Open Scope Q_scope.

Let U : Q := 1 # 9007199254740992.
Let eta : Q := 1 # 1024.

Lemma rnd64_close (x B : Q) :
  0 <= x -> x <= B -> x - B * U <= rnd64 x /\ rnd64 x <= x + B * U.
Proof.
  intros H0 HB. pose proof (rnd64_error x H0) as He. fold U in He.
  apply Qabs_Qle_condition in He. unfold U in *. lra.
Qed.

Variables s d : Z.
Hypothesis s_nonneg : (0 <= s)%Z.
Hypothesis d_pos : (1 <= d)%Z.
Hypothesis end_small : (s + d < 2 ^ 40)%Z.

Let Sq : Q := inject_Z s.
Let Dq : Q := inject_Z d.
Let I : Q := rnd64 (inject_Z d / inject_Z 10).

(** [near j c]: [c] is within [j * 2^-10] of [s + j * d / 10]. *)
Let near (j : Z) (c : Q) : Prop :=
  Sq + inject_Z j * (Dq / 10) - inject_Z j * eta <= c /\
  c <= Sq + inject_Z j * (Dq / 10) + inject_Z j * eta.

Lemma tenths_facts :
  0 <= Sq /\ 1 <= Dq /\ Sq + Dq < 1099511627776 /\
  Dq / 10 - (1 # 65536) <= I /\ I <= Dq / 10 + (1 # 65536) /\
  Dq == 10 * (Dq / 10).
Proof.
  assert (H0 : 0 <= Sq)
    by (unfold Sq; change 0 with (inject_Z 0); rewrite <- Zle_Qle; exact s_nonneg).
  assert (H1 : 1 <= Dq)
    by (unfold Dq; change 1 with (inject_Z 1); rewrite <- Zle_Qle; exact d_pos).
  assert (H2 : Sq + Dq < 1099511627776).
  { unfold Sq, Dq. rewrite <- inject_Z_plus.
    change 1099511627776 with (inject_Z (2 ^ 40)). rewrite <- Zlt_Qlt. exact end_small. }
  split; [exact H0|]. split; [exact H1|]. split; [exact H2|].
  assert (Hx0 : 0 <= inject_Z d / inject_Z 10).
  { apply Qle_shift_div_l; [reflexivity|]. fold Dq. lra. }
  assert (Hx1 : inject_Z d / inject_Z 10 <= 137438953472).
  { apply Qle_shift_div_r; [reflexivity|]. fold Dq. change (inject_Z 10) with 10. lra. }
  destruct (rnd64_close _ _ Hx0 Hx1) as [A B]. fold I in A, B.
  assert (E : inject_Z d / inject_Z 10 == Dq / 10) by reflexivity.
  rewrite E in A, B.
  assert (ET : Dq == 10 * (Dq / 10)) by field.
  split; [|split; [|exact ET]]; set (T := Dq / 10) in *; unfold U in *; lra.
Qed.

Lemma near_start (c : Q) :
  c = rnd64 (rnd64 (inject_Z s) + I) -> near 1 c.
Proof.
  intros ->. destruct tenths_facts as (H0 & H1 & H2 & HI1 & HI2 & ET).
  set (T := Dq / 10) in *.
  assert (Es : rnd64 (inject_Z s) == Sq).
  { apply rnd64_int. split; [exact s_nonneg|]. change (2 ^ 53)%Z with 9007199254740992%Z.
    change (2 ^ 40)%Z with 1099511627776%Z in end_small. lia. }
  set (R := rnd64 (inject_Z s)) in *.
  assert (Hx0 : 0 <= R + I) by lra.
  assert (Hx1 : R + I <= 4398046511104) by lra.
  destruct (rnd64_close _ _ Hx0 Hx1) as [A B].
  unfold near, eta, U in *. change (inject_Z 1) with 1. fold T. lra.
Qed.

Lemma near_step (j : Z) (c : Q) :
  (1 <= j <= 10)%Z -> near j c -> near (j + 1) (rnd64 (c + I)).
Proof.
  intros Hj [Hlo Hhi]. destruct tenths_facts as (H0 & H1 & H2 & HI1 & HI2 & ET).
  set (T := Dq / 10) in *.
  assert (Hj1 : 1 <= inject_Z j) by (change 1 with (inject_Z 1); rewrite <- Zle_Qle; lia).
  assert (Hj10 : inject_Z j <= 10) by (change 10 with (inject_Z 10); rewrite <- Zle_Qle; lia).
  set (J := inject_Z j) in *.
  assert (HJD : 0 <= J * T /\ J * T <= Dq) by (split; nra).
  assert (Hx0 : 0 <= c + I) by (unfold eta in *; lra).
  assert (Hx1 : c + I <= 4398046511104) by (unfold eta in *; lra).
  destruct (rnd64_close _ _ Hx0 Hx1) as [A B].
  unfold near. rewrite inject_Z_plus. change (inject_Z 1) with 1. fold J. fold T.
  unfold eta, U in *. split; lra.
Qed.

Lemma near_before_end (j : Z) (c : Q) :
  (1 <= j <= 9)%Z -> near j c -> c <= inject_Z (s + d).
Proof.
  intros Hj [Hlo Hhi]. destruct tenths_facts as (H0 & H1 & H2 & HI1 & HI2 & ET).
  set (T := Dq / 10) in *.
  rewrite inject_Z_plus. fold Sq Dq.
  assert (Hj1 : 1 <= inject_Z j) by (change 1 with (inject_Z 1); rewrite <- Zle_Qle; lia).
  assert (Hj9 : inject_Z j <= 9) by (change 9 with (inject_Z 9); rewrite <- Zle_Qle; lia).
  set (J := inject_Z j) in *. unfold eta in *. nra.
Qed.

Lemma near_after_end (c : Q) : near 11 c -> ~ c <= inject_Z (s + d).
Proof.
  intros [Hlo Hhi]. destruct tenths_facts as (H0 & H1 & H2 & HI1 & HI2 & ET).
  set (T := Dq / 10) in *.
  rewrite inject_Z_plus. fold Sq Dq. change (inject_Z 11) with 11 in *.
  unfold eta in *. lra.
Qed.

Lemma tenths_label_pos (c : Q) :
  label_pos s d (PyFloat c)
  = Ret (PyFloat (rnd64 (rnd64 (rnd64 (c - rnd64 (inject_Z s)) / rnd64 (inject_Z d))
                         * rnd64 (inject_Z 100)))).
Proof.
  unfold label_pos. destruct (Z.ltb_spec 0 d) as [_|]; [|lia].
  unfold num_truediv.
  assert (E : Qeq_bool (num_val (PyInt d)) 0 = false).
  { apply not_true_is_false. intros E. apply Qeq_bool_iff in E.
    cbn [num_val] in E. unfold Qeq in E. simpl in E. lia. }
  rewrite E. reflexivity.
Qed.

Lemma tenths_int_facts :
  rnd64 (inject_Z s) == Sq /\ rnd64 (inject_Z d) == Dq /\ rnd64 (inject_Z 100) == 100.
Proof.
  change (2 ^ 40)%Z with 1099511627776%Z in end_small.
  split; [|split; [|reflexivity]]; apply rnd64_int;
    change (2 ^ 53)%Z with 9007199254740992%Z; lia.
Qed.

(** The label of the ninth tenth sits left of 95, that of the tenth does
    not. *)
Lemma tenths_pos_low (c : Q) :
  near 9 c ->
  exists p, label_pos s d (PyFloat c) = Ret p /\ num_lt p (PyInt 95) = true.
Proof.
  intros [Hlo Hhi]. rewrite tenths_label_pos. eexists. split; [reflexivity|].
  destruct tenths_facts as (H0 & H1 & H2 & HI1 & HI2 & ET).
  destruct tenths_int_facts as (Es & Ed & E100).
  set (T := Dq / 10) in *. change (inject_Z 9) with 9 in *. unfold eta in *.
  set (Rs := rnd64 (inject_Z s)) in *. set (Rd := rnd64 (inject_Z d)) in *.
  set (R100 := rnd64 (inject_Z 100)) in *.
  assert (Ha0 : 0 <= c - Rs) by lra.
  assert (Ha1 : c - Rs <= 4398046511104) by lra.
  destruct (rnd64_close _ _ Ha0 Ha1) as [A1 B1].
  set (x1 := rnd64 (c - Rs)) in *.
  assert (HRd : 0 < Rd) by lra.
  assert (Hy0 : 0 <= x1 / Rd) by (apply Qle_shift_div_l; unfold U in *; lra).
  assert (Hy1 : x1 / Rd <= 91 # 100) by (apply Qle_shift_div_r; unfold U in *; lra).
  assert (Hy1' : x1 / Rd <= 1) by lra.
  destruct (rnd64_close _ _ Hy0 Hy1') as [A2 B2].
  pose proof (rnd64_nonneg _ Hy0) as Hx2.
  set (x2 := rnd64 (x1 / Rd)) in *.
  assert (Ez : x2 * R100 == 100 * x2) by (rewrite E100; ring).
  assert (Hz0 : 0 <= x2 * R100) by (unfold U in *; lra).
  assert (Hz1 : x2 * R100 <= 128) by (unfold U in *; lra).
  destruct (rnd64_close _ _ Hz0 Hz1) as [A3 B3].
  unfold num_lt, num_val. apply negb_true_iff, not_true_is_false. intros Hle.
  apply Qle_bool_iff in Hle. change (inject_Z 95) with 95 in Hle.
  unfold U in *. lra.
Qed.

Lemma tenths_pos_high (c : Q) :
  near 10 c ->
  exists p, label_pos s d (PyFloat c) = Ret p /\ num_lt p (PyInt 95) = false.
Proof.
  intros [Hlo Hhi]. rewrite tenths_label_pos. eexists. split; [reflexivity|].
  destruct tenths_facts as (H0 & H1 & H2 & HI1 & HI2 & ET).
  destruct tenths_int_facts as (Es & Ed & E100).
  set (T := Dq / 10) in *. change (inject_Z 10) with 10 in *. unfold eta in *.
  set (Rs := rnd64 (inject_Z s)) in *. set (Rd := rnd64 (inject_Z d)) in *.
  set (R100 := rnd64 (inject_Z 100)) in *.
  assert (Ha0 : 0 <= c - Rs) by lra.
  assert (Ha1 : c - Rs <= 4398046511104) by lra.
  destruct (rnd64_close _ _ Ha0 Ha1) as [A1 B1].
  set (x1 := rnd64 (c - Rs)) in *.
  assert (HRd : 0 < Rd) by lra.
  assert (Hy0 : 97 # 100 <= x1 / Rd) by (apply Qle_shift_div_l; unfold U in *; lra).
  assert (Hy1 : x1 / Rd <= 2) by (apply Qle_shift_div_r; unfold U in *; lra).
  assert (Hy0' : 0 <= x1 / Rd) by lra.
  destruct (rnd64_close _ _ Hy0' Hy1) as [A2 B2].
  pose proof (rnd64_nonneg _ Hy0') as Hx2.
  set (x2 := rnd64 (x1 / Rd)) in *.
  assert (Ez : x2 * R100 == 100 * x2) by (rewrite E100; ring).
  assert (Hz0 : 0 <= x2 * R100) by (unfold U in *; lra).
  assert (Hz1 : x2 * R100 <= 256) by (unfold U in *; lra).
  destruct (rnd64_close _ _ Hz0 Hz1) as [A3 B3].
  unfold num_lt, num_val. apply negb_false_iff. apply Qle_bool_iff.
  change (inject_Z 95) with 95. unfold U in *. lra.
Qed.

Variable strftime : string -> pynum -> result string.
Hypothesis strftime_total : forall fmt t, exists txt, strftime fmt t = Ret txt.
Variable fmt : string.

(** The walk from the [j]-th tenth on: it stops after the ninth or the
    tenth tenth, and its last label tells which. *)
Lemma walk_tenths :
  forall (n : nat) (j : Z) (fuel : nat) (c : Q) (labels : list label),
    j = (10 - Z.of_nat n)%Z -> (1 <= j)%Z -> near j c -> (S n < fuel)%nat ->
    exists new,
      walk strftime fuel fmt s (s + d) d (PyFloat I) (PyFloat c) labels
        = Done (labels ++ new) /\
      ((len new = (10 - j)%Z /\
        ((j <= 9)%Z -> exists front l, new = front ++ [l] /\
                                       num_lt (pos l) (PyInt 95) = true))
       \/ (len new = (11 - j)%Z /\
           exists front l, new = front ++ [l] /\ num_lt (pos l) (PyInt 95) = false)).
Proof.
  induction n as [|m IH]; intros j fuel c labels Ej Hj Hnear Hfuel.
  - assert (j = 10%Z) by lia. subst j.
    destruct fuel as [|[|fuel]]; try lia. cbn [walk].
    destruct (num_le (PyFloat c) (PyInt (s + d))) eqn:Hle.
    + destruct (strftime_total fmt (PyFloat c)) as (txt & ->).
      destruct (tenths_pos_high c Hnear) as (p & -> & Hp).
      cbn [num_add as_float].
      pose proof (near_step 10 c ltac:(lia) Hnear) as H11.
      assert (Hgt : num_le (PyFloat (rnd64 (c + I))) (PyInt (s + d)) = false).
      { apply not_true_is_false. intros Hq. unfold num_le, num_val in Hq.
        apply Qle_bool_iff in Hq. exact (near_after_end _ H11 Hq). }
      fold I. rewrite Hgt. eexists. split; [reflexivity|]. right.
      split; [reflexivity|]. eexists []. eexists. split; [reflexivity|exact Hp].
    + exists []. rewrite app_nil_r. split; [reflexivity|]. left.
      split; [reflexivity|lia].
  - assert (Hj9 : (j <= 9)%Z) by lia.
    destruct fuel as [|fuel]; [lia|]. cbn [walk].
    assert (Hle : num_le (PyFloat c) (PyInt (s + d)) = true).
    { unfold num_le, num_val. apply Qle_bool_iff. now apply (near_before_end j). }
    rewrite Hle. destruct (strftime_total fmt (PyFloat c)) as (txt & ->).
    destruct (label_pos_total s d (PyFloat c)) as (p & Hp). rewrite Hp.
    cbn [num_add as_float]. fold I.
    pose proof (near_step j c ltac:(lia) Hnear) as Hnext.
    set (l := {| text := txt; pos := p |}).
    destruct (IH (j + 1)%Z fuel (rnd64 (c + I)) (labels ++ [l])
                ltac:(lia) ltac:(lia) Hnext ltac:(lia))
      as (new & Hw & Hcases).
    exists (l :: new). split; [rewrite Hw, <- app_assoc; reflexivity|].
    rewrite len_cons.
    destruct Hcases as [[Hlen Hlast]|[Hlen (front & l' & -> & Hl')]].
    + left. split; [lia|]. intros _.
      destruct (Z.eq_dec j 9) as [->|Hne].
      * assert (new = []) by (destruct new; [reflexivity|rewrite len_cons in Hlen;
                               pose proof (len_nonneg new); lia]).
        subst new. exists [], l. split; [reflexivity|].
        destruct (tenths_pos_low c Hnear) as (p' & Hp' & Hlt).
        rewrite Hp in Hp'. injection Hp' as <-. exact Hlt.
      * destruct (Hlast ltac:(lia)) as (front & l' & -> & Hl').
        exists (l :: front), l'. auto.
    + right. split; [lia|]. exists (l :: front), l'. auto.
Qed.
End TenthsWalk.

(** X19. With a tag other than h, D, W, M, Y the interval is a tenth of
    the span, and the loop adds it up in floating point.  For timestamps in
    [0, 2^40), a first timestamp before the last and a [strftime] that does
    not raise, the generator terminates with exactly eleven labels: the
    loop stops after the ninth or the tenth tenth, depending on how the sum
    was rounded, and in the first case the closing label fills in.  The
    first label sits at 0.0 and the last one is not left of 95. *)
Theorem unknown_tag_gets_eleven_labels
    (strftime : string -> pynum -> result string) (fuel : nat)
    (data : list Sample) (period : string) (first final : Sample) :
  (forall fmt t, exists txt, strftime fmt t = Ret txt) ->
  item data 0 = Ret first ->
  item data (-1) = Ret final ->
  0 <= fst first ->
  fst first < fst final ->
  fst final < 2 ^ 40 ->
  ~ In period ["h"; "D"; "W"; "M"; "Y"]%string ->
  (12 <= fuel)%nat ->
  exists labels,
    generate_x_labels strftime fuel data period = Done labels /\
    len labels = 11 /\
    (exists l0 rest, labels = l0 :: rest /\ pos l0 = PyFloat 0) /\
    (exists l, item labels (-1) = Ret l /\ num_lt (pos l) (PyInt 95) = false).
Proof.
  intros Htotal H0 Hl Hs0 Hlt Hend Hp Hfuel.
  set (s := fst first) in *. set (d := fst final - s).
  assert (Ee : fst final = s + d) by (unfold d; lia).
  assert (Hd : 1 <= d) by (unfold d; lia).
  assert (Hsd : s + d < 2 ^ 40) by (rewrite <- Ee; exact Hend).
  set (I := rnd64 (inject_Z d / inject_Z 10)).
  assert (Hint : label_interval period d = Ret (PyFloat I, "%H:%M"%string)).
  { unfold label_interval.
    repeat match goal with
           | |- context [String.eqb ?a period] =>
               destruct (String.eqb_spec period a) as [->|_];
               [exfalso; apply Hp; simpl; tauto|]
           | |- context [String.eqb period ?a] =>
               destruct (String.eqb_spec period a) as [->|_];
               [exfalso; apply Hp; simpl; tauto|]
           end.
    reflexivity. }
  unfold generate_x_labels. destruct data as [|d0 dt]; [discriminate H0|].
  rewrite H0, Hl. fold s. fold d. rewrite Hint, Ee.
  destruct fuel as [|fuel']; [lia|]. cbn [walk].
  rewrite num_le_int. destruct (Z.leb_spec s (s + d)) as [_|]; [|lia].
  destruct (Htotal "%H:%M"%string (PyInt s)) as (txt0 & ->).
  rewrite label_pos_start. destruct (Z.ltb_spec 0 d) as [_|]; [|lia].
  cbn [num_add as_float app].
  set (l0 := {| text := txt0; pos := PyFloat 0 |}).
  set (c1 := rnd64 (rnd64 (inject_Z s) + I)).
  destruct (walk_tenths s d Hs0 Hd Hsd strftime Htotal "%H:%M"%string
              9 1 fuel' c1 [l0] eq_refl ltac:(lia)
              (near_start s d Hs0 Hd Hsd c1 eq_refl) ltac:(lia))
    as (new & Hw & Hcases).
  fold I in Hw. rewrite Hw. cbn [app].
  destruct Hcases as [[Hlen Hlast]|[Hlen (front & l & -> & Hlast)]].
  - destruct (Hlast ltac:(lia)) as (front & l & -> & Hlow).
    unfold end_label. change (l0 :: front ++ [l]) with ((l0 :: front) ++ [l]).
    rewrite item_last. cbn [rbind]. rewrite Hlow.
    destruct (Htotal "%H:%M"%string (PyInt (s + d))) as (txt & ->). cbn [rbind].
    eexists. split; [reflexivity|]. split; [|split].
    + unfold len in *. repeat (rewrite ?length_app in *; cbn [List.length] in * ). lia.
    + exists l0. eexists. split; [reflexivity|reflexivity].
    + eexists. split; [apply item_last|reflexivity].
  - unfold end_label. change (l0 :: front ++ [l]) with ((l0 :: front) ++ [l]).
    rewrite item_last. cbn [rbind]. rewrite Hlast.
    eexists. split; [reflexivity|]. split; [|split].
    + unfold len in *. repeat (rewrite ?length_app in *; cbn [List.length] in * ). lia.
    + exists l0. eexists. split; reflexivity.
    + exists l. split; [apply item_last|exact Hlast].
Qed.

Lemma unknown_tag_gets_eleven_labels_witness :
  exists labels,
    generate_x_labels (fun _ _ => Ret "12:00"%string) 12
                      [(1700000000, 1%float); (1700000007, 2%float)] "X" = Done labels /\
    len labels = 11.
Proof.
  destruct (unknown_tag_gets_eleven_labels (fun _ _ => Ret "12:00"%string) 12
              [(1700000000, 1%float); (1700000007, 2%float)] "X"
              (1700000000, 1%float) (1700000007, 2%float))
    as (labels & H & Hlen & _).
  - intros fmt t. eexists. reflexivity.
  - reflexivity.
  - reflexivity.
  - simpl. lia.
  - simpl. lia.
  - simpl. lia.
  - simpl. intros [H|[H|[H|[H|[H|[]]]]]]; discriminate H.
  - lia.
  - exists labels. split; [exact H|exact Hlen].
Defined.
